(** * subscription-aggregator: period validation, input validation and the
      Postgres subscription repository

    A shallow embedding of
      - internal/handler/validation.go  (monthYearRegex, ValidateSubscriptionInput,
        ValidatePeriodDate, isEndDateAfterOrEqual),
      - internal/handler/subscription.go (the decision logic of the handlers),
      - the repository package (PostgresSubscriptionRepo and isValidMonthYear).

    Go strings are byte strings: they are modelled by [string], whose
    characters are the 256 values of [ascii].  Go's [int] is 64 bit wide and
    is modelled by [Z]; the only place where the width shows is the range
    error of strconv.Atoi, which is written out.  A run-time panic (an index or
    a slice bound out of range) is an explicit outcome of the [run] monad.
    The UUID library, the driver and the database are external: the parser of
    UUIDs and what pgx and PostgreSQL do with the arguments of a statement
    are parameters, and the table is the list of its rows. *)

From Stdlib Require Import ZArith List Bool Ascii String DecimalString Lia Permutation Sorted.
Import ListNotations.

Set Implicit Arguments.
Local Open Scope string_scope.
Local Open Scope Z_scope.

(** ** Outcomes of Go code that may panic *)

Inductive run (A : Type) : Type :=
| Returns (a : A)
| Panics.

Arguments Returns {A} a.
Arguments Panics {A}.

Definition bind {A B : Type} (m : run A) (k : A -> run B) : run B :=
  match m with
  | Returns a => k a
  | Panics => Panics
  end.

Notation "x <- m ;; k" := (bind m (fun x => k))
  (at level 61, m at next level, right associativity).

(** Go's [error]: [None] is nil, [Some msg] an error whose Error() is [msg]. *)
Definition error := option string.

Definition isErr {E : Type} (e : option E) : bool :=
  match e with
  | Some _ => true
  | None => false
  end.

(** ** Go string primitives *)

Module GoString.

(** [s[i]]: panics when [i] is not below [len(s)]. *)
Definition index (s : string) (i : nat) : run ascii :=
  match String.get i s with
  | Some c => Returns c
  | None => Panics
  end.

(** [s[lo:hi]]: panics unless [lo <= hi <= len(s)]. *)
Definition slice (s : string) (lo hi : nat) : run string :=
  if (Nat.leb lo hi && Nat.leb hi (String.length s))%bool
  then Returns (String.substring lo (hi - lo) s)
  else Panics.

(** [parts[i]] on a slice of strings. *)
Definition at_ (parts : list string) (i : nat) : run string :=
  match nth_error parts i with
  | Some p => Returns p
  | None => Panics
  end.

Definition code (c : ascii) : Z := Z.of_N (N_of_ascii c).

Definition is_digit (c : ascii) : bool :=
  (code "0" <=? code c) && (code c <=? code "9").

Definition digit_val (c : ascii) : Z := code c - code "0".

(** strings.Split(s, sep) for a separator of one byte: the pieces between
    the occurrences of [sep]; a string with n separators has n+1 pieces. *)
Fixpoint Split (s : string) (sep : ascii) : list string :=
  match s with
  | EmptyString => [EmptyString]
  | String c rest =>
      if Ascii.eqb c sep then EmptyString :: Split rest sep
      else match Split rest sep with
           | p :: ps => String c p :: ps
           | [] => [String c EmptyString]
           end
  end.

(** Byte-wise order of two strings (Go's [<=] on strings, and the order of
    a TEXT column for strings over digits and the hyphen). *)
Definition le (a b : string) : bool := String.leb a b.
Definition ge (a b : string) : bool := String.leb b a.

End GoString.

(** ** strconv.Atoi

    The standard library function, in base 10 on a 64 bit platform: an optional
    sign, then one or more decimal digits.  A syntax error returns 0; a value
    out of the range of [int] returns the nearest bound with a range error.
    (Atoi's fast path for short inputs computes the same results.) *)

Module strconv.

Inductive NumError := ErrSyntax | ErrRange.

Definition maxUint64 : Z := 2 ^ 64 - 1.
Definition cutoff64 : Z := 2 ^ 63.

(** The digit loop of ParseUint(s, 10, 64), entered with accumulator [n]. *)
Fixpoint parseUintLoop (n : Z) (s : string) : Z * option NumError :=
  match s with
  | EmptyString => (n, None)
  | String c rest =>
      if GoString.is_digit c then
        if n >=? maxUint64 / 10 + 1 then (maxUint64, Some ErrRange)
        else
          let n1 := n * 10 + GoString.digit_val c in
          if n1 >? maxUint64 then (maxUint64, Some ErrRange)
          else parseUintLoop n1 rest
      else (0, Some ErrSyntax)
  end.

Definition ParseUint (s : string) : Z * option NumError :=
  match s with
  | EmptyString => (0, Some ErrSyntax)
  | _ => parseUintLoop 0 s
  end.

Definition Atoi (s : string) : Z * option NumError :=
  match s with
  | EmptyString => (0, Some ErrSyntax)
  | String c rest =>
      let neg := Ascii.eqb c "-" in
      let body := if (Ascii.eqb c "+" || Ascii.eqb c "-")%bool then rest else s in
      match ParseUint body with
      | (_, Some ErrSyntax) => (0, Some ErrSyntax)
      | (un, _) =>
          if (negb neg && (un >=? cutoff64))%bool then (cutoff64 - 1, Some ErrRange)
          else if (neg && (un >? cutoff64))%bool then (- cutoff64, Some ErrRange)
          else (if neg then - un else un, None)
      end
  end.

End strconv.

(** ** A small regular-expression engine, for monthYearRegex

    Byte classes, concatenation and alternation are all the pattern uses.
    Matching is by derivatives. *)

Module regexp.

Inductive regex : Type :=
| Void
| Eps
| Class (lo hi : ascii)
| Seq (r1 r2 : regex)
| Alt (r1 r2 : regex).

Definition in_class (lo hi c : ascii) : bool :=
  (GoString.code lo <=? GoString.code c) && (GoString.code c <=? GoString.code hi).

Fixpoint nullable (r : regex) : bool :=
  match r with
  | Void => false
  | Eps => true
  | Class _ _ => false
  | Seq r1 r2 => nullable r1 && nullable r2
  | Alt r1 r2 => nullable r1 || nullable r2
  end.

Fixpoint deriv (c : ascii) (r : regex) : regex :=
  match r with
  | Void => Void
  | Eps => Void
  | Class lo hi => if in_class lo hi c then Eps else Void
  | Seq r1 r2 =>
      if nullable r1 then Alt (Seq (deriv c r1) r2) (deriv c r2)
      else Seq (deriv c r1) r2
  | Alt r1 r2 => Alt (deriv c r1) (deriv c r2)
  end.

(** Whether the whole of [s] matches [r]. *)
Fixpoint matches (r : regex) (s : string) : bool :=
  match s with
  | EmptyString => nullable r
  | String c rest => matches (deriv c r) rest
  end.

Definition Lit (c : ascii) : regex := Class c c.

(** [r{n}] *)
Fixpoint Rep (n : nat) (r : regex) : regex :=
  match n with
  | O => Eps
  | S n' => Seq r (Rep n' r)
  end.

(** The language of a regular expression, as a relation. *)
Inductive lang : regex -> string -> Prop :=
| lang_eps : lang Eps EmptyString
| lang_class lo hi c : in_class lo hi c = true -> lang (Class lo hi) (String c EmptyString)
| lang_seq r1 r2 s1 s2 : lang r1 s1 -> lang r2 s2 -> lang (Seq r1 r2) (s1 ++ s2)
| lang_alt_l r1 r2 s : lang r1 s -> lang (Alt r1 r2) s
| lang_alt_r r1 r2 s : lang r2 s -> lang (Alt r1 r2) s.

End regexp.

(** ** internal/handler/validation.go: the period pattern *)

Import regexp.

(** [^(0[1-9]|1[0-2])-\d{4}$].  Both anchors are present and Go's [$] (no
    multi-line flag) is the end of the text, so MatchString, which otherwise
    looks for a match anywhere in its argument, holds exactly when the whole
    argument matches the part between the anchors. *)
Definition monthYearRegex : regex :=
  Seq (Alt (Seq (Lit "0") (Class "1" "9")) (Seq (Lit "1") (Class "0" "2")))
      (Seq (Lit "-") (Rep 4 (Class "0" "9"))).

Definition MatchString (re : regex) (s : string) : bool := matches re s.

(** ** repository: isValidMonthYear *)

Definition isValidMonthYear (s : string) : run bool :=
  if negb (Nat.eqb (String.length s) 7) then Returns false
  else
    c <- GoString.index s 2 ;;
    if negb (Ascii.eqb c "-") then Returns false
    else
      m <- GoString.slice s 0 2 ;;
      let '(month, err1) := strconv.Atoi m in
      y <- GoString.slice s 3 7 ;;
      let '(year, err2) := strconv.Atoi y in
      if (isErr err1 || isErr err2)%bool then Returns false
      else Returns ((month >=? 1) && (month <=? 12) && (year >=? 1900) && (year <=? 2100))%bool.

(** ** internal/handler/validation.go: isEndDateAfterOrEqual *)

Definition isEndDateAfterOrEqual (start end_ : string) : run bool :=
  let startParts := GoString.Split start "-" in
  let endParts := GoString.Split end_ "-" in
  p <- GoString.at_ startParts 1 ;;
  let startYear := fst (strconv.Atoi p) in
  p <- GoString.at_ startParts 0 ;;
  let startMonth := fst (strconv.Atoi p) in
  p <- GoString.at_ endParts 1 ;;
  let endYear := fst (strconv.Atoi p) in
  p <- GoString.at_ endParts 0 ;;
  let endMonth := fst (strconv.Atoi p) in
  if endYear >? startYear then Returns true
  else if ((endYear =? startYear) && (endMonth >=? startMonth))%bool then Returns true
  else Returns false.

Definition ValidatePeriodDate (dateStr : string) : error :=
  if negb (MatchString monthYearRegex dateStr)
  then Some "date must be in MM-YYYY format"
  else None.

(** ** internal/model: the subscription entity *)

(** Modelled from the spec: the struct model.Subscription (package
    internal/model is not among the sources).  The fields are those of
    section 3 of the specification, with the Go types the repository and the
    handlers use them at: [EndDate] is a [*string], nil when absent. *)
Record Subscription : Type := {
  ID : string;
  ServiceName : string;
  Price : Z;
  UserID : string;
  StartDate : string;
  EndDate : option string
}.

(** ** HTTP responses of the handlers (status and decoded body) *)

Module http.
Definition StatusOK : Z := 200.
Definition StatusCreated : Z := 201.
Definition StatusBadRequest : Z := 400.
Definition StatusNotFound : Z := 404.
Definition StatusInternalServerError : Z := 500.

Inductive body : Type :=
| JSONError (msg : string)
| JSONSubscription (sub : Subscription)
| JSONNull.

Record response : Type := { status : Z; payload : body }.

(** http.Error(w, `{"error": msg}`, code) *)
Definition Error (msg : string) (code : Z) : response :=
  {| status := code; payload := JSONError msg |}.

(** json.NewEncoder(w).Encode(sub) for a pointer: null when it is nil. *)
Definition Encode (sub : option Subscription) : body :=
  match sub with
  | Some s => JSONSubscription s
  | None => JSONNull
  end.
End http.

(** ** The UUID library

    github.com/google/uuid is an external library: its type and its parser
    are parameters of everything that uses them.  [uuid_Parse s] is [inl u]
    when [uuid.Parse(s)] succeeds with [u] and [inr msg] when it fails with
    an error whose text is [msg]; [uuid_String] is UUID.String(). *)

(** ** internal/handler/validation.go: ValidateSubscriptionInput *)

Section Validation.

Variable UUID : Type.
Variable uuid_Parse : string -> UUID + string.

Definition ValidateSubscriptionInput
    (serviceName : string) (price : Z) (userID startDate : string) : error :=
  if String.eqb serviceName "" then Some "service_name is required"
  else if price <=? 0 then Some "price must be a positive integer"
  else match uuid_Parse userID with
       | inr _ => Some "user_id must be a valid UUID"
       | inl _ =>
           if negb (MatchString monthYearRegex startDate)
           then Some "start_date must be in MM-YYYY format (e.g., 07-2025)"
           else None
       end.

End Validation.

(** ** The database and its driver

    PostgreSQL and pgx are external: what they do with the values the
    repository hands them is a parameter.  The repository sends the price as a
    Go int for an INTEGER column, which pgx encodes as int4 and refuses outside
    the range of 32 bits; it sends user ids, names and periods as Go strings,
    which pgx passes on as text: PostgreSQL reads a user id with the input
    function of the type uuid ([uuid_in], [None] when it refuses the text) and
    checks that a TEXT value is valid in the encoding of the database
    ([text_in]).  [error_text] is the Error() of the error that pgx returns for
    each failure.  For conn.Query, [query_reports] says whether a refusal by
    the server comes back from Query itself or from rows.Err(). *)

Inductive db_failure : Type :=
| Int4OutOfRange
| TextEncoding
| UuidSyntax
| CheckViolation.

Record Postgres (UUID : Type) : Type := {
  uuid_in : string -> option UUID;
  text_in : string -> bool;
  error_text : db_failure -> string;
  query_reports : bool
}.

(** ** repository: PostgresSubscriptionRepo *)

Module PostgresSubscriptionRepo.

Section WithUUID.

Variable UUID : Type.
Variable UUID_eq_dec : forall a b : UUID, {a = b} + {a <> b}.
Variable uuid_Parse : string -> UUID + string.
Variable uuid_String : UUID -> string.
Variable pg : Postgres UUID.

Definition uuid_eqb (a b : UUID) : bool :=
  if UUID_eq_dec a b then true else false.

(** *** The table [subscriptions]

    The columns and their types are those of the CREATE TABLE statement of
    the end-to-end test: id UUID PRIMARY KEY, service_name TEXT, price
    INTEGER CHECK (price > 0), user_id UUID, start_date TEXT, end_date TEXT
    (nullable).  A table is the list of its rows.  A statement is modelled by
    its relational meaning on that list, on a connection that answers: a
    statement fails when pgx cannot encode an argument, when PostgreSQL
    refuses the text of an argument, or when the CHECK constraint is
    violated.  A string sent for a UUID column is stored as the UUID that
    PostgreSQL reads in it.  TEXT values are compared byte-wise. *)

Record Row : Type := {
  row_id : UUID;
  row_service_name : string;
  row_price : Z;
  row_user_id : UUID;
  row_start_date : string;
  row_end_date : option string
}.

Definition Table : Type := list Row.

Variable gen_random_uuid : Table -> UUID.

(** rows.Scan / QueryRow.Scan of the six selected columns. *)
Definition scan (r : Row) : Subscription :=
  {| ID := uuid_String (row_id r);
     ServiceName := row_service_name r;
     Price := row_price r;
     UserID := uuid_String (row_user_id r);
     StartDate := row_start_date r;
     EndDate := row_end_date r |}.

(** ORDER BY start_date DESC on the TEXT column: a stable insertion sort
    by decreasing byte-wise order of [row_start_date]. *)
Fixpoint insert_desc (r : Row) (l : list Row) : list Row :=
  match l with
  | [] => [r]
  | x :: xs =>
      if GoString.ge (row_start_date r) (row_start_date x) then r :: l
      else x :: insert_desc r xs
  end.

Definition order_by_start_date_desc (l : list Row) : list Row :=
  fold_right insert_desc [] l.

(** [a] may stand before [b] in that order. *)
Definition text_ge (a b : Row) : Prop :=
  GoString.ge (row_start_date a) (row_start_date b) = true.

(** UPDATE subscriptions SET service_name = $1, price = $2, user_id = $3,
    start_date = $4, end_date = $5 WHERE id = $6 *)
Definition set_row (serviceName : string) (price : Z) (userID : UUID)
    (startDate : string) (endDate : option string) (r : Row) : Row :=
  {| row_id := row_id r;
     row_service_name := serviceName;
     row_price := price;
     row_user_id := userID;
     row_start_date := startDate;
     row_end_date := endDate |}.

(** Whether a Go int fits the int4 that pgx sends for an INTEGER. *)
Definition fits_int4 (n : Z) : bool := ((- 2 ^ 31 <=? n) && (n <=? 2 ^ 31 - 1))%bool.

(** The arguments $1 to $5 of INSERT and UPDATE on their way to the server:
    pgx encodes them, the price being the one that can fail there, then
    PostgreSQL reads them in order.  The result is the first failure, or the
    UUID read for the user id. *)
Definition bind_row (serviceName : string) (price : Z) (userID startDate : string)
    (endDate : option string) : db_failure + UUID :=
  if negb (fits_int4 price) then inl Int4OutOfRange
  else if negb (text_in pg serviceName) then inl TextEncoding
  else match uuid_in pg userID with
       | None => inl UuidSyntax
       | Some uid =>
           if negb (text_in pg startDate) then inl TextEncoding
           else match endDate with
                | Some e => if negb (text_in pg e) then inl TextEncoding else inr uid
                | None => inr uid
                end
       end.

(** The outcome of Exec: the failure of the statement, or the number of rows
    affected and the new table. *)
Definition exec_update (serviceName : string) (price : Z) (userID startDate : string)
    (endDate : option string) (id : UUID) (db : Table)
  : db_failure + (nat * Table) :=
  match bind_row serviceName price userID startDate endDate with
  | inl f => inl f
  | inr uid =>
      let hit := fun r => uuid_eqb (row_id r) id in
      let n := List.length (filter hit db) in
      if (Nat.ltb 0 n && (price <=? 0))%bool then inl CheckViolation
      else inr (n, map (fun r => if hit r then set_row serviceName price uid startDate endDate r
                                 else r) db)
  end.

(** DELETE FROM subscriptions WHERE id = $1 *)
Definition exec_delete (id : UUID) (db : Table) : nat * Table :=
  let hit := fun r => uuid_eqb (row_id r) id in
  (List.length (filter hit db), filter (fun r => negb (hit r)) db).

(** INSERT INTO subscriptions (...) VALUES ($1, ..., $5) RETURNING id *)
Definition exec_insert (serviceName : string) (price : Z) (userID startDate : string)
    (endDate : option string) (db : Table)
  : db_failure + (UUID * Table) :=
  match bind_row serviceName price userID startDate endDate with
  | inl f => inl f
  | inr uid =>
      if price <=? 0 then inl CheckViolation
      else
        let id := gen_random_uuid db in
        inr (id, (db ++ [ {| row_id := id; row_service_name := serviceName;
                             row_price := price; row_user_id := uid;
                             row_start_date := startDate; row_end_date := endDate |} ])%list)
  end.

(** The arguments $1 to $4 of the query of TotalCost on their way to the
    server: the user id, [from], [to] and, when it is sent, the service name. *)
Definition bind_total_cost (userID serviceName from to : string) : db_failure + UUID :=
  match uuid_in pg userID with
  | None => inl UuidSyntax
  | Some uid =>
      if negb (text_in pg from) then inl TextEncoding
      else if negb (text_in pg to) then inl TextEncoding
      else if (negb (String.eqb serviceName "") && negb (text_in pg serviceName))%bool
           then inl TextEncoding
           else inr uid
  end.

(** The WHERE clause of TotalCost, the service filter included when
    [serviceName] is not empty. *)
Definition total_cost_where (userID : UUID) (serviceName from to : string) (r : Row) : bool :=
  (uuid_eqb (row_user_id r) userID
   && GoString.le (row_start_date r) to
   && match row_end_date r with
      | None => true
      | Some e => GoString.ge e from
      end
   && (if negb (String.eqb serviceName "") then String.eqb (row_service_name r) serviceName
       else true))%bool.

(** SELECT COALESCE(SUM(price), 0) *)
Definition sum_price (l : list Row) : Z :=
  fold_right (fun r acc => row_price r + acc) 0 l.

(** *** The six operations *)

Definition Create (sub : Subscription) (db : Table) : run (error * Subscription * Table) :=
  match uuid_Parse (UserID sub) with
  | inr e => Returns (Some ("invalid user_id UUID: " ++ e)%string, sub, db)
  | inl _ =>
      ok <- isValidMonthYear (StartDate sub) ;;
      if negb ok then Returns (Some "start_date must be in MM-YYYY format", sub, db)
      else
        match exec_insert (ServiceName sub) (Price sub) (UserID sub) (StartDate sub)
                          (EndDate sub) db with
        | inl f =>
            Returns (Some ("database insert failed: " ++ error_text pg f)%string, sub, db)
        | inr (id, db') =>
            Returns (None,
                     {| ID := uuid_String id; ServiceName := ServiceName sub;
                        Price := Price sub; UserID := UserID sub;
                        StartDate := StartDate sub; EndDate := EndDate sub |},
                     db')
        end
  end.

Definition GetByID (id : string) (db : Table) : option Subscription * error :=
  match uuid_Parse id with
  | inr _ => (None, Some "invalid subscription ID format")
  | inl parsedID =>
      match find (fun r => uuid_eqb (row_id r) parsedID) db with
      | None => (None, Some "subscription not found")
      | Some r => (Some (scan r), None)
      end
  end.

Definition ListByUserID (userID : string) (db : Table) : list Subscription * error :=
  match uuid_Parse userID with
  | inr e => ([], Some ("invalid user_id UUID: " ++ e)%string)
  | inl _ =>
      match uuid_in pg userID with
      | None =>
          if query_reports pg
          then ([], Some ("database query failed: " ++ error_text pg UuidSyntax)%string)
          else ([], Some ("rows iteration error: " ++ error_text pg UuidSyntax)%string)
      | Some uid =>
          let rows := order_by_start_date_desc
                        (filter (fun r => uuid_eqb (row_user_id r) uid) db) in
          (map scan rows, None)
      end
  end.

Definition Update (id : string) (sub : Subscription) (db : Table) : run (error * Table) :=
  match uuid_Parse id with
  | inr e => Returns (Some ("invalid subscription ID: " ++ e)%string, db)
  | inl parsedID =>
      match uuid_Parse (UserID sub) with
      | inr e => Returns (Some ("invalid user_id UUID: " ++ e)%string, db)
      | inl _ =>
          ok <- isValidMonthYear (StartDate sub) ;;
          if negb ok then Returns (Some "start_date must be in MM-YYYY format", db)
          else
            match exec_update (ServiceName sub) (Price sub) (UserID sub) (StartDate sub)
                              (EndDate sub) parsedID db with
            | inl f =>
                Returns (Some ("database update failed: " ++ error_text pg f)%string, db)
            | inr (rowsAffected, db') =>
                if Nat.eqb rowsAffected 0 then Returns (Some "subscription not found", db')
                else Returns (None, db')
            end
      end
  end.

Definition Delete (id : string) (db : Table) : error * Table :=
  match uuid_Parse id with
  | inr e => (Some ("invalid subscription ID: " ++ e)%string, db)
  | inl parsedID =>
      let '(rowsAffected, db') := exec_delete parsedID db in
      if Nat.eqb rowsAffected 0 then (Some "subscription not found", db')
      else (None, db')
  end.

Definition TotalCost (userID serviceName from to : string) (db : Table) : run (Z * error) :=
  match uuid_Parse userID with
  | inr e => Returns (0, Some ("invalid user_id UUID: " ++ e)%string)
  | inl _ =>
      okFrom <- isValidMonthYear from ;;
      bad <- (if negb okFrom then Returns true
              else okTo <- isValidMonthYear to ;; Returns (negb okTo)) ;;
      if (bad : bool) then Returns (0, Some "dates must be in MM-YYYY format")
      else
        match bind_total_cost userID serviceName from to with
        | inl f =>
            Returns (0, Some ("database aggregation failed: " ++ error_text pg f)%string)
        | inr uid =>
            Returns (sum_price (filter (total_cost_where uid serviceName from to) db), None)
        end
  end.

End WithUUID.

End PostgresSubscriptionRepo.

(** ** repository: the interface SubscriptionRepository

    The state of the store is threaded through every method; a method that
    does not write returns no state. *)

Record SubscriptionRepository (St : Type) : Type := {
  Create : Subscription -> St -> run (error * Subscription * St);
  GetByID : string -> St -> run (option Subscription * error);
  ListByUserID : string -> St -> run (list Subscription * error);
  Update : string -> Subscription -> St -> run (error * St);
  Delete : string -> St -> run (error * St);
  TotalCost : string -> string -> string -> string -> St -> run (Z * error)
}.

(** NewPostgresSubscriptionRepo: the implementation of the interface. *)
Definition NewPostgresSubscriptionRepo (UUID : Type)
    (UUID_eq_dec : forall a b : UUID, {a = b} + {a <> b})
    (uuid_Parse : string -> UUID + string) (uuid_String : UUID -> string)
    (pg : Postgres UUID)
    (gen_random_uuid : list (PostgresSubscriptionRepo.Row UUID) -> UUID)
  : SubscriptionRepository (PostgresSubscriptionRepo.Table UUID) :=
  {| Create := PostgresSubscriptionRepo.Create uuid_Parse uuid_String pg gen_random_uuid;
     GetByID := fun id db =>
       Returns (PostgresSubscriptionRepo.GetByID UUID_eq_dec uuid_Parse uuid_String id db);
     ListByUserID := fun userID db =>
       Returns (PostgresSubscriptionRepo.ListByUserID UUID_eq_dec uuid_Parse uuid_String pg
                  userID db);
     Update := PostgresSubscriptionRepo.Update UUID_eq_dec uuid_Parse pg;
     Delete := fun id db => Returns (PostgresSubscriptionRepo.Delete UUID_eq_dec uuid_Parse id db);
     TotalCost := PostgresSubscriptionRepo.TotalCost UUID_eq_dec uuid_Parse pg |}.

(** ** internal/handler/subscription.go: the handlers that write

    A handler receives the decoded request body ([None] when the JSON does not
    decode) and, for an update, the id taken from the path.  It returns the
    response and the state of the store. *)

Section Handlers.

Variable UUID : Type.
Variable uuid_Parse : string -> UUID + string.
Variable St : Type.
Variable repo : SubscriptionRepository St.

Definition CreateSubscription (decoded : option Subscription) (st : St)
  : run (http.response * St) :=
  match decoded with
  | None => Returns (http.Error "invalid JSON" http.StatusBadRequest, st)
  | Some req =>
      match ValidateSubscriptionInput uuid_Parse
              (ServiceName req) (Price req) (UserID req) (StartDate req) with
      | Some err => Returns (http.Error err http.StatusBadRequest, st)
      | None =>
          rejected <-
            match EndDate req with
            | Some endDate =>
                match ValidatePeriodDate endDate with
                | Some err =>
                    Returns (Some (http.Error ("invalid end_date: " ++ err)
                                              http.StatusBadRequest))
                | None =>
                    ok <- isEndDateAfterOrEqual (StartDate req) endDate ;;
                    if negb ok
                    then Returns (Some (http.Error "end_date must be >= start_date"
                                                   http.StatusBadRequest))
                    else Returns None
                end
            | None => Returns None
            end ;;
          match rejected with
          | Some resp => Returns (resp, st)
          | None =>
              res <- Create repo req st ;;
              let '(err, created, st') := res in
              match err with
              | Some _ =>
                  Returns (http.Error "failed to create subscription"
                                      http.StatusInternalServerError, st')
              | None =>
                  Returns ({| http.status := http.StatusCreated;
                              http.payload := http.JSONSubscription created |}, st')
              end
          end
      end
  end.

Definition UpdateSubscription (id : string) (decoded : option Subscription) (st : St)
  : run (http.response * St) :=
  if String.eqb id "" then
    Returns (http.Error "subscription ID is required" http.StatusBadRequest, st)
  else
  match decoded with
  | None => Returns (http.Error "invalid JSON" http.StatusBadRequest, st)
  | Some req =>
      match ValidateSubscriptionInput uuid_Parse
              (ServiceName req) (Price req) (UserID req) (StartDate req) with
      | Some err => Returns (http.Error err http.StatusBadRequest, st)
      | None =>
          rejected <-
            match EndDate req with
            | Some endDate =>
                match ValidatePeriodDate endDate with
                | Some err =>
                    Returns (Some (http.Error ("invalid end_date: " ++ err)
                                              http.StatusBadRequest))
                | None =>
                    ok <- isEndDateAfterOrEqual (StartDate req) endDate ;;
                    if negb ok
                    then Returns (Some (http.Error "end_date must be >= start_date"
                                                   http.StatusBadRequest))
                    else Returns None
                end
            | None => Returns None
            end ;;
          match rejected with
          | Some resp => Returns (resp, st)
          | None =>
              let req := {| ID := id; ServiceName := ServiceName req; Price := Price req;
                            UserID := UserID req; StartDate := StartDate req;
                            EndDate := EndDate req |} in
              res <- Update repo id req st ;;
              let '(err, st') := res in
              match err with
              | Some msg =>
                  if String.eqb msg "subscription not found"
                  then Returns (http.Error "subscription not found" http.StatusNotFound, st')
                  else Returns (http.Error "failed to update subscription"
                                           http.StatusInternalServerError, st')
              | None =>
                  got <- GetByID repo id st' ;;
                  let '(updated, err) := got in
                  match err with
                  | Some _ =>
                      Returns (http.Error "subscription updated but retrieval failed"
                                          http.StatusInternalServerError, st')
                  | None =>
                      Returns ({| http.status := http.StatusOK;
                                  http.payload := http.Encode updated |}, st')
                  end
              end
          end
      end
  end.

End Handlers.

(** ** An instance of the UUID parameters

    UUIDs as strings of 16 bytes, parsed from and printed to the canonical
    form of 36 bytes xxxxxxxx-xxxx-xxxx-xxxx-xxxxxxxxxxxx.  This is not the
    parser of google/uuid, which also reads three other forms: it is a parser
    of the canonical form only, which serves to run the repository on concrete
    data with canonical ids. *)

Module uuid.

Definition UUID : Type := string.

Definition UUID_eq_dec : forall a b : UUID, {a = b} + {a <> b} := string_dec.

Definition hexval (c : ascii) : option N :=
  let n := N_of_ascii c in
  if ((48 <=? n) && (n <=? 57))%N then Some (n - 48)%N
  else if ((97 <=? n) && (n <=? 102))%N then Some (n - 87)%N
  else if ((65 <=? n) && (n <=? 70))%N then Some (n - 55)%N
  else None.

Definition xtob (x1 x2 : ascii) : option ascii :=
  match hexval x1, hexval x2 with
  | Some h, Some l => Some (ascii_of_N (16 * h + l))
  | _, _ => None
  end.

Definition offsets : list nat :=
  [0; 2; 4; 6; 9; 11; 14; 16; 19; 21; 24; 26; 28; 30; 32; 34]%nat.

Fixpoint decode (s : string) (xs : list nat) : option string :=
  match xs with
  | [] => Some EmptyString
  | x :: xs' =>
      match String.get x s, String.get (S x) s, decode s xs' with
      | Some c1, Some c2, Some bytes =>
          match xtob c1 c2 with
          | Some b => Some (String b bytes)
          | None => None
          end
      | _, _, _ => None
      end
  end.

Definition hyphen_at (s : string) (i : nat) : bool :=
  match String.get i s with
  | Some c => Ascii.eqb c "-"
  | None => false
  end.

Definition ParseCanonical (s : string) : UUID + string :=
  if negb (Nat.eqb (String.length s) 36)
  then inr ("invalid UUID length: "
            ++ NilEmpty.string_of_uint (Nat.to_uint (String.length s)))%string
  else if negb (hyphen_at s 8 && hyphen_at s 13 && hyphen_at s 18 && hyphen_at s 23)
  then inr "invalid UUID format"
  else match decode s offsets with
       | Some u => inl u
       | None => inr "invalid UUID format"
       end.

(** The nil UUID, and uuid.MustParse for literals known to parse (the library
    panics on the others; here they give the nil UUID). *)
Definition Nil : UUID :=
  String zero (String zero (String zero (String zero (String zero (String zero
  (String zero (String zero (String zero (String zero (String zero (String zero
  (String zero (String zero (String zero (String zero EmptyString))))))))))))))).

Definition MustParse (s : string) : UUID :=
  match ParseCanonical s with
  | inl u => u
  | inr _ => Nil
  end.

Definition hexdigit (n : N) : ascii :=
  if (n <? 10)%N then ascii_of_N (48 + n) else ascii_of_N (87 + n).

Fixpoint encode (u : string) (i : nat) : string :=
  match u with
  | EmptyString => EmptyString
  | String b rest =>
      let n := N_of_ascii b in
      let pair := String (hexdigit (n / 16)) (String (hexdigit (n mod 16)) EmptyString) in
      let sep := if (Nat.eqb i 3 || Nat.eqb i 5 || Nat.eqb i 7 || Nat.eqb i 9)%bool
                 then "-" else "" in
      pair ++ sep ++ encode rest (S i)
  end.

Definition String_ (u : UUID) : string := encode u 0.

(** The default of the id column: here the number of rows, as 16 bytes. *)
Definition gen_random_uuid (db : list (PostgresSubscriptionRepo.Row UUID)) : UUID :=
  "000000000000000" ++ String (ascii_of_nat (List.length db)) EmptyString.

End uuid.

(** ** An instance of the database parameters

    A database that reads the canonical form of a UUID, takes as TEXT the
    strings of ASCII bytes other than zero, and reports the refusal of a query
    through rows.Err(), with short messages in the place of those of pgx.  It
    serves to run the repository on the sample data. *)

Module sample_db.

Fixpoint ascii_text (s : string) : bool :=
  match s with
  | EmptyString => true
  | String c rest =>
      ((0 <? GoString.code c) && (GoString.code c <? 128) && ascii_text rest)%bool
  end.

Definition pg : Postgres uuid.UUID :=
  {| uuid_in := fun s => match uuid.ParseCanonical s with
                         | inl u => Some u
                         | inr _ => None
                         end;
     text_in := ascii_text;
     error_text := fun f =>
       match f with
       | Int4OutOfRange => "value is greater than maximum value for int4"
       | TextEncoding => "invalid byte sequence for encoding"
       | UuidSyntax => "invalid input syntax for type uuid"
       | CheckViolation => "violates check constraint"
       end;
     query_reports := false |}.

End sample_db.

(** ** The notions of the specification

    These follow the words of the specification, not the code: the shape
    MM-YYYY, the (year, month) pair of a period and the chronological order. *)

Module Spec.

Definition byte_at (s : string) (i : nat) : ascii :=
  match String.get i s with
  | Some c => c
  | None => zero
  end.

Definition digit_at (s : string) (i : nat) : Z := GoString.digit_val (byte_at s i).

(** Two digits, a hyphen, four digits, and nothing else. *)
Definition shape_MM_YYYY (s : string) : bool :=
  match s with
  | String m1 (String m2 (String h (String y1 (String y2 (String y3 (String y4 EmptyString)))))) =>
      (GoString.is_digit m1 && GoString.is_digit m2 && Ascii.eqb h "-"
       && GoString.is_digit y1 && GoString.is_digit y2
       && GoString.is_digit y3 && GoString.is_digit y4)%bool
  | _ => false
  end.

Definition month_of (s : string) : Z := 10 * digit_at s 0 + digit_at s 1.

Definition year_of (s : string) : Z :=
  1000 * digit_at s 3 + 100 * digit_at s 4 + 10 * digit_at s 5 + digit_at s 6.

(** Section 4.1: the shape MM-YYYY, month in [1,12], year in [1900,2100]. *)
Definition isValidPeriod (s : string) : bool :=
  (shape_MM_YYYY s
   && (1 <=? month_of s) && (month_of s <=? 12)
   && (1900 <=? year_of s) && (year_of s <=? 2100))%bool.

(** [a] is at or before [b]: the order of the pairs (year, month). *)
Definition chrono_le (a b : string) : bool :=
  ((year_of a <? year_of b)
   || ((year_of a =? year_of b) && (month_of a <=? month_of b)))%bool.

(** A list of periods with the later ones first. *)
Fixpoint chrono_descending (l : list string) : bool :=
  match l with
  | a :: tl =>
      match tl with
      | b :: _ => (chrono_le b a && chrono_descending tl)%bool
      | [] => true
      end
  | [] => true
  end.

Section Overlap.
Variable UUID : Type.
Variable UUID_eq_dec : forall a b : UUID, {a = b} + {a <> b}.

(** start_date <= to AND (end_date IS NULL OR end_date >= from), on periods. *)
Definition overlaps (from to : string) (r : PostgresSubscriptionRepo.Row UUID) : bool :=
  (chrono_le (PostgresSubscriptionRepo.row_start_date r) to
   && match PostgresSubscriptionRepo.row_end_date r with
      | None => true
      | Some e => chrono_le from e
      end)%bool.

Definition counted (user : UUID) (serviceName from to : string)
    (r : PostgresSubscriptionRepo.Row UUID) : bool :=
  ((if UUID_eq_dec (PostgresSubscriptionRepo.row_user_id r) user then true else false)
   && overlaps from to r
   && (String.eqb serviceName ""
       || String.eqb (PostgresSubscriptionRepo.row_service_name r) serviceName))%bool.

Definition total_cost (user : UUID) (serviceName from to : string)
    (db : list (PostgresSubscriptionRepo.Row UUID)) : Z :=
  fold_right Z.add 0 (map (@PostgresSubscriptionRepo.row_price UUID)
                          (filter (counted user serviceName from to) db)).
End Overlap.

End Spec.


(** ** Sample data *)

Module Sample.

Definition user : string := "60601fee-2bf1-4721-ae6f-7636e79a0cba".
Definition id1 : string := "0a0a0a0a-0000-4000-8000-000000000001".
Definition id2 : string := "0a0a0a0a-0000-4000-8000-000000000002".
Definition id3 : string := "0a0a0a0a-0000-4000-8000-000000000003".

Definition row (id : string) (price : Z) (startDate : string) (endDate : option string)
  : PostgresSubscriptionRepo.Row uuid.UUID :=
  {| PostgresSubscriptionRepo.row_id := uuid.MustParse id;
     PostgresSubscriptionRepo.row_service_name := "Yandex Plus";
     PostgresSubscriptionRepo.row_price := price;
     PostgresSubscriptionRepo.row_user_id := uuid.MustParse user;
     PostgresSubscriptionRepo.row_start_date := startDate;
     PostgresSubscriptionRepo.row_end_date := endDate |}.

(** Started in June 2024 and still running. *)
Definition open_ended := row id1 400 "06-2024" None.

(** Started in June 2024 and ended in December 2024. *)
Definition ended_2024 := row id2 400 "06-2024" (Some "12-2024").

Definition since_dec_2023 := row id1 100 "12-2023" None.
Definition since_jan_2024 := row id2 200 "01-2024" None.

Definition request : Subscription :=
  {| ID := ""; ServiceName := "Kinopoisk"; Price := 299; UserID := user;
     StartDate := "07-2025"; EndDate := Some "07-2025" |}.

End Sample.

(** ** Auxiliary notions of the proofs *)

(** The database takes the fields of [sub] as the arguments of an INSERT or
    an UPDATE: the price fits an INTEGER, the name, the start date and the end
    date are valid TEXT, and the user id is read as the UUID [uid]. *)
Definition write_accepted (UUID : Type) (pg : Postgres UUID) (sub : Subscription)
    (uid : UUID) : Prop :=
  PostgresSubscriptionRepo.fits_int4 (Price sub) = true
  /\ text_in pg (ServiceName sub) = true
  /\ uuid_in pg (UserID sub) = Some uid
  /\ text_in pg (StartDate sub) = true
  /\ forall e, EndDate sub = Some e -> text_in pg e = true.

(** The database takes the arguments of the query of TotalCost: the user id
    is read as the UUID [uid], the two periods are valid TEXT, and so is the
    service name when there is one. *)
Definition query_accepted (UUID : Type) (pg : Postgres UUID)
    (userID serviceName from to : string) (uid : UUID) : Prop :=
  uuid_in pg userID = Some uid
  /\ text_in pg from = true
  /\ text_in pg to = true
  /\ (serviceName = "" \/ text_in pg serviceName = true).

(** Seven bytes: 0 and a digit from 1 to 9, or 1 and a digit from 0 to 2; a
    hyphen; four digits. *)
Definition period_text (s : string) : Prop :=
  exists m1 m2 y1 y2 y3 y4 : ascii,
    s = String m1 (String m2 (String "-" (String y1 (String y2 (String y3 (String y4 EmptyString))))))
    /\ ((m1 = "0"%char /\ 49 <= GoString.code m2 <= 57)
        \/ (m1 = "1"%char /\ 48 <= GoString.code m2 <= 50))
    /\ GoString.is_digit y1 = true /\ GoString.is_digit y2 = true
    /\ GoString.is_digit y3 = true /\ GoString.is_digit y4 = true.

(** A string of decimal digits and the number it writes, after [n]. *)
Fixpoint all_digits (s : string) : bool :=
  match s with
  | EmptyString => true
  | String c rest => (GoString.is_digit c && all_digits rest)%bool
  end.

Fixpoint digits_val (n : Z) (s : string) : Z :=
  match s with
  | EmptyString => n
  | String c rest => digits_val (n * 10 + GoString.digit_val c) rest
  end.

(** No byte of [s] is a hyphen. *)
Fixpoint hyphen_free (s : string) : bool :=
  match s with
  | EmptyString => true
  | String c rest => (negb (Ascii.eqb c "-") && hyphen_free rest)%bool
  end.

(** A plus sign and one digit from 1 to 9 where the month is expected, then
    the hyphen and a year of four digits within [1900,2100]. *)
Definition signed_month_period (s : string) : bool :=
  match s with
  | String p (String d (String h (String y1 (String y2 (String y3 (String y4 EmptyString)))))) =>
      (Ascii.eqb p "+" && GoString.is_digit d && (1 <=? GoString.digit_val d)
       && Ascii.eqb h "-"
       && GoString.is_digit y1 && GoString.is_digit y2
       && GoString.is_digit y3 && GoString.is_digit y4
       && (1900 <=? Spec.year_of s) && (Spec.year_of s <=? 2100))%bool
  | _ => false
  end.

(** ** strings.Contains *)

Module strings.

(** strings.Contains(s, substr): whether [substr] occurs in [s]. *)
Fixpoint Contains (s substr : string) : bool :=
  if String.prefix substr s then true
  else match s with
       | EmptyString => false
       | String _ rest => Contains rest substr
       end.

End strings.

(** ** internal/handler/subscription.go: the handlers that read and delete

    Their responses carry bodies that the writing handlers have not: a
    subscription that may be a nil pointer, a list, a total, or no body. *)

Module httpjson.

Definition StatusNoContent : Z := 204.

Inductive body : Type :=
| Error (msg : string)
| One (sub : option Subscription)
| Many (subs : list Subscription)
| Total (total : Z)
| NoBody.

Record response : Type := { status : Z; payload : body }.

(** http.Error(w, `{"error": msg}`, code) *)
Definition error_ (msg : string) (code : Z) : response :=
  {| status := code; payload := Error msg |}.

End httpjson.

Section ReadHandlers.

Variable UUID : Type.
Variable uuid_Parse : string -> UUID + string.
Variable St : Type.
Variable repo : SubscriptionRepository St.

(** [id] is the path after the prefix /subscriptions/. *)
Definition GetSubscription (id : string) (st : St) : run httpjson.response :=
  if String.eqb id "" then
    Returns (httpjson.error_ "subscription ID is required" http.StatusBadRequest)
  else
    match uuid_Parse id with
    | inr _ => Returns (httpjson.error_ "invalid subscription ID format" http.StatusBadRequest)
    | inl _ =>
        res <- GetByID repo id st ;;
        let '(sub, err) := res in
        match err with
        | Some msg =>
            if String.eqb msg "subscription not found"
            then Returns (httpjson.error_ "subscription not found" http.StatusNotFound)
            else Returns (httpjson.error_ "internal error" http.StatusInternalServerError)
        | None =>
            Returns {| httpjson.status := http.StatusOK; httpjson.payload := httpjson.One sub |}
        end
    end.

(** [userID] is the query parameter user_id. *)
Definition ListSubscriptions (userID : string) (st : St) : run httpjson.response :=
  if String.eqb userID "" then
    Returns (httpjson.error_ "user_id query parameter is required" http.StatusBadRequest)
  else
    match uuid_Parse userID with
    | inr _ => Returns (httpjson.error_ "user_id must be a valid UUID" http.StatusBadRequest)
    | inl _ =>
        res <- ListByUserID repo userID st ;;
        let '(subs, err) := res in
        match err with
        | Some _ =>
            Returns (httpjson.error_ "failed to list subscriptions"
                                     http.StatusInternalServerError)
        | None =>
            Returns {| httpjson.status := http.StatusOK; httpjson.payload := httpjson.Many subs |}
        end
    end.

Definition DeleteSubscription (id : string) (st : St) : run (httpjson.response * St) :=
  if String.eqb id "" then
    Returns (httpjson.error_ "subscription ID is required" http.StatusBadRequest, st)
  else
    match uuid_Parse id with
    | inr _ =>
        Returns (httpjson.error_ "invalid subscription ID format" http.StatusBadRequest, st)
    | inl _ =>
        res <- Delete repo id st ;;
        let '(err, st') := res in
        match err with
        | Some msg =>
            if String.eqb msg "subscription not found"
            then Returns (httpjson.error_ "subscription not found" http.StatusNotFound, st')
            else Returns (httpjson.error_ "failed to delete subscription"
                                          http.StatusInternalServerError, st')
        | None =>
            Returns ({| httpjson.status := httpjson.StatusNoContent;
                        httpjson.payload := httpjson.NoBody |}, st')
        end
    end.

(** The four arguments are the query parameters user_id, service_name, from
    and to (empty when absent). *)
Definition GetTotalCost (userID serviceName from to : string) (st : St)
  : run httpjson.response :=
  if (String.eqb from "" || String.eqb to "")%bool then
    Returns (httpjson.error_ "'from' and 'to' query parameters are required"
                             http.StatusBadRequest)
  else if String.eqb userID "" then
    Returns (httpjson.error_ "'user_id' is required" http.StatusBadRequest)
  else
    res <- TotalCost repo userID serviceName from to st ;;
    let '(total, err) := res in
    match err with
    | Some msg =>
        if strings.Contains msg "invalid"
        then Returns (httpjson.error_ msg http.StatusBadRequest)
        else Returns (httpjson.error_ "failed to calculate total cost"
                                      http.StatusInternalServerError)
    | None =>
        Returns {| httpjson.status := http.StatusOK; httpjson.payload := httpjson.Total total |}
    end.

End ReadHandlers.

(** A request whose end date is before its start date, one whose start year
    is beyond the range of the repository, and one whose price is beyond the
    range of the column. *)
Module MoreSamples.

Definition ends_before_start : Subscription :=
  {| ID := ""; ServiceName := "Kinopoisk"; Price := 299; UserID := Sample.user;
     StartDate := "07-2025"; EndDate := Some "06-2025" |}.

Definition starts_in_2101 : Subscription :=
  {| ID := ""; ServiceName := "Kinopoisk"; Price := 299; UserID := Sample.user;
     StartDate := "07-2101"; EndDate := None |}.

Definition two_rows : PostgresSubscriptionRepo.Table uuid.UUID :=
  [Sample.open_ended; Sample.ended_2024].

(** A request that passes every check of the handlers and of the repository,
    with a price that a Go int holds and an INTEGER column does not. *)
Definition beyond_int4 : Subscription :=
  {| ID := ""; ServiceName := "Kinopoisk"; Price := 2147483648; UserID := Sample.user;
     StartDate := "07-2025"; EndDate := None |}.

End MoreSamples.

(** ** Further notions of the proofs *)

(** [a] is at or before [b] when the month is compared first and the year
    second: the order of the pairs (month, year). *)
Definition month_first_le (a b : string) : bool :=
  ((Spec.month_of a <? Spec.month_of b)
   || ((Spec.month_of a =? Spec.month_of b) && (Spec.year_of a <=? Spec.year_of b)))%bool.

(** The year of a period lies in the range of the repository check. *)
Definition year_in_range (s : string) : bool :=
  ((1900 <=? Spec.year_of s) && (Spec.year_of s <=? 2100))%bool.

(** Every period of the row matches the pattern of the handlers. *)
Definition row_periods_match (UUID : Type) (r : PostgresSubscriptionRepo.Row UUID) : Prop :=
  MatchString monthYearRegex (PostgresSubscriptionRepo.row_start_date r) = true
  /\ forall e, PostgresSubscriptionRepo.row_end_date r = Some e ->
               MatchString monthYearRegex e = true.

(** Decreasing in the order of the pairs (month, year). *)
Definition month_first_ge (UUID : Type) (a b : PostgresSubscriptionRepo.Row UUID) : Prop :=
  month_first_le (PostgresSubscriptionRepo.row_start_date b)
                 (PostgresSubscriptionRepo.row_start_date a) = true.

(** The end date of the request, when there is one, passed both checks of
    the handlers. *)
Definition end_date_accepted (req : Subscription) : Prop :=
  forall e, EndDate req = Some e ->
            MatchString monthYearRegex e = true /\ Spec.chrono_le (StartDate req) e = true.

(** The constraints of the table: the ids are pairwise distinct (PRIMARY
    KEY) and the prices are positive (CHECK). *)
Definition table_ok (UUID : Type) (db : PostgresSubscriptionRepo.Table UUID) : Prop :=
  NoDup (map (@PostgresSubscriptionRepo.row_id UUID) db)
  /\ forall r, In r db -> 0 < PostgresSubscriptionRepo.row_price r.

(** * Properties *)

Unset Implicit Arguments.

(** ** The primitives on small inputs *)

Example Atoi_examples :
  strconv.Atoi "07" = (7, None) /\ strconv.Atoi "+7" = (7, None)
  /\ strconv.Atoi "-7" = (-7, None) /\ strconv.Atoi "2025" = (2025, None)
  /\ strconv.Atoi "7x" = (0, Some strconv.ErrSyntax)
  /\ strconv.Atoi "" = (0, Some strconv.ErrSyntax)
  /\ strconv.Atoi "-" = (0, Some strconv.ErrSyntax)
  /\ strconv.Atoi "9223372036854775807" = (9223372036854775807, None)
  /\ strconv.Atoi "9223372036854775808" = (9223372036854775807, Some strconv.ErrRange)
  /\ strconv.Atoi "-9223372036854775808" = (-9223372036854775808, None)
  /\ strconv.Atoi "-9223372036854775809" = (-9223372036854775808, Some strconv.ErrRange).
Proof. repeat split; vm_compute; reflexivity. Qed.

Example Split_examples :
  GoString.Split "07-2025" "-" = ["07"; "2025"]
  /\ GoString.Split "072025" "-" = ["072025"]
  /\ GoString.Split "" "-" = [""]
  /\ GoString.Split "a-b-" "-" = ["a"; "b"; ""].
Proof. repeat split. Qed.

Example MatchString_examples :
  MatchString monthYearRegex "07-2025" = true
  /\ MatchString monthYearRegex "12-0000" = true
  /\ MatchString monthYearRegex "00-2025" = false
  /\ MatchString monthYearRegex "13-2025" = false
  /\ MatchString monthYearRegex "7-2025" = false
  /\ MatchString monthYearRegex "07-20250" = false
  /\ MatchString monthYearRegex "07/2025" = false.
Proof. repeat split. Qed.

Example isEndDateAfterOrEqual_examples :
  isEndDateAfterOrEqual "07-2025" "07-2025" = Returns true
  /\ isEndDateAfterOrEqual "07-2025" "06-2025" = Returns false
  /\ isEndDateAfterOrEqual "11-2024" "01-2025" = Returns true
  /\ isEndDateAfterOrEqual "07-2025" "062025" = Panics.
Proof. repeat split; vm_compute; reflexivity. Qed.

(** ** Bytes and digits *)

Lemma code_inj (a b : ascii) : GoString.code a = GoString.code b -> a = b.
Proof.
  unfold GoString.code. intros H. apply N2Z.inj in H.
  rewrite <- (ascii_N_embedding a), <- (ascii_N_embedding b). now rewrite H.
Qed.

Lemma is_digit_range (c : ascii) :
  GoString.is_digit c = true <-> 48 <= GoString.code c <= 57.
Proof.
  unfold GoString.is_digit. change (GoString.code "0") with 48.
  change (GoString.code "9") with 57. rewrite andb_true_iff, !Z.leb_le. tauto.
Qed.

Lemma digit_val_range (c : ascii) :
  GoString.is_digit c = true -> 0 <= GoString.digit_val c <= 9.
Proof.
  intros H. apply is_digit_range in H. unfold GoString.digit_val.
  change (GoString.code "0") with 48. lia.
Qed.

Lemma digit_val_inj (a b : ascii) :
  GoString.digit_val a = GoString.digit_val b -> a = b.
Proof. unfold GoString.digit_val. intros H. apply code_inj. lia. Qed.

Lemma in_class_range (lo hi c : ascii) :
  in_class lo hi c = true <-> GoString.code lo <= GoString.code c <= GoString.code hi.
Proof. unfold in_class. rewrite andb_true_iff, !Z.leb_le. tauto. Qed.

Lemma in_class_lit (c x : ascii) : in_class c c x = true <-> x = c.
Proof.
  rewrite in_class_range. split.
  - intros H. apply code_inj. lia.
  - intros ->. lia.
Qed.

Lemma digit_not_sign (c : ascii) :
  GoString.is_digit c = true -> Ascii.eqb c "-" = false /\ Ascii.eqb c "+" = false.
Proof.
  intros H. apply is_digit_range in H.
  split; apply Ascii.eqb_neq; intros ->; vm_compute in H; destruct H as [H1 H2];
    (now apply H1 || now apply H2).
Qed.

(** ** The derivative matcher decides the language *)

Lemma append_empty (s1 s2 : string) : (s1 ++ s2)%string = EmptyString -> s1 = EmptyString /\ s2 = EmptyString.
Proof. destruct s1; simpl; intros H; [now split | discriminate]. Qed.

Lemma nullable_lang (r : regex) : nullable r = true <-> lang r EmptyString.
Proof.
  split.
  - induction r; simpl; intros H; try discriminate.
    + constructor.
    + apply andb_true_iff in H as [H1 H2].
      change EmptyString with (EmptyString ++ EmptyString)%string. constructor; auto.
    + apply orb_true_iff in H as [H | H]; [apply lang_alt_l | apply lang_alt_r]; auto.
  - intros H. remember EmptyString as s eqn:Es.
    induction H; simpl; try discriminate; auto.
    + apply append_empty in Es as [-> ->]. rewrite IHlang1, IHlang2; auto.
    + rewrite IHlang; auto.
    + rewrite IHlang; auto using orb_true_r.
Qed.

Lemma deriv_sound (c : ascii) (r : regex) :
  forall s, lang (deriv c r) s -> lang r (String c s).
Proof.
  induction r; simpl; intros s H.
  - inversion H.
  - inversion H.
  - destruct (in_class lo hi c) eqn:E; inversion H; subst. now constructor.
  - destruct (nullable r1) eqn:N.
    + inversion H; subst.
      * match goal with
        | H' : lang (Seq _ _) _ |- _ => inversion H'; subst
        end.
        change (String c (s1 ++ s2)) with (String c s1 ++ s2)%string.
        constructor; auto.
      * change (String c s) with (EmptyString ++ String c s)%string.
        constructor; auto. now apply nullable_lang.
    + inversion H; subst.
      change (String c (s1 ++ s2)) with (String c s1 ++ s2)%string.
      constructor; auto.
  - inversion H; subst; [apply lang_alt_l | apply lang_alt_r]; auto.
Qed.

Lemma deriv_complete (r : regex) (t : string) :
  lang r t -> forall c s, t = String c s -> lang (deriv c r) s.
Proof.
  induction 1; intros c' s' E; simpl.
  - discriminate.
  - injection E as -> <-. rewrite H. constructor.
  - destruct s1 as [| a s1'].
    + simpl in E. subst s2.
      assert (N : nullable r1 = true) by now apply nullable_lang.
      rewrite N. apply lang_alt_r. now apply IHlang2.
    + simpl in E. injection E as -> <-.
      destruct (nullable r1).
      * apply lang_alt_l. constructor; auto.
      * constructor; auto.
  - apply lang_alt_l. auto.
  - apply lang_alt_r. auto.
Qed.

Lemma matches_lang (s : string) : forall r, matches r s = true <-> lang r s.
Proof.
  induction s as [| c s IH]; intros r; simpl.
  - apply nullable_lang.
  - rewrite IH. split.
    + apply deriv_sound.
    + intros H. now apply deriv_complete with (t := String c s).
Qed.

(** ** What monthYearRegex accepts *)

Ltac invert_lang :=
  repeat match goal with
         | H : lang (Seq _ _) _ |- _ => inversion H; subst; clear H
         | H : lang (Alt _ _) _ |- _ => inversion H; subst; clear H
         | H : lang (Class _ _) _ |- _ => inversion H; subst; clear H
         | H : lang Eps _ |- _ => inversion H; subst; clear H
         end.

Lemma monthYearRegex_period_text (s : string) :
  MatchString monthYearRegex s = true <-> period_text s.
Proof.
  unfold MatchString. rewrite matches_lang. split.
  - intros H. unfold monthYearRegex, Lit in H. cbn [Rep] in H. invert_lang;
      repeat match goal with
             | H : in_class ?c ?c _ = true |- _ => apply in_class_lit in H; subst
             end; simpl;
      do 6 eexists; (split; [reflexivity |]);
      (split; [| repeat split; assumption]).
    + left. split; [reflexivity |].
      match goal with H : in_class "1" "9" _ = true |- _ => apply in_class_range in H; exact H end.
    + right. split; [reflexivity |].
      match goal with H : in_class "0" "2" _ = true |- _ => apply in_class_range in H; exact H end.
  - intros (m1 & m2 & y1 & y2 & y3 & y4 & -> & Hm & H1 & H2 & H3 & H4).
    unfold monthYearRegex, Lit. cbn [Rep].
    change (String m1 (String m2 (String "-" (String y1 (String y2 (String y3 (String y4 EmptyString)))))))
      with ((String m1 EmptyString ++ String m2 EmptyString)
            ++ (String "-" EmptyString
                ++ (String y1 EmptyString ++ (String y2 EmptyString
                    ++ (String y3 EmptyString ++ (String y4 EmptyString ++ EmptyString))))))%string.
    constructor.
    + destruct Hm as [[-> Hm] | [-> Hm]]; [apply lang_alt_l | apply lang_alt_r];
        (constructor; constructor; [now apply in_class_lit | apply in_class_range; exact Hm]).
    + repeat (constructor; try assumption).
Qed.


(** ** strconv.Atoi on short strings of digits *)

Lemma parseUintLoop_digits (s : string) :
  forall n, all_digits s = true -> 0 <= n ->
    (n + 1) * 10 ^ Z.of_nat (String.length s) <= 10 ^ 19 ->
    strconv.parseUintLoop n s = (digits_val n s, None)
    /\ n * 10 ^ Z.of_nat (String.length s) <= digits_val n s
       < (n + 1) * 10 ^ Z.of_nat (String.length s).
Proof.
  induction s as [| c r IH]; intros n Hd Hn Hb.
  - simpl in *. split; [reflexivity | lia].
  - simpl in Hd. apply andb_true_iff in Hd as [Hc Hr].
    pose proof (digit_val_range c Hc) as Hv.
    cbn [String.length] in *. rewrite Nat2Z.inj_succ, Z.pow_succ_r in * by lia.
    set (P := 10 ^ Z.of_nat (String.length r)) in *.
    assert (HP : 0 < P) by (apply Z.pow_pos_nonneg; lia).
    assert (Hn18 : n + 1 <= 10 ^ 18) by (change (10 ^ 19) with (10 * 10 ^ 18) in Hb; nia).
    cbn [strconv.parseUintLoop digits_val]. rewrite Hc.
    change (strconv.maxUint64 / 10 + 1) with 1844674407370955162.
    change strconv.maxUint64 with 18446744073709551615.
    change (10 ^ 18) with 1000000000000000000 in Hn18.
    destruct (n >=? 1844674407370955162) eqn:E1; [apply Z.geb_le in E1; lia |].
    cbv zeta.
    destruct (n * 10 + GoString.digit_val c >? 18446744073709551615) eqn:E2;
      [apply Z.gtb_lt in E2; lia |].
    destruct (IH (n * 10 + GoString.digit_val c) Hr) as [-> Hbd]; [lia | nia |].
    split; [reflexivity | nia].
Qed.

Lemma Atoi_digits (c : ascii) (r : string) :
  all_digits (String c r) = true -> (String.length (String c r) <= 18)%nat ->
  strconv.Atoi (String c r) = (digits_val 0 (String c r), None).
Proof.
  intros Hd Hl.
  assert (Hc : GoString.is_digit c = true)
    by (simpl in Hd; now apply andb_true_iff in Hd as [? _]).
  destruct (digit_not_sign c Hc) as [Hm Hp].
  assert (Hb : (0 + 1) * 10 ^ Z.of_nat (String.length (String c r)) <= 10 ^ 19).
  { rewrite Z.mul_1_l. apply Z.pow_le_mono_r; lia. }
  destruct (parseUintLoop_digits (String c r) 0 Hd (Z.le_refl 0) Hb) as [Hloop Hbd].
  assert (Hv : digits_val 0 (String c r) < 10 ^ 18).
  { apply Z.lt_le_trans with (1 := proj2 Hbd). rewrite Z.mul_1_l.
    apply Z.pow_le_mono_r; lia. }
  unfold strconv.Atoi, strconv.ParseUint. rewrite Hm, Hp. cbn [orb negb andb].
  rewrite Hloop.
  change strconv.cutoff64 with 9223372036854775808.
  change (10 ^ 18) with 1000000000000000000 in Hv.
  destruct (digits_val 0 (String c r) >=? 9223372036854775808) eqn:E;
    [apply Z.geb_le in E; lia | reflexivity].
Qed.

(** ** The two halves of a matching period *)

Lemma period_text_parts (s : string) :
  period_text s ->
  exists mm yyyy : string,
    GoString.Split s "-" = [mm; yyyy]
    /\ strconv.Atoi mm = (Spec.month_of s, None)
    /\ strconv.Atoi yyyy = (Spec.year_of s, None)
    /\ GoString.slice s 0 2 = Returns mm
    /\ GoString.slice s 3 7 = Returns yyyy
    /\ Spec.shape_MM_YYYY s = true
    /\ 1 <= Spec.month_of s <= 12
    /\ 0 <= Spec.year_of s <= 9999.
Proof.
  intros (m1 & m2 & y1 & y2 & y3 & y4 & -> & Hm & H1 & H2 & H3 & H4).
  assert (Hm1 : GoString.is_digit m1 = true) by (destruct Hm as [[-> _] | [-> _]]; reflexivity).
  assert (Hm2 : GoString.is_digit m2 = true) by (apply is_digit_range; lia).
  exists (String m1 (String m2 EmptyString)),
         (String y1 (String y2 (String y3 (String y4 EmptyString)))).
  pose proof (digit_not_sign _ Hm1) as [E1 _]. pose proof (digit_not_sign _ Hm2) as [E2 _].
  pose proof (digit_not_sign _ H1) as [E3 _]. pose proof (digit_not_sign _ H2) as [E4 _].
  pose proof (digit_not_sign _ H3) as [E5 _]. pose proof (digit_not_sign _ H4) as [E6 _].
  pose proof (digit_val_range _ Hm1). pose proof (digit_val_range _ Hm2).
  pose proof (digit_val_range _ H1). pose proof (digit_val_range _ H2).
  pose proof (digit_val_range _ H3). pose proof (digit_val_range _ H4).
  assert (Hmonth : Spec.month_of
            (String m1 (String m2 (String "-" (String y1 (String y2 (String y3 (String y4 EmptyString)))))))
          = 10 * GoString.digit_val m1 + GoString.digit_val m2) by reflexivity.
  assert (Hyear : Spec.year_of
            (String m1 (String m2 (String "-" (String y1 (String y2 (String y3 (String y4 EmptyString)))))))
          = 1000 * GoString.digit_val y1 + 100 * GoString.digit_val y2
            + 10 * GoString.digit_val y3 + GoString.digit_val y4) by reflexivity.
  rewrite Hmonth, Hyear.
  split; [| split; [| split; [| split; [| split; [| split; [| split]]]]]].
  - cbn [GoString.Split]. rewrite E1, E2, E3, E4, E5, E6. reflexivity.
  - rewrite Atoi_digits.
    + f_equal. cbn [digits_val]. lia.
    + cbn [all_digits]. now rewrite Hm1, Hm2.
    + simpl. lia.
  - rewrite Atoi_digits.
    + f_equal. cbn [digits_val]. lia.
    + cbn [all_digits]. now rewrite H1, H2, H3, H4.
    + simpl. lia.
  - reflexivity.
  - reflexivity.
  - cbn [Spec.shape_MM_YYYY]. now rewrite Hm1, Hm2, H1, H2, H3, H4.
  - unfold GoString.digit_val in *. change (GoString.code "0") with 48 in *.
    destruct Hm as [[-> Hr] | [-> Hr]];
      [change (GoString.code "0"%char) with 48 | change (GoString.code "1"%char) with 49]; lia.
  - lia.
Qed.

(** ** isEndDateAfterOrEqual on matching periods *)

Lemma isEndDateAfterOrEqual_periods (a b : string) :
  period_text a -> period_text b ->
  isEndDateAfterOrEqual a b = Returns (Spec.chrono_le a b).
Proof.
  intros Ha Hb.
  destruct (period_text_parts a Ha) as (am & ay & Sa & Am & Ay & _).
  destruct (period_text_parts b Hb) as (bm & by_ & Sb & Bm & By & _).
  unfold isEndDateAfterOrEqual. rewrite Sa, Sb. cbn [GoString.at_ nth_error bind].
  rewrite Am, Ay, Bm, By. cbn [fst]. unfold Spec.chrono_le.
  destruct (Spec.year_of b >? Spec.year_of a) eqn:E1.
  - apply Z.gtb_lt in E1. apply Z.ltb_lt in E1. now rewrite E1.
  - assert (E1' : (Spec.year_of a <? Spec.year_of b) = false).
    { apply Z.ltb_ge. destruct (Z.gtb_spec (Spec.year_of b) (Spec.year_of a)); [discriminate | lia]. }
    rewrite E1'. cbn [orb]. rewrite (Z.eqb_sym (Spec.year_of b)), Z.geb_leb.
    now destruct ((Spec.year_of a =? Spec.year_of b) && (Spec.month_of a <=? Spec.month_of b))%bool.
Qed.

Lemma chrono_le_spec (a b : string) :
  Spec.chrono_le a b = true <->
  Spec.year_of a < Spec.year_of b
  \/ (Spec.year_of a = Spec.year_of b /\ Spec.month_of a <= Spec.month_of b).
Proof.
  unfold Spec.chrono_le.
  rewrite orb_true_iff, andb_true_iff, Z.ltb_lt, Z.eqb_eq, Z.leb_le. tauto.
Qed.

Lemma period_text_same_pair (a b : string) :
  period_text a -> period_text b ->
  Spec.year_of a = Spec.year_of b -> Spec.month_of a = Spec.month_of b -> a = b.
Proof.
  intros (m1 & m2 & y1 & y2 & y3 & y4 & -> & Hm & H1 & H2 & H3 & H4)
         (n1 & n2 & z1 & z2 & z3 & z4 & -> & Hn & K1 & K2 & K3 & K4).
  assert (Hm1 : GoString.is_digit m1 = true) by (destruct Hm as [[-> _] | [-> _]]; reflexivity).
  assert (Hm2 : GoString.is_digit m2 = true) by (apply is_digit_range; lia).
  assert (Hn1 : GoString.is_digit n1 = true) by (destruct Hn as [[-> _] | [-> _]]; reflexivity).
  assert (Hn2 : GoString.is_digit n2 = true) by (apply is_digit_range; lia).
  unfold Spec.year_of, Spec.month_of, Spec.digit_at. cbn [Spec.byte_at String.get].
  repeat match goal with
         | H : GoString.is_digit _ = true |- _ => apply digit_val_range in H
         end.
  intros Ey Em.
  assert (GoString.digit_val m1 = GoString.digit_val n1) by lia.
  assert (GoString.digit_val m2 = GoString.digit_val n2) by lia.
  assert (GoString.digit_val y1 = GoString.digit_val z1) by lia.
  assert (GoString.digit_val y2 = GoString.digit_val z2) by lia.
  assert (GoString.digit_val y3 = GoString.digit_val z3) by lia.
  assert (GoString.digit_val y4 = GoString.digit_val z4) by lia.
  repeat match goal with
         | H : GoString.digit_val _ = GoString.digit_val _ |- _ => apply digit_val_inj in H; subst
         end.
  reflexivity.
Qed.

(** A valid period of the specification matches the pattern of the handlers. *)
Lemma isValidPeriod_matches (s : string) :
  Spec.isValidPeriod s = true -> MatchString monthYearRegex s = true.
Proof.
  unfold Spec.isValidPeriod. rewrite !andb_true_iff, !Z.leb_le.
  intros [[[[Hs Hm1] Hm12] _] _].
  destruct s as [| c1 [| c2 [| c3 [| c4 [| c5 [| c6 [| c7 [| c8 s]]]]]]]]; try discriminate.
  cbn [Spec.shape_MM_YYYY] in Hs. rewrite !andb_true_iff in Hs.
  destruct Hs as [[[[[[D1 D2] Hh] D4] D5] D6] D7].
  apply Ascii.eqb_eq in Hh. subst c3.
  apply monthYearRegex_period_text. exists c1, c2, c4, c5, c6, c7.
  split; [reflexivity |]. split; [| now repeat split].
  unfold Spec.month_of, Spec.digit_at, GoString.digit_val in Hm1, Hm12.
  cbn [Spec.byte_at String.get] in Hm1, Hm12.
  apply is_digit_range in D1, D2. change (GoString.code "0") with 48 in *.
  assert (Hc : GoString.code c1 = 48 \/ GoString.code c1 = 49) by lia.
  destruct Hc as [Hc | Hc].
  - left. split; [apply code_inj; exact Hc | lia].
  - right. split; [apply code_inj; exact Hc | lia].
Qed.

(** C3: on two strings that match the period pattern, isEndDateAfterOrEqual(a, b)
    is true exactly when (year of a, month of a) is at most (year of b, month
    of b) in the lexicographic order, year first; it always returns; and the
    relation it decides is reflexive, total, transitive and antisymmetric on
    matching periods, that is a total order. *)
Theorem isEndDateAfterOrEqual_year_then_month (a b c : string) :
  MatchString monthYearRegex a = true ->
  MatchString monthYearRegex b = true ->
  MatchString monthYearRegex c = true ->
  (isEndDateAfterOrEqual a b = Returns true <->
     (Spec.year_of a < Spec.year_of b
      \/ (Spec.year_of a = Spec.year_of b /\ Spec.month_of a <= Spec.month_of b)))
  /\ (exists r, isEndDateAfterOrEqual a b = Returns r)
  /\ isEndDateAfterOrEqual a a = Returns true
  /\ (isEndDateAfterOrEqual a b = Returns true \/ isEndDateAfterOrEqual b a = Returns true)
  /\ (isEndDateAfterOrEqual a b = Returns true -> isEndDateAfterOrEqual b c = Returns true ->
      isEndDateAfterOrEqual a c = Returns true)
  /\ (isEndDateAfterOrEqual a b = Returns true -> isEndDateAfterOrEqual b a = Returns true ->
      a = b).
Proof.
  intros Ha Hb Hc.
  apply monthYearRegex_period_text in Ha, Hb, Hc.
  assert (R : forall x y, period_text x -> period_text y ->
              (isEndDateAfterOrEqual x y = Returns true <->
               (Spec.year_of x < Spec.year_of y
                \/ (Spec.year_of x = Spec.year_of y /\ Spec.month_of x <= Spec.month_of y)))).
  { intros x y Hx Hy. rewrite (isEndDateAfterOrEqual_periods x y Hx Hy), <- chrono_le_spec.
    split; [intros E; now injection E | intros ->; reflexivity]. }
  split; [apply R; assumption |].
  split; [eexists; apply isEndDateAfterOrEqual_periods; assumption |].
  split; [apply R; [assumption | assumption | lia] |].
  split.
  { destruct (Z.lt_total (Spec.year_of a) (Spec.year_of b)) as [L | [E | G]].
    - left. apply R; auto.
    - destruct (Z.le_ge_cases (Spec.month_of a) (Spec.month_of b)).
      + left. apply R; auto.
      + right. apply R; auto.
    - right. apply R; auto. }
  split.
  - intros Hab Hbc. apply R in Hab; auto. apply R in Hbc; auto. apply R; auto. lia.
  - intros Hab Hba. apply R in Hab; auto. apply R in Hba; auto.
    apply period_text_same_pair; auto; lia.
Qed.

Lemma isEndDateAfterOrEqual_year_then_month_witness :
  isEndDateAfterOrEqual "11-2024" "01-2025" = Returns true
  /\ String.ltb "01-2025" "11-2024" = true.
Proof.
  split; [| reflexivity].
  apply (proj1 (isEndDateAfterOrEqual_year_then_month "11-2024" "01-2025" "03-2025"
                  eq_refl eq_refl eq_refl)).
  left. reflexivity.
Defined.

(** ** strings.Split around the hyphen *)

Lemma Split_nonempty (s : string) (sep : ascii) :
  exists p ps, GoString.Split s sep = p :: ps.
Proof.
  induction s as [| c r (p & ps & IH)]; simpl.
  - eauto.
  - destruct (Ascii.eqb c sep); [eauto |]. rewrite IH. eauto.
Qed.

Lemma Split_hyphen_free (s : string) :
  hyphen_free s = true -> GoString.Split s "-" = [s].
Proof.
  induction s as [| c r IH]; simpl; intros H.
  - reflexivity.
  - apply andb_true_iff in H as [Hc Hr]. apply negb_true_iff in Hc.
    rewrite Hc, (IH Hr). reflexivity.
Qed.

Lemma isEndDateAfterOrEqual_no_hyphen (start end_ : string) :
  hyphen_free start = true \/ hyphen_free end_ = true ->
  isEndDateAfterOrEqual start end_ = Panics.
Proof.
  intros H. unfold isEndDateAfterOrEqual.
  destruct (hyphen_free start) eqn:Hs.
  - rewrite (Split_hyphen_free start Hs). reflexivity.
  - destruct H as [H | He]; [discriminate |].
    rewrite (Split_hyphen_free end_ He).
    destruct (Split_nonempty start "-") as (p & ps & ->).
    destruct ps as [| q qs]; reflexivity.
Qed.

(** ** The validators in front of isEndDateAfterOrEqual *)

Lemma ValidateSubscriptionInput_nil (UUID : Type) (uuid_Parse : string -> UUID + string)
    (serviceName : string) (price : Z) (userID startDate : string) :
  ValidateSubscriptionInput uuid_Parse serviceName price userID startDate = None <->
  serviceName <> "" /\ 0 < price /\ (exists u, uuid_Parse userID = inl u)
  /\ MatchString monthYearRegex startDate = true.
Proof.
  unfold ValidateSubscriptionInput.
  destruct (String.eqb_spec serviceName "") as [E | E].
  { split; [discriminate | intros [H _]; contradiction]. }
  destruct (Z.leb_spec price 0) as [L | L].
  { split; [discriminate | intros (_ & H & _); lia]. }
  destruct (uuid_Parse userID) as [u | msg].
  - destruct (MatchString monthYearRegex startDate); cbn [negb].
    + split; [| reflexivity]. intros _. repeat split; eauto.
    + split; [discriminate | intros (_ & _ & _ & H); discriminate].
  - split; [discriminate | intros (_ & _ & [u H] & _); discriminate].
Qed.

Lemma ValidatePeriodDate_nil (dateStr : string) :
  ValidatePeriodDate dateStr = None <-> MatchString monthYearRegex dateStr = true.
Proof.
  unfold ValidatePeriodDate.
  destruct (MatchString monthYearRegex dateStr); cbn [negb]; split;
    (reflexivity || discriminate || auto).
Qed.

Lemma end_date_gate_returns (start endDate : string) :
  MatchString monthYearRegex start = true ->
  MatchString monthYearRegex endDate = true ->
  isEndDateAfterOrEqual start endDate = Returns (Spec.chrono_le start endDate).
Proof.
  intros Hs He. apply isEndDateAfterOrEqual_periods; now apply monthYearRegex_period_text.
Qed.

Lemma CreateSubscription_no_panic (UUID : Type) (uuid_Parse : string -> UUID + string)
    (St : Type) (repo : SubscriptionRepository St) :
  (forall sub st, Create repo sub st <> Panics) ->
  forall decoded st, CreateSubscription uuid_Parse repo decoded st <> Panics.
Proof.
  intros Hrepo decoded st. unfold CreateSubscription.
  destruct decoded as [req |]; [| discriminate].
  destruct (ValidateSubscriptionInput uuid_Parse (ServiceName req) (Price req)
              (UserID req) (StartDate req)) eqn:V; [discriminate |].
  apply ValidateSubscriptionInput_nil in V as (_ & _ & _ & Hstart).
  assert (Hcreate : (res <- Create repo req st ;;
                     (let '(err, created, st') := res in
                      match err with
                      | Some _ => Returns (http.Error "failed to create subscription"
                                             http.StatusInternalServerError, st')
                      | None => Returns ({| http.status := http.StatusCreated;
                                            http.payload := http.JSONSubscription created |}, st')
                      end)) <> Panics).
  { destruct (Create repo req st) as [[[err created] st'] |] eqn:C.
    - cbn [bind]. destruct err; discriminate.
    - now apply Hrepo in C. }
  destruct (EndDate req) as [endDate |]; [| exact Hcreate].
  destruct (ValidatePeriodDate endDate) eqn:P; [discriminate |].
  apply ValidatePeriodDate_nil in P.
  rewrite (end_date_gate_returns _ _ Hstart P). cbn [bind].
  destruct (Spec.chrono_le (StartDate req) endDate); cbn [negb bind];
    [exact Hcreate | discriminate].
Qed.

Lemma UpdateSubscription_no_panic (UUID : Type) (uuid_Parse : string -> UUID + string)
    (St : Type) (repo : SubscriptionRepository St) :
  (forall id sub st, Update repo id sub st <> Panics) ->
  (forall id st, GetByID repo id st <> Panics) ->
  forall id decoded st, UpdateSubscription uuid_Parse repo id decoded st <> Panics.
Proof.
  intros Hupd Hget id decoded st. unfold UpdateSubscription.
  destruct (String.eqb id ""); [discriminate |].
  destruct decoded as [req |]; [| discriminate].
  destruct (ValidateSubscriptionInput uuid_Parse (ServiceName req) (Price req)
              (UserID req) (StartDate req)) eqn:V; [discriminate |].
  apply ValidateSubscriptionInput_nil in V as (_ & _ & _ & Hstart).
  assert (Hrest :
            (res <- Update repo id
                      {| ID := id; ServiceName := ServiceName req; Price := Price req;
                         UserID := UserID req; StartDate := StartDate req;
                         EndDate := EndDate req |} st ;;
             (let '(err, st') := res in
              match err with
              | Some msg =>
                  if String.eqb msg "subscription not found"
                  then Returns (http.Error "subscription not found" http.StatusNotFound, st')
                  else Returns (http.Error "failed to update subscription"
                                  http.StatusInternalServerError, st')
              | None =>
                  got <- GetByID repo id st' ;;
                  (let '(updated, err0) := got in
                   match err0 with
                   | Some _ =>
                       Returns (http.Error "subscription updated but retrieval failed"
                                  http.StatusInternalServerError, st')
                   | None =>
                       Returns ({| http.status := http.StatusOK;
                                   http.payload := http.Encode updated |}, st')
                   end)
              end)) <> Panics).
  { destruct (Update repo id _ st) as [[err st'] |] eqn:U.
    - cbn [bind]. destruct err as [msg |].
      + destruct (String.eqb msg "subscription not found"); discriminate.
      + destruct (GetByID repo id st') as [[updated [e |]] |] eqn:G; cbn [bind];
          try discriminate. now apply Hget in G.
    - now apply Hupd in U. }
  destruct (EndDate req) as [endDate |] eqn:EE; [| exact Hrest].
  destruct (ValidatePeriodDate endDate) eqn:P; [discriminate |].
  apply ValidatePeriodDate_nil in P.
  rewrite (end_date_gate_returns _ _ Hstart P). cbn [bind].
  destruct (Spec.chrono_le (StartDate req) endDate); cbn [negb bind];
    [exact Hrest | discriminate].
Qed.

(** C10: isEndDateAfterOrEqual returns, with its two Split results of two
    pieces each and its four Atoi calls free of error, whenever both arguments
    match the period pattern; it panics on the out-of-range index as soon as
    one argument has no hyphen; and the handlers reach it only with two
    arguments that ValidateSubscriptionInput and ValidatePeriodDate accepted,
    hence matching, so that neither handler panics (the repository permitting). *)
Theorem isEndDateAfterOrEqual_total_behind_validation :
  (forall start end_ : string,
      MatchString monthYearRegex start = true ->
      MatchString monthYearRegex end_ = true ->
      exists sm sy em ey : string,
        GoString.Split start "-" = [sm; sy]
        /\ GoString.Split end_ "-" = [em; ey]
        /\ snd (strconv.Atoi sy) = None /\ snd (strconv.Atoi sm) = None
        /\ snd (strconv.Atoi ey) = None /\ snd (strconv.Atoi em) = None
        /\ exists r, isEndDateAfterOrEqual start end_ = Returns r)
  /\ (forall start end_ : string,
         hyphen_free start = true \/ hyphen_free end_ = true ->
         isEndDateAfterOrEqual start end_ = Panics)
  /\ (forall (UUID : Type) (uuid_Parse : string -> UUID + string)
             (req : Subscription) (endDate : string),
         ValidateSubscriptionInput uuid_Parse (ServiceName req) (Price req)
           (UserID req) (StartDate req) = None ->
         ValidatePeriodDate endDate = None ->
         MatchString monthYearRegex (StartDate req) = true
         /\ MatchString monthYearRegex endDate = true)
  /\ (forall (UUID : Type) (uuid_Parse : string -> UUID + string)
             (St : Type) (repo : SubscriptionRepository St),
         (forall sub st, Create repo sub st <> Panics) ->
         forall decoded st, CreateSubscription uuid_Parse repo decoded st <> Panics)
  /\ (forall (UUID : Type) (uuid_Parse : string -> UUID + string)
             (St : Type) (repo : SubscriptionRepository St),
         (forall id sub st, Update repo id sub st <> Panics) ->
         (forall id st, GetByID repo id st <> Panics) ->
         forall id decoded st, UpdateSubscription uuid_Parse repo id decoded st <> Panics).
Proof.
  split; [| split; [| split; [| split]]].
  - intros start end_ Hs He.
    pose proof (end_date_gate_returns _ _ Hs He) as R.
    apply monthYearRegex_period_text in Hs, He.
    destruct (period_text_parts start Hs) as (sm & sy & Ss & Am & Ay & _).
    destruct (period_text_parts end_ He) as (em & ey & Se & Bm & By & _).
    exists sm, sy, em, ey. rewrite Am, Ay, Bm, By. cbn [snd].
    repeat (split; [assumption || reflexivity |]). eauto.
  - apply isEndDateAfterOrEqual_no_hyphen.
  - intros UUID uuid_Parse req endDate V P.
    apply ValidateSubscriptionInput_nil in V as (_ & _ & _ & V).
    apply ValidatePeriodDate_nil in P. now split.
  - apply CreateSubscription_no_panic.
  - apply UpdateSubscription_no_panic.
Qed.

Lemma isEndDateAfterOrEqual_total_behind_validation_witness :
  (exists r, isEndDateAfterOrEqual "07-2025" "06-2025" = Returns r)
  /\ isEndDateAfterOrEqual "072025" "06-2025" = Panics.
Proof.
  split.
  - destruct (proj1 isEndDateAfterOrEqual_total_behind_validation "07-2025" "06-2025"
                eq_refl eq_refl) as (_ & _ & _ & _ & _ & _ & _ & _ & _ & _ & H).
    exact H.
  - apply (proj1 (proj2 isEndDateAfterOrEqual_total_behind_validation)).
    left. reflexivity.
Defined.

(** C4: ValidateSubscriptionInput checks its four rules in order and the first
    failure decides the error: the empty service name, then a price that is
    not positive, then a user id that does not parse, then a start date that
    does not match the period pattern; it returns nil exactly when the four
    rules hold.  A price of 0 is refused and a price of 1 is accepted when the
    other fields are valid. *)
Theorem ValidateSubscriptionInput_first_failure
    (UUID : Type) (uuid_Parse : string -> UUID + string)
    (serviceName : string) (price : Z) (userID startDate : string) :
  (serviceName = "" ->
   ValidateSubscriptionInput uuid_Parse serviceName price userID startDate
   = Some "service_name is required")
  /\ (serviceName <> "" -> price <= 0 ->
      ValidateSubscriptionInput uuid_Parse serviceName price userID startDate
      = Some "price must be a positive integer")
  /\ (serviceName <> "" -> 0 < price -> (forall u, uuid_Parse userID <> inl u) ->
      ValidateSubscriptionInput uuid_Parse serviceName price userID startDate
      = Some "user_id must be a valid UUID")
  /\ (serviceName <> "" -> 0 < price -> (exists u, uuid_Parse userID = inl u) ->
      MatchString monthYearRegex startDate = false ->
      ValidateSubscriptionInput uuid_Parse serviceName price userID startDate
      = Some "start_date must be in MM-YYYY format (e.g., 07-2025)")
  /\ (ValidateSubscriptionInput uuid_Parse serviceName price userID startDate = None <->
      serviceName <> "" /\ 0 < price /\ (exists u, uuid_Parse userID = inl u)
      /\ MatchString monthYearRegex startDate = true)
  /\ ValidateSubscriptionInput uuid_Parse serviceName 0 userID startDate <> None
  /\ (serviceName <> "" -> (exists u, uuid_Parse userID = inl u) ->
      MatchString monthYearRegex startDate = true ->
      ValidateSubscriptionInput uuid_Parse serviceName 1 userID startDate = None).
Proof.
  unfold ValidateSubscriptionInput.
  split; [| split; [| split; [| split; [| split; [| split]]]]].
  - intros ->. reflexivity.
  - intros Hs Hp. apply String.eqb_neq in Hs. rewrite Hs.
    apply Z.leb_le in Hp. now rewrite Hp.
  - intros Hs Hp Hu. apply String.eqb_neq in Hs. rewrite Hs.
    apply Z.leb_gt in Hp. rewrite Hp.
    destruct (uuid_Parse userID) as [u | msg]; [now destruct (Hu u) | reflexivity].
  - intros Hs Hp [u Hu] Hm. apply String.eqb_neq in Hs. rewrite Hs.
    apply Z.leb_gt in Hp. rewrite Hp, Hu, Hm. reflexivity.
  - apply ValidateSubscriptionInput_nil.
  - destruct (String.eqb serviceName ""); discriminate.
  - intros Hs [u Hu] Hm. apply String.eqb_neq in Hs. rewrite Hs, Hu, Hm. reflexivity.
Qed.

Lemma ValidateSubscriptionInput_first_failure_witness :
  ValidateSubscriptionInput uuid.ParseCanonical "Yandex Plus" 1
    "60601fee-2bf1-4721-ae6f-7636e79a0cba" "07-2025" = None
  /\ ValidateSubscriptionInput uuid.ParseCanonical "" 0 "not-a-uuid" "2025-07"
     = Some "service_name is required"
  /\ ValidateSubscriptionInput uuid.ParseCanonical "Yandex Plus" 0 "not-a-uuid" "2025-07"
     = Some "price must be a positive integer".
Proof.
  pose proof (ValidateSubscriptionInput_first_failure uuid.UUID uuid.ParseCanonical "Yandex Plus" 1
                "60601fee-2bf1-4721-ae6f-7636e79a0cba" "07-2025") as H1.
  pose proof (ValidateSubscriptionInput_first_failure uuid.UUID uuid.ParseCanonical "" 0
                "not-a-uuid" "2025-07") as H2.
  pose proof (ValidateSubscriptionInput_first_failure uuid.UUID uuid.ParseCanonical "Yandex Plus" 0
                "not-a-uuid" "2025-07") as H3.
  split; [| split].
  - apply (proj2 (proj2 (proj2 (proj2 (proj2 (proj2 H1)))))).
    + discriminate.
    + eexists. vm_compute. reflexivity.
    + reflexivity.
  - apply (proj1 H2). reflexivity.
  - apply (proj1 (proj2 H3)); [discriminate | lia].
Defined.

(** C8: the period check of the handlers (monthYearRegex) and the one of the
    repository (isValidMonthYear) are different predicates on strings: the
    pattern accepts 07-1850, which the range check refuses because of the
    year, and the range check accepts +7-2025, which the pattern refuses. *)
Theorem period_checks_differ :
  MatchString monthYearRegex "07-1850" = true
  /\ isValidMonthYear "07-1850" = Returns false
  /\ MatchString monthYearRegex "+7-2025" = false
  /\ isValidMonthYear "+7-2025" = Returns true
  /\ ~ (forall s : string, isValidMonthYear s = Returns (MatchString monthYearRegex s))
  /\ exists s : string,
       ValidatePeriodDate s = None /\ isValidMonthYear s = Returns false.
Proof.
  repeat split; try reflexivity.
  - intros H. specialize (H "07-1850"). discriminate.
  - exists "07-1850". split; reflexivity.
Qed.

(** ** strconv.Atoi: what a result without error tells *)

Lemma parseUintLoop_range (s : string) :
  forall n un, strconv.parseUintLoop n s = (un, Some strconv.ErrRange) ->
               un = strconv.maxUint64.
Proof.
  induction s as [| c r IH]; intros n un; cbn [strconv.parseUintLoop].
  - discriminate.
  - destruct (GoString.is_digit c); [| discriminate].
    destruct (n >=? strconv.maxUint64 / 10 + 1); [intros E; now injection E |].
    cbv zeta.
    destruct (n * 10 + GoString.digit_val c >? strconv.maxUint64);
      [intros E; now injection E | apply IH].
Qed.

Lemma parseUintLoop_nil (s : string) :
  forall n un, strconv.parseUintLoop n s = (un, None) -> all_digits s = true.
Proof.
  induction s as [| c r IH]; intros n un; cbn [strconv.parseUintLoop all_digits].
  - reflexivity.
  - destruct (GoString.is_digit c); [| discriminate].
    destruct (n >=? strconv.maxUint64 / 10 + 1); [discriminate |].
    cbv zeta.
    destruct (n * 10 + GoString.digit_val c >? strconv.maxUint64); [discriminate | apply IH].
Qed.

Lemma parseUintLoop_short (s : string) :
  (String.length s <= 18)%nat -> all_digits s = true ->
  strconv.parseUintLoop 0 s = (digits_val 0 s, None)
  /\ 0 <= digits_val 0 s < 10 ^ Z.of_nat (String.length s).
Proof.
  intros Hl Hd.
  assert (Hb : (0 + 1) * 10 ^ Z.of_nat (String.length s) <= 10 ^ 19).
  { rewrite Z.mul_1_l. apply Z.pow_le_mono_r; lia. }
  destruct (parseUintLoop_digits s 0 Hd (Z.le_refl 0) Hb) as [E B].
  split; [exact E | lia].
Qed.

Lemma ParseUint_outcome (s : string) (un : Z) (e : option strconv.NumError) :
  strconv.ParseUint s = (un, e) ->
  e = Some strconv.ErrSyntax
  \/ (e = Some strconv.ErrRange /\ un = strconv.maxUint64)
  \/ (e = None /\ s <> EmptyString /\ all_digits s = true).
Proof.
  destruct s as [| c r]; cbn [strconv.ParseUint].
  - intros E. injection E as _ <-. now left.
  - intros E. destruct e as [[|] |].
    + now left.
    + right. left. split; [reflexivity |]. eapply parseUintLoop_range; eauto.
    + right. right. repeat split; [discriminate |]. eapply parseUintLoop_nil; eauto.
Qed.

Lemma Atoi_nil_short (s : string) (v : Z) :
  strconv.Atoi s = (v, None) -> (String.length s <= 18)%nat ->
  (all_digits s = true /\ s <> EmptyString /\ v = digits_val 0 s)
  \/ (exists r, s = String "+" r /\ r <> EmptyString /\ all_digits r = true
                /\ v = digits_val 0 r)
  \/ (exists r, s = String "-" r /\ v <= 0).
Proof.
  destruct s as [| c r]; cbn [strconv.Atoi]; [discriminate |].
  intros E Hl.
  set (body := if (Ascii.eqb c "+" || Ascii.eqb c "-")%bool then r else String c r) in E.
  assert (Hbl : (String.length body <= 18)%nat).
  { subst body. destruct (Ascii.eqb c "+" || Ascii.eqb c "-")%bool; simpl in *; lia. }
  destruct (strconv.ParseUint body) as [un e] eqn:P.
  destruct (ParseUint_outcome body un e P) as [-> | [[-> ->] | (-> & Hne & Hd)]].
  - discriminate.
  - change strconv.maxUint64 with 18446744073709551615 in E.
    change strconv.cutoff64 with 9223372036854775808 in E.
    destruct (Ascii.eqb c "-"); cbn in E; discriminate.
  - destruct (parseUintLoop_short body Hbl Hd) as [L B].
    assert (Hun : un = digits_val 0 body).
    { destruct body; [contradiction |]. cbn [strconv.ParseUint] in P. congruence. }
    assert (B18 : digits_val 0 body < 10 ^ 18).
    { apply Z.lt_le_trans with (1 := proj2 B). apply Z.pow_le_mono_r; lia. }
    change (10 ^ 18) with 1000000000000000000 in B18.
    change strconv.cutoff64 with 9223372036854775808 in E.
    destruct (Ascii.eqb_spec c "-") as [-> | Hm].
    + right. right. exists r. split; [reflexivity |].
      cbn [negb andb] in E.
      destruct (un >? 9223372036854775808); [discriminate |]. injection E as <-.
      subst body. cbn [Ascii.eqb orb] in *. change (("-" =? "+")%char || true)%bool with true in *.
      lia.
    + cbn [negb andb] in E.
      destruct (un >=? 9223372036854775808); [discriminate |]. injection E as <-.
      destruct (Ascii.eqb_spec c "+") as [-> | Hp].
      * right. left. exists r. subst body. cbn [orb] in *. auto.
      * left. subst body. cbn [orb] in *. repeat split; [assumption | discriminate | assumption].
Qed.

Lemma Atoi_plus_digit (d : ascii) :
  GoString.is_digit d = true ->
  strconv.Atoi (String "+" (String d EmptyString)) = (GoString.digit_val d, None).
Proof.
  intros Hd. pose proof (digit_val_range d Hd) as R.
  assert (Hall : all_digits (String d EmptyString) = true)
    by (cbn [all_digits]; now rewrite Hd).
  assert (Hlen : (String.length (String d EmptyString) <= 18)%nat) by (simpl; lia).
  destruct (parseUintLoop_short (String d EmptyString) Hlen Hall) as [L _].
  cbn [digits_val] in L. rewrite Z.mul_0_l, Z.add_0_l in L.
  unfold strconv.Atoi.
  change (("+" =? "+")%char || ("+" =? "-")%char)%bool with true.
  change ("+" =? "-")%char with false.
  cbv iota zeta. unfold strconv.ParseUint. rewrite L.
  change strconv.cutoff64 with 9223372036854775808. cbn [negb andb].
  destruct (GoString.digit_val d >=? 9223372036854775808) eqn:E2;
    [apply Z.geb_le in E2; lia | reflexivity].
Qed.

(** ** isValidMonthYear *)

Lemma isValidMonthYear_seven (c1 c2 c3 c4 c5 c6 c7 : ascii) :
  isValidMonthYear
    (String c1 (String c2 (String c3 (String c4 (String c5 (String c6 (String c7 EmptyString)))))))
  = if negb (Ascii.eqb c3 "-") then Returns false
    else
      let '(month, err1) := strconv.Atoi (String c1 (String c2 EmptyString)) in
      let '(year, err2) :=
        strconv.Atoi (String c4 (String c5 (String c6 (String c7 EmptyString)))) in
      if (isErr err1 || isErr err2)%bool then Returns false
      else Returns ((month >=? 1) && (month <=? 12) && (year >=? 1900) && (year <=? 2100))%bool.
Proof. reflexivity. Qed.

Lemma isValidMonthYear_returns (s : string) : exists b, isValidMonthYear s = Returns b.
Proof.
  destruct (Nat.eqb (String.length s) 7) eqn:L.
  - apply Nat.eqb_eq in L.
    destruct s as [| c1 [| c2 [| c3 [| c4 [| c5 [| c6 [| c7 [| c8 s]]]]]]]]; try discriminate.
    rewrite isValidMonthYear_seven.
    destruct (negb (Ascii.eqb c3 "-")); [eauto |].
    destruct (strconv.Atoi (String c1 (String c2 EmptyString))) as [month err1].
    destruct (strconv.Atoi (String c4 (String c5 (String c6 (String c7 EmptyString)))))
      as [year err2].
    destruct (isErr err1 || isErr err2)%bool; eauto.
  - unfold isValidMonthYear. rewrite L. cbn [negb]. eauto.
Qed.

Lemma isValidMonthYear_true_length (s : string) :
  isValidMonthYear s = Returns true -> String.length s = 7%nat.
Proof.
  unfold isValidMonthYear.
  destruct (Nat.eqb_spec (String.length s) 7) as [E | E]; cbn [negb]; [auto | discriminate].
Qed.

(** What the repository check accepts, exactly: the valid periods of the
    specification, and the strings whose month is written with a plus sign. *)
Lemma isValidMonthYear_exact (s : string) :
  isValidMonthYear s = Returns true <->
  Spec.isValidPeriod s = true \/ signed_month_period s = true.
Proof.
  split.
  - intros H. pose proof (isValidMonthYear_true_length s H) as L.
    destruct s as [| c1 [| c2 [| c3 [| c4 [| c5 [| c6 [| c7 [| c8 s]]]]]]]]; try discriminate.
    rewrite isValidMonthYear_seven in H.
    destruct (Ascii.eqb_spec c3 "-") as [-> | ]; cbn [negb] in H; [| discriminate].
    destruct (strconv.Atoi (String c1 (String c2 EmptyString))) as [month err1] eqn:Am.
    destruct (strconv.Atoi (String c4 (String c5 (String c6 (String c7 EmptyString)))))
      as [year err2] eqn:Ay.
    destruct err1; [discriminate |]. destruct err2; [discriminate |]. cbn [isErr orb] in H.
    injection H as H. rewrite !andb_true_iff, !Z.geb_le, !Z.leb_le in H.
    destruct H as [[[Hm1 Hm12] Hy1] Hy2].
    apply Atoi_nil_short in Ay; [| simpl; lia].
    assert (Hyd : all_digits (String c4 (String c5 (String c6 (String c7 EmptyString)))) = true
                  /\ year = digits_val 0 (String c4 (String c5 (String c6 (String c7 EmptyString))))).
    { destruct Ay as [(Hd & _ & Hv) | [(r & Er & _ & Hd & Hv) | (r & _ & Hv)]].
      - now split.
      - injection Er as -> <-.
        assert (Hlen : (String.length (String c5 (String c6 (String c7 EmptyString))) <= 18)%nat)
          by (simpl; lia).
        destruct (parseUintLoop_short _ Hlen Hd) as [_ B].
        change (10 ^ Z.of_nat (String.length (String c5 (String c6 (String c7 EmptyString)))))
          with 1000 in B. lia.
      - lia. }
    destruct Hyd as [Hyd Hyv].
    cbn [all_digits] in Hyd. rewrite !andb_true_iff in Hyd.
    destruct Hyd as (D4 & D5 & D6 & D7 & _).
    assert (Hyear : Spec.year_of
              (String c1 (String c2 (String "-" (String c4 (String c5 (String c6 (String c7 EmptyString)))))))
            = year).
    { rewrite Hyv. unfold Spec.year_of, Spec.digit_at. cbn [Spec.byte_at String.get digits_val]. lia. }
    apply Atoi_nil_short in Am; [| simpl; lia].
    destruct Am as [(Hd & _ & Hv) | [(r & Er & _ & Hd & Hv) | (r & _ & Hv)]].
    + left. cbn [all_digits] in Hd. rewrite !andb_true_iff in Hd. destruct Hd as (D1 & D2 & _).
      unfold Spec.isValidPeriod. rewrite Hyear.
      assert (Hmonth : Spec.month_of
                (String c1 (String c2 (String "-" (String c4 (String c5 (String c6 (String c7 EmptyString)))))))
              = month).
      { rewrite Hv. unfold Spec.month_of, Spec.digit_at. cbn [Spec.byte_at String.get digits_val]. lia. }
      rewrite Hmonth. cbn [Spec.shape_MM_YYYY]. rewrite D1, D2, D4, D5, D6, D7.
      change ("-" =? "-")%char with true. cbn [andb].
      rewrite !andb_true_iff, !Z.leb_le. lia.
    + right. injection Er as -> <-. cbn [all_digits] in Hd. rewrite !andb_true_iff in Hd.
      destruct Hd as (D2 & _). cbn [digits_val] in Hv.
      unfold signed_month_period. rewrite Hyear, D2, D4, D5, D6, D7.
      change ("+" =? "+")%char with true. change ("-" =? "-")%char with true. cbn [andb].
      rewrite !andb_true_iff, !Z.leb_le. lia.
    + lia.
  - intros [H | H].
    + unfold Spec.isValidPeriod in H. rewrite !andb_true_iff, !Z.leb_le in H.
      destruct H as [[[[Hs Hm1] Hm12] Hy1] Hy2].
      destruct s as [| c1 [| c2 [| c3 [| c4 [| c5 [| c6 [| c7 [| c8 s]]]]]]]]; try discriminate.
      cbn [Spec.shape_MM_YYYY] in Hs. rewrite !andb_true_iff in Hs.
      destruct Hs as [[[[[[D1 D2] Hh] D4] D5] D6] D7].
      apply Ascii.eqb_eq in Hh. subst c3.
      rewrite isValidMonthYear_seven. change ("-" =? "-")%char with true. cbn [negb].
      rewrite !Atoi_digits; try (simpl; lia);
        try (cbn [all_digits]; now rewrite ?D1, ?D2, ?D4, ?D5, ?D6, ?D7).
      cbn [isErr orb]. f_equal.
      unfold Spec.month_of, Spec.year_of, Spec.digit_at in *.
      cbn [Spec.byte_at String.get digits_val] in *.
      rewrite !andb_true_iff, !Z.geb_le, !Z.leb_le. lia.
    + destruct s as [| c1 [| c2 [| c3 [| c4 [| c5 [| c6 [| c7 [| c8 s]]]]]]]]; try discriminate.
      unfold signed_month_period in H. rewrite !andb_true_iff, !Z.leb_le in H.
      destruct H as [[[[[[[[[Hp D2] Hd1] Hh] D4] D5] D6] D7] Hy1] Hy2].
      apply Ascii.eqb_eq in Hp, Hh. subst c1 c3.
      rewrite isValidMonthYear_seven. change ("-" =? "-")%char with true. cbn [negb].
      rewrite (Atoi_plus_digit c2 D2).
      rewrite Atoi_digits; try (simpl; lia);
        try (cbn [all_digits]; now rewrite ?D4, ?D5, ?D6, ?D7).
      cbn [isErr orb]. f_equal.
      pose proof (digit_val_range c2 D2).
      unfold Spec.year_of, Spec.digit_at in *.
      cbn [Spec.byte_at String.get digits_val] in *.
      rewrite !andb_true_iff, !Z.geb_le, !Z.leb_le. lia.
Qed.

(** C2 (where the code departs from it): isValidMonthYear accepts +7-2025,
    seven bytes with a hyphen in third place whose month part strconv.Atoi
    reads as 7, although the string has not the shape MM-YYYY.  The rest of
    the claim holds: the function never fails, it accepts every string of the
    shape MM-YYYY with month in [1,12] and year in [1900,2100], and it answers
    as stated on 07-2025, 13-2025, 7-2025 and 07-1850. *)
Theorem isValidMonthYear_accepts_signed_month :
  isValidMonthYear "+7-2025" = Returns true
  /\ Spec.isValidPeriod "+7-2025" = false
  /\ (forall s, exists b, isValidMonthYear s = Returns b)
  /\ (forall s, Spec.isValidPeriod s = true -> isValidMonthYear s = Returns true)
  /\ isValidMonthYear "07-2025" = Returns true
  /\ isValidMonthYear "13-2025" = Returns false
  /\ isValidMonthYear "7-2025" = Returns false
  /\ isValidMonthYear "07-1850" = Returns false.
Proof.
  repeat split; try reflexivity.
  - apply isValidMonthYear_returns.
  - intros s H. apply isValidMonthYear_exact. now left.
Qed.

(** ** The repository *)

Section RepositoryProperties.

Variable UUID : Type.
Variable UUID_eq_dec : forall a b : UUID, {a = b} + {a <> b}.
Variable uuid_Parse : string -> UUID + string.
Variable uuid_String : UUID -> string.
Variable pg : Postgres UUID.

Import PostgresSubscriptionRepo.

Local Notation "'Row'" := (PostgresSubscriptionRepo.Row UUID).
Local Notation "'Table'" := (PostgresSubscriptionRepo.Table UUID).
Local Notation "'hit' id" := (fun r : Row => uuid_eqb UUID_eq_dec (row_id r) id)
  (at level 10, id at level 9).

Lemma uuid_eqb_eq (a b : UUID) : uuid_eqb UUID_eq_dec a b = true <-> a = b.
Proof. unfold uuid_eqb. destruct (UUID_eq_dec a b); split; congruence. Qed.

Lemma uuid_eqb_neq (a b : UUID) : uuid_eqb UUID_eq_dec a b = false <-> a <> b.
Proof. unfold uuid_eqb. destruct (UUID_eq_dec a b); split; congruence. Qed.

Lemma filter_nothing (A : Type) (f : A -> bool) (l : list A) :
  (forall x, In x l -> f x = false) -> filter f l = [].
Proof.
  induction l as [| x l IH]; intros H; simpl; [reflexivity |].
  rewrite (H x (or_introl eq_refl)). apply IH. intros y Hy. apply H. now right.
Qed.

Lemma map_untouched (A : Type) (f : A -> bool) (g : A -> A) (l : list A) :
  (forall x, In x l -> f x = false) -> map (fun x => if f x then g x else x) l = l.
Proof.
  induction l as [| x l IH]; intros H; simpl; [reflexivity |].
  rewrite (H x (or_introl eq_refl)). f_equal. apply IH. intros y Hy. apply H. now right.
Qed.

Lemma filter_twice_negb (A : Type) (f : A -> bool) (l : list A) :
  filter f (filter (fun x => negb (f x)) l) = []
  /\ filter (fun x => negb (f x)) (filter (fun x => negb (f x)) l)
     = filter (fun x => negb (f x)) l.
Proof.
  split.
  - apply filter_nothing. intros x Hx. apply filter_In in Hx as [_ Hx].
    now apply negb_true_iff in Hx.
  - apply forallb_filter_id, forallb_filter.
Qed.

(** *** ORDER BY start_date DESC is a sort by the byte-wise order *)

Lemma insert_desc_perm (r : Row) (l : list Row) : Permutation (insert_desc r l) (r :: l).
Proof.
  induction l as [| x l IH]; simpl; [apply Permutation_refl |].
  destruct (GoString.ge (row_start_date r) (row_start_date x)).
  - apply Permutation_refl.
  - apply perm_trans with (x :: r :: l); [now apply perm_skip | apply perm_swap].
Qed.

Lemma order_by_start_date_desc_perm (l : list Row) :
  Permutation (order_by_start_date_desc l) l.
Proof.
  induction l as [| r l IH]; simpl; [constructor |].
  apply perm_trans with (r :: order_by_start_date_desc l);
    [apply insert_desc_perm | now apply perm_skip].
Qed.

Lemma insert_desc_sorted (r : Row) (l : list Row) :
  Sorted (@text_ge UUID) l -> Sorted (@text_ge UUID) (insert_desc r l).
Proof.
  induction l as [| x l IH]; intros Hs; simpl.
  - repeat constructor.
  - destruct (GoString.ge (row_start_date r) (row_start_date x)) eqn:E.
    + constructor; [assumption | constructor; exact E].
    + assert (Hxr : text_ge x r).
      { unfold text_ge, GoString.ge in *.
        destruct (String.leb_total (row_start_date r) (row_start_date x)) as [H | H];
          [exact H | congruence]. }
      inversion Hs as [| ? ? Hl Hhd]; subst.
      constructor; [now apply IH |].
      destruct l as [| y l]; simpl.
      * constructor. exact Hxr.
      * destruct (GoString.ge (row_start_date r) (row_start_date y)).
        -- constructor. exact Hxr.
        -- inversion Hhd; subst. now constructor.
Qed.

Lemma order_by_start_date_desc_sorted (l : list Row) :
  Sorted (@text_ge UUID) (order_by_start_date_desc l).
Proof.
  induction l as [| r l IH]; simpl; [constructor | now apply insert_desc_sorted].
Qed.

(** ListByUserID returns the rows of the user, all of them and no other, in
    decreasing byte-wise order of start_date. *)
Lemma ListByUserID_rows (userID : string) (uid : UUID) (db : Table) :
  (exists u, uuid_Parse userID = inl u) ->
  uuid_in pg userID = Some uid ->
  exists rows : list Row,
    ListByUserID UUID_eq_dec uuid_Parse uuid_String pg userID db
    = (map (scan uuid_String) rows, None)
    /\ Permutation rows (filter (fun r => uuid_eqb UUID_eq_dec (row_user_id r) uid) db)
    /\ Sorted (@text_ge UUID) rows.
Proof.
  intros [u Hp] Hin. unfold ListByUserID. rewrite Hp, Hin. eexists. split; [reflexivity |].
  split; [apply order_by_start_date_desc_perm | apply order_by_start_date_desc_sorted].
Qed.

(** *** What the database accepts *)

Lemma bind_row_accepted (sub : Subscription) (uid : UUID) :
  write_accepted pg sub uid <->
  bind_row pg (ServiceName sub) (Price sub) (UserID sub) (StartDate sub) (EndDate sub)
  = inr uid.
Proof.
  unfold write_accepted, bind_row. split.
  - intros (H1 & H2 & H3 & H4 & H5). rewrite H1, H2, H3, H4. cbn [negb].
    destruct (EndDate sub) as [e |]; [| reflexivity]. now rewrite (H5 e eq_refl).
  - destruct (fits_int4 (Price sub)); cbn [negb]; [| discriminate].
    destruct (text_in pg (ServiceName sub)); cbn [negb]; [| discriminate].
    destruct (uuid_in pg (UserID sub)) as [u |]; [| discriminate].
    destruct (text_in pg (StartDate sub)); cbn [negb]; [| discriminate].
    destruct (EndDate sub) as [e |].
    + destruct (text_in pg e) eqn:E; cbn [negb]; [| discriminate].
      intros H. injection H as ->. repeat split; auto.
      intros e' He. injection He as <-. exact E.
    + intros H. injection H as ->. repeat split; auto. discriminate.
Qed.

Lemma bind_total_cost_accepted (userID serviceName from to : string) (uid : UUID) :
  query_accepted pg userID serviceName from to uid <->
  bind_total_cost pg userID serviceName from to = inr uid.
Proof.
  unfold query_accepted, bind_total_cost. split.
  - intros (H1 & H2 & H3 & H4). rewrite H1, H2, H3. cbn [negb].
    destruct H4 as [-> | H4]; [reflexivity |]. rewrite H4. cbn [negb].
    now rewrite andb_false_r.
  - destruct (uuid_in pg userID) as [u |]; [| discriminate].
    destruct (text_in pg from); cbn [negb]; [| discriminate].
    destruct (text_in pg to); cbn [negb]; [| discriminate].
    destruct (String.eqb_spec serviceName "") as [-> | Hne]; cbn [negb andb].
    + intros H. injection H as ->. repeat split; auto.
    + destruct (text_in pg serviceName); cbn [negb]; [| discriminate].
      intros H. injection H as ->. repeat split; auto.
Qed.

(** *** Update *)


(** When the database does not take the fields, Update stops before it looks
    at the rows affected, whether the id is stored or not. *)
Lemma Update_refused_by_database
    (id : string) (sub : Subscription) (db : Table) (parsedID : UUID) (f : db_failure) :
  uuid_Parse id = inl parsedID ->
  (exists u, uuid_Parse (UserID sub) = inl u) ->
  isValidMonthYear (StartDate sub) = Returns true ->
  bind_row pg (ServiceName sub) (Price sub) (UserID sub) (StartDate sub) (EndDate sub)
  = inl f ->
  Update UUID_eq_dec uuid_Parse pg id sub db
  = Returns (Some ("database update failed: " ++ error_text pg f)%string, db).
Proof.
  intros Hid [u Hu] Hv Hb. unfold Update, exec_update.
  rewrite Hid, Hu, Hv. cbn [bind negb]. now rewrite Hb.
Qed.

(** C9: a successful Update keeps the id of every row, leaves every row with
    another id as it was, and gives the rows of the given id the service
    name, price, user id, start date and end date of the request, the user id
    as the UUID that PostgreSQL reads in the text it is sent; no row is added
    or removed. *)
Theorem Update_success_frame (id : string) (sub : Subscription) (db db' : Table) :
  Update UUID_eq_dec uuid_Parse pg id sub db = Returns (None, db') ->
  exists parsedID uid : UUID,
    uuid_Parse id = inl parsedID
    /\ (exists u, uuid_Parse (UserID sub) = inl u)
    /\ uuid_in pg (UserID sub) = Some uid
    /\ List.length db' = List.length db
    /\ (exists r, In r db /\ row_id r = parsedID)
    /\ forall (i : nat) (r : Row),
         nth_error db i = Some r ->
         exists r' : Row,
           nth_error db' i = Some r'
           /\ row_id r' = row_id r
           /\ (row_id r <> parsedID -> r' = r)
           /\ (row_id r = parsedID ->
               row_service_name r' = ServiceName sub
               /\ row_price r' = Price sub
               /\ row_user_id r' = uid
               /\ row_start_date r' = StartDate sub
               /\ row_end_date r' = EndDate sub).
Proof.
  unfold Update, exec_update.
  destruct (uuid_Parse id) as [parsedID | e] eqn:Hid; [| discriminate].
  destruct (uuid_Parse (UserID sub)) as [u | e] eqn:Hu; [| discriminate].
  destruct (isValidMonthYear_returns (StartDate sub)) as [ok ->]. cbn [bind].
  destruct ok; cbn [negb]; [| discriminate].
  destruct (bind_row pg (ServiceName sub) (Price sub) (UserID sub) (StartDate sub)
              (EndDate sub)) as [f | uid] eqn:B; [discriminate |].
  apply bind_row_accepted in B. destruct B as (_ & _ & Hpg & _).
  destruct (Nat.ltb 0 (List.length (filter (hit parsedID) db)) && (Price sub <=? 0))%bool;
    [discriminate |].
  destruct (Nat.eqb_spec (List.length (filter (hit parsedID) db)) 0) as [E | E];
    [discriminate |].
  intros H. injection H as <-.
  exists parsedID, uid. split; [reflexivity |]. split; [now exists u |].
  split; [exact Hpg |].
  split; [apply length_map |]. split.
  - destruct (filter (hit parsedID) db) as [| r l] eqn:F; [now destruct E |].
    exists r. assert (Hin : In r (filter (hit parsedID) db)) by (rewrite F; now left).
    apply filter_In in Hin as [Hin Hr]. split; [exact Hin | now apply uuid_eqb_eq].
  - intros i r Hi. rewrite nth_error_map, Hi. cbn [option_map].
    eexists. split; [reflexivity |].
    destruct (uuid_eqb UUID_eq_dec (row_id r) parsedID) eqn:Eh.
    + apply uuid_eqb_eq in Eh. cbn. repeat split; auto. intros Hne. contradiction.
    + apply uuid_eqb_neq in Eh. repeat split; auto; contradiction.
Qed.

(** *** Delete *)

(** C7: after a Delete that succeeded, a second Delete of the same id returns
    the error "subscription not found" and leaves the table as the first
    Delete left it. *)
Theorem Delete_twice (id : string) (db db1 : Table) :
  Delete UUID_eq_dec uuid_Parse id db = (None, db1) ->
  Delete UUID_eq_dec uuid_Parse id db1 = (Some "subscription not found", db1).
Proof.
  unfold Delete, exec_delete.
  destruct (uuid_Parse id) as [parsedID | e]; [| discriminate].
  destruct (Nat.eqb (List.length (filter (hit parsedID) db)) 0); [discriminate |].
  intros H. injection H as <-.
  destruct (filter_twice_negb _ (hit parsedID) db) as [-> ->]. reflexivity.
Qed.

(** A first Delete succeeds exactly on an id that parses and is in the table. *)
Lemma Delete_succeeds_iff (id : string) (db : Table) :
  (exists db1, Delete UUID_eq_dec uuid_Parse id db = (None, db1)) <->
  exists parsedID r, uuid_Parse id = inl parsedID /\ In r db /\ row_id r = parsedID.
Proof.
  unfold Delete, exec_delete. split.
  - intros [db1 H]. destruct (uuid_Parse id) as [parsedID | e]; [| discriminate].
    destruct (filter (hit parsedID) db) as [| r l] eqn:F; [discriminate |].
    assert (Hin : In r (filter (hit parsedID) db)) by (rewrite F; now left).
    apply filter_In in Hin as [Hin Hr]. exists parsedID, r. repeat split; auto.
    now apply uuid_eqb_eq.
  - intros (parsedID & r & -> & Hin & Hr).
    assert (Hf : In r (filter (hit parsedID) db)).
    { apply filter_In. split; [exact Hin | now apply uuid_eqb_eq]. }
    destruct (filter (hit parsedID) db); [contradiction |]. eexists. reflexivity.
Qed.

(** *** TotalCost *)

Lemma TotalCost_valid (userID serviceName from to : string) (uid : UUID) (db : Table) :
  (exists u, uuid_Parse userID = inl u) ->
  isValidMonthYear from = Returns true ->
  isValidMonthYear to = Returns true ->
  query_accepted pg userID serviceName from to uid ->
  TotalCost UUID_eq_dec uuid_Parse pg userID serviceName from to db
  = Returns (sum_price (filter (total_cost_where UUID_eq_dec uid serviceName from to) db), None).
Proof.
  intros [u Hu] Hf Ht Hq. apply bind_total_cost_accepted in Hq.
  unfold TotalCost. rewrite Hu, Hf. cbn [bind negb]. rewrite Ht. cbn [bind negb].
  now rewrite Hq.
Qed.

(** No matching row: the total is 0 and there is no error. *)
Lemma TotalCost_no_match (userID serviceName from to : string) (uid : UUID) (db : Table) :
  (exists u, uuid_Parse userID = inl u) ->
  isValidMonthYear from = Returns true ->
  isValidMonthYear to = Returns true ->
  query_accepted pg userID serviceName from to uid ->
  (forall r, In r db -> total_cost_where UUID_eq_dec uid serviceName from to r = false) ->
  TotalCost UUID_eq_dec uuid_Parse pg userID serviceName from to db = Returns (0, None).
Proof.
  intros Hu Hf Ht Hq Hn. rewrite (TotalCost_valid _ _ _ _ uid); auto.
  now rewrite (filter_nothing _ _ db Hn).
Qed.

End RepositoryProperties.

(** ** The repository on sample data *)


Lemma Update_success_frame_witness :
  exists r' : PostgresSubscriptionRepo.Row uuid.UUID,
    nth_error [Sample.open_ended;
               PostgresSubscriptionRepo.set_row "Kinopoisk" 299 (uuid.MustParse Sample.user)
                 "07-2025" (Some "07-2025") Sample.ended_2024] 0 = Some r'
    /\ PostgresSubscriptionRepo.row_id r' = PostgresSubscriptionRepo.row_id Sample.open_ended.
Proof.
  destruct (Update_success_frame uuid.UUID uuid.UUID_eq_dec uuid.ParseCanonical
              sample_db.pg
              Sample.id2 Sample.request [Sample.open_ended; Sample.ended_2024]
              [Sample.open_ended;
               PostgresSubscriptionRepo.set_row "Kinopoisk" 299 (uuid.MustParse Sample.user)
                 "07-2025" (Some "07-2025") Sample.ended_2024]
              eq_refl)
    as (parsedID & uid & _ & _ & _ & _ & _ & H).
  destruct (H 0%nat Sample.open_ended eq_refl) as (r' & Hr & Hid & _).
  exists r'. split; assumption.
Defined.

Lemma Delete_twice_witness :
  PostgresSubscriptionRepo.Delete uuid.UUID_eq_dec uuid.ParseCanonical Sample.id2 [Sample.open_ended]
  = (Some "subscription not found", [Sample.open_ended]).
Proof.
  apply (Delete_twice uuid.UUID uuid.UUID_eq_dec uuid.ParseCanonical
           Sample.id2 [Sample.open_ended; Sample.ended_2024] [Sample.open_ended]).
  reflexivity.
Defined.

(** C1 (where the code departs from it): the WHERE clause compares the
    periods as text.  For from = 01-2025 and to = 12-2025 a subscription that
    started in 06-2024 and ended in 12-2024 is counted, because 12-2024 is not
    below 01-2025 byte-wise, although it ended before the window; the
    chronological sum of the claim is 0.  The open-ended subscription of the
    claim is counted, and an empty selection gives 0 without error. *)
Theorem TotalCost_counts_subscription_ended_before_window :
  PostgresSubscriptionRepo.TotalCost uuid.UUID_eq_dec uuid.ParseCanonical sample_db.pg
    Sample.user "" "01-2025" "12-2025" [Sample.ended_2024] = Returns (400, None)
  /\ Spec.total_cost uuid.UUID_eq_dec (uuid.MustParse Sample.user)
       "" "01-2025" "12-2025" [Sample.ended_2024] = 0
  /\ GoString.ge "12-2024" "01-2025" = true
  /\ Spec.chrono_le "01-2025" "12-2024" = false
  /\ PostgresSubscriptionRepo.TotalCost uuid.UUID_eq_dec uuid.ParseCanonical sample_db.pg
       Sample.user "" "01-2025" "12-2025" [Sample.open_ended] = Returns (400, None)
  /\ PostgresSubscriptionRepo.TotalCost uuid.UUID_eq_dec uuid.ParseCanonical sample_db.pg
       Sample.user "Netflix" "01-2025" "12-2025" [Sample.open_ended; Sample.ended_2024]
     = Returns (0, None).
Proof. repeat split; vm_compute; reflexivity. Qed.

(** C5 (where the code departs from it): ORDER BY start_date DESC orders the
    TEXT column byte-wise.  With one subscription started in 12-2023 and one
    in 01-2024, ListByUserID returns the one of 12-2023 first, although
    01-2024 is the later period.  Both rows of the user are returned. *)
Theorem ListByUserID_orders_periods_as_text :
  PostgresSubscriptionRepo.ListByUserID uuid.UUID_eq_dec uuid.ParseCanonical uuid.String_
      sample_db.pg
    Sample.user [Sample.since_jan_2024; Sample.since_dec_2023]
  = (map (PostgresSubscriptionRepo.scan uuid.String_)
         [Sample.since_dec_2023; Sample.since_jan_2024], None)
  /\ Spec.chrono_descending
       (map StartDate
            (fst (PostgresSubscriptionRepo.ListByUserID uuid.UUID_eq_dec uuid.ParseCanonical uuid.String_
      sample_db.pg
                    Sample.user [Sample.since_jan_2024; Sample.since_dec_2023]))) = false
  /\ Spec.chrono_le "12-2023" "01-2024" = true
  /\ Spec.chrono_le "01-2024" "12-2023" = false
  /\ GoString.ge "12-2023" "01-2024" = true.
Proof. repeat split; vm_compute; reflexivity. Qed.

(** The handlers on the Postgres repository: a valid request is created with
    status 201, and an update of an id that is not stored is answered 404. *)
Example handlers_on_postgres :
  let repo := NewPostgresSubscriptionRepo uuid.UUID_eq_dec uuid.ParseCanonical uuid.String_
                sample_db.pg uuid.gen_random_uuid in
  (exists created st',
      CreateSubscription uuid.ParseCanonical repo (Some Sample.request) [] = Returns
        ({| http.status := http.StatusCreated; http.payload := http.JSONSubscription created |},
         st')
      /\ List.length st' = 1%nat /\ ServiceName created = "Kinopoisk")
  /\ (exists resp,
         UpdateSubscription uuid.ParseCanonical repo Sample.id3 (Some Sample.request)
           [Sample.open_ended] = Returns (resp, [Sample.open_ended])
         /\ http.status resp = http.StatusNotFound).
Proof.
  split.
  - eexists. eexists. split; [vm_compute; reflexivity |]. split; reflexivity.
  - eexists. split; [vm_compute; reflexivity | reflexivity].
Qed.

(** A price beyond the INTEGER column passes every check of the code and is
    refused by the database: Update of an id that is not stored returns that
    error, not "subscription not found", and CreateSubscription answers 500. *)
Example price_beyond_int4 :
  PostgresSubscriptionRepo.Update uuid.UUID_eq_dec uuid.ParseCanonical sample_db.pg
    Sample.id3 MoreSamples.beyond_int4 MoreSamples.two_rows
  = Returns (Some "database update failed: value is greater than maximum value for int4",
             MoreSamples.two_rows)
  /\ CreateSubscription uuid.ParseCanonical
       (NewPostgresSubscriptionRepo uuid.UUID_eq_dec uuid.ParseCanonical uuid.String_
          sample_db.pg uuid.gen_random_uuid)
       (Some MoreSamples.beyond_int4) MoreSamples.two_rows
     = Returns (http.Error "failed to create subscription" http.StatusInternalServerError,
                MoreSamples.two_rows).
Proof. split; vm_compute; reflexivity. Qed.

(** * Further properties *)

(** ** The two period checks *)

Lemma shape_month_period_text (s : string) :
  Spec.shape_MM_YYYY s = true -> 1 <= Spec.month_of s <= 12 -> period_text s.
Proof.
  intros Hs Hm.
  destruct s as [| c1 [| c2 [| c3 [| c4 [| c5 [| c6 [| c7 [| c8 s]]]]]]]]; try discriminate.
  cbn [Spec.shape_MM_YYYY] in Hs. rewrite !andb_true_iff in Hs.
  destruct Hs as [[[[[[D1 D2] Hh] D4] D5] D6] D7].
  apply Ascii.eqb_eq in Hh. subst c3.
  exists c1, c2, c4, c5, c6, c7.
  split; [reflexivity |]. split; [| now repeat split].
  unfold Spec.month_of, Spec.digit_at, GoString.digit_val in Hm.
  cbn [Spec.byte_at String.get] in Hm.
  apply is_digit_range in D1, D2. change (GoString.code "0") with 48 in *.
  assert (Hc : GoString.code c1 = 48 \/ GoString.code c1 = 49) by lia.
  destruct Hc as [Hc | Hc].
  - left. split; [apply code_inj; exact Hc | lia].
  - right. split; [apply code_inj; exact Hc | lia].
Qed.

Lemma bool_eq_iff (a b : bool) : (a = true <-> b = true) -> a = b.
Proof. destruct a, b; intros [H1 H2]; auto; symmetry; auto. Qed.

Lemma MatchString_monthYearRegex (s : string) :
  MatchString monthYearRegex s
  = (Spec.shape_MM_YYYY s && (1 <=? Spec.month_of s) && (Spec.month_of s <=? 12))%bool.
Proof.
  apply bool_eq_iff. rewrite monthYearRegex_period_text, !andb_true_iff, !Z.leb_le. split.
  - intros H. destruct (period_text_parts s H) as (_ & _ & _ & _ & _ & _ & _ & Hs & Hm & _).
    tauto.
  - intros [[Hs H1] H2]. apply shape_month_period_text; auto.
Qed.

(** X2: ValidatePeriodDate returns nil exactly on the strings made of two
    digits, a hyphen and four digits whose two first digits write a month
    from 1 to 12, whatever the year (0000 to 9999); on every other string it
    returns the error "date must be in MM-YYYY format". *)
Theorem ValidatePeriodDate_accepts (dateStr : string) :
  ValidatePeriodDate dateStr
  = if (Spec.shape_MM_YYYY dateStr
        && (1 <=? Spec.month_of dateStr) && (Spec.month_of dateStr <=? 12))%bool
    then None
    else Some "date must be in MM-YYYY format".
Proof.
  unfold ValidatePeriodDate. rewrite MatchString_monthYearRegex.
  now destruct (Spec.shape_MM_YYYY dateStr
                && (1 <=? Spec.month_of dateStr) && (Spec.month_of dateStr <=? 12))%bool.
Qed.

Lemma isValidMonthYear_value (s : string) :
  isValidMonthYear s = Returns (Spec.isValidPeriod s || signed_month_period s)%bool.
Proof.
  destruct (isValidMonthYear_returns s) as [b Hb]. rewrite Hb. f_equal.
  apply bool_eq_iff. rewrite orb_true_iff, <- isValidMonthYear_exact, Hb.
  split; [intros ->; reflexivity | intros E; now injection E].
Qed.

(** X1: isValidMonthYear answers true on the valid periods (two digits, a
    hyphen, four digits, month in [1,12], year in [1900,2100]) and on the
    strings that write the month as a plus sign and one digit from 1 to 9, and
    false on every other string; it never panics. *)
Theorem isValidMonthYear_accepted_set (s : string) :
  isValidMonthYear s = Returns (Spec.isValidPeriod s || signed_month_period s)%bool.
Proof. exact (isValidMonthYear_value s). Qed.

Lemma isValidMonthYear_on_period_text (s : string) :
  period_text s -> isValidMonthYear s = Returns (year_in_range s).
Proof.
  intros H. destruct (period_text_parts s H) as (_ & _ & _ & _ & _ & _ & _ & Hs & Hm & _).
  rewrite isValidMonthYear_value. f_equal.
  assert (Hsigned : signed_month_period s = false).
  { destruct H as (m1 & m2 & y1 & y2 & y3 & y4 & -> & [[-> _] | [-> _]] & _); reflexivity. }
  rewrite Hsigned, orb_false_r. unfold Spec.isValidPeriod, year_in_range.
  rewrite Hs. destruct (Z.leb_spec 1 (Spec.month_of s)); [| lia].
  destruct (Z.leb_spec (Spec.month_of s) 12); [| lia]. reflexivity.
Qed.

(** X4: on a string that the handlers accept (it matches monthYearRegex) the
    repository check isValidMonthYear is the test that the year lies in
    [1900,2100]: the two checks agree exactly on the years of that range. *)
Theorem isValidMonthYear_after_regex (s : string) :
  MatchString monthYearRegex s = true ->
  isValidMonthYear s = Returns (year_in_range s).
Proof.
  intros H. apply isValidMonthYear_on_period_text. now apply monthYearRegex_period_text.
Qed.

Lemma isValidMonthYear_after_regex_witness :
  isValidMonthYear "07-2025" = Returns true /\ isValidMonthYear "07-2101" = Returns false.
Proof.
  split.
  - apply (isValidMonthYear_after_regex "07-2025"). reflexivity.
  - apply (isValidMonthYear_after_regex "07-2101"). reflexivity.
Defined.

(** ** isEndDateAfterOrEqual outside the pattern *)

Lemma Split_with_hyphen (s : string) :
  hyphen_free s = false -> exists p q rest, GoString.Split s "-" = p :: q :: rest.
Proof.
  induction s as [| c r IH]; cbn [hyphen_free GoString.Split]; [discriminate |].
  destruct (Ascii.eqb c "-") eqn:E; cbn [negb andb].
  - intros _. destruct (Split_nonempty r "-") as (q & rest & ->). eauto.
  - intros H. destruct (IH H) as (p & q & rest & ->). eauto.
Qed.

(** X3: isEndDateAfterOrEqual panics exactly when one of its arguments has
    no hyphen; with a hyphen in both it returns, whatever surrounds the
    hyphens (the pieces that are not numbers count as 0). *)
Theorem isEndDateAfterOrEqual_panics_iff (start end_ : string) :
  isEndDateAfterOrEqual start end_ = Panics
  <-> hyphen_free start = true \/ hyphen_free end_ = true.
Proof.
  split; [| apply isEndDateAfterOrEqual_no_hyphen].
  destruct (hyphen_free start) eqn:Hs; [now left |].
  destruct (hyphen_free end_) eqn:He; [now right |].
  destruct (Split_with_hyphen start Hs) as (p & q & rest & Ss).
  destruct (Split_with_hyphen end_ He) as (p' & q' & rest' & Se).
  unfold isEndDateAfterOrEqual. rewrite Ss, Se. cbn [GoString.at_ nth_error bind].
  destruct (fst (strconv.Atoi q') >? fst (strconv.Atoi q)); [discriminate |].
  destruct ((fst (strconv.Atoi q') =? fst (strconv.Atoi q))
            && (fst (strconv.Atoi p') >=? fst (strconv.Atoi p)))%bool; discriminate.
Qed.

Example isEndDateAfterOrEqual_outside_pattern :
  isEndDateAfterOrEqual "ab-cd" "-" = Returns true
  /\ isEndDateAfterOrEqual "07-2025-31" "06-2025-01" = Returns false.
Proof. split; vm_compute; reflexivity. Qed.

(** ** The byte-wise order on periods *)

Lemma le_cons (a b : ascii) (s t : string) :
  GoString.le (String a s) (String b t)
  = if GoString.code a <? GoString.code b then true
    else if GoString.code a =? GoString.code b then GoString.le s t
    else false.
Proof.
  unfold GoString.le, String.leb. cbn [String.compare]. unfold Ascii.compare, GoString.code.
  destruct (N.compare_spec (N_of_ascii a) (N_of_ascii b)) as [E | L | G].
  - rewrite E, Z.ltb_irrefl, Z.eqb_refl. reflexivity.
  - destruct (Z.ltb_spec (Z.of_N (N_of_ascii a)) (Z.of_N (N_of_ascii b))); [reflexivity | lia].
  - destruct (Z.ltb_spec (Z.of_N (N_of_ascii a)) (Z.of_N (N_of_ascii b))); [lia |].
    destruct (Z.eqb_spec (Z.of_N (N_of_ascii a)) (Z.of_N (N_of_ascii b))); [lia | reflexivity].
Qed.

Lemma month_first_le_spec (a b : string) :
  month_first_le a b = true <->
  Spec.month_of a < Spec.month_of b
  \/ (Spec.month_of a = Spec.month_of b /\ Spec.year_of a <= Spec.year_of b).
Proof.
  unfold month_first_le.
  rewrite orb_true_iff, andb_true_iff, Z.ltb_lt, Z.eqb_eq, Z.leb_le. tauto.
Qed.

Lemma period_text_digits (s : string) :
  period_text s ->
  exists m1 m2 y1 y2 y3 y4 : ascii,
    s = String m1 (String m2 (String "-" (String y1 (String y2 (String y3 (String y4 EmptyString))))))
    /\ 0 <= GoString.digit_val m1 <= 9 /\ 0 <= GoString.digit_val m2 <= 9
    /\ 0 <= GoString.digit_val y1 <= 9 /\ 0 <= GoString.digit_val y2 <= 9
    /\ 0 <= GoString.digit_val y3 <= 9 /\ 0 <= GoString.digit_val y4 <= 9.
Proof.
  intros (m1 & m2 & y1 & y2 & y3 & y4 & -> & Hm & H1 & H2 & H3 & H4).
  assert (Hm1 : GoString.is_digit m1 = true) by (destruct Hm as [[-> _] | [-> _]]; reflexivity).
  assert (Hm2 : GoString.is_digit m2 = true) by (apply is_digit_range; lia).
  exists m1, m2, y1, y2, y3, y4. split; [reflexivity |].
  repeat split; now apply digit_val_range.
Qed.

Lemma le_month_first (a b : string) :
  period_text a -> period_text b -> GoString.le a b = month_first_le a b.
Proof.
  intros Ha Hb.
  destruct (period_text_digits a Ha) as (m1 & m2 & y1 & y2 & y3 & y4 & -> & A1 & A2 & A3 & A4 & A5 & A6).
  destruct (period_text_digits b Hb) as (n1 & n2 & z1 & z2 & z3 & z4 & -> & B1 & B2 & B3 & B4 & B5 & B6).
  apply bool_eq_iff. rewrite month_first_le_spec.
  unfold Spec.month_of, Spec.year_of, Spec.digit_at. cbn [Spec.byte_at String.get].
  rewrite !le_cons. unfold GoString.digit_val in *.
  change (GoString.le EmptyString EmptyString) with true.
  repeat match goal with
         | |- context [?x <? ?y] => destruct (Z.ltb_spec x y); cbv iota
         | |- context [?x =? ?y] => destruct (Z.eqb_spec x y); cbv iota
         end; split; intros Hle; try reflexivity; try discriminate; lia.
Qed.

Section TextOrder.

Variable UUID : Type.
Variable UUID_eq_dec : forall a b : UUID, {a = b} + {a <> b}.
Variable uuid_Parse : string -> UUID + string.
Variable uuid_String : UUID -> string.
Variable pg : Postgres UUID.

Import PostgresSubscriptionRepo.

Local Notation "'Row'" := (PostgresSubscriptionRepo.Row UUID).
Local Notation "'Table'" := (PostgresSubscriptionRepo.Table UUID).

(** X5: on periods that match the pattern, the WHERE clause of TotalCost
    compares the month first and the year second: a row is counted when
    (month, year) of its start is at most (month, year) of [to] and its end is
    null or has (month, year) at least that of [from], for the user and,
    when a service name is given, for that service. *)
Theorem total_cost_where_month_first
    (uid : UUID) (serviceName from to : string) (r : Row) :
  MatchString monthYearRegex from = true ->
  MatchString monthYearRegex to = true ->
  row_periods_match r ->
  total_cost_where UUID_eq_dec uid serviceName from to r
  = (uuid_eqb UUID_eq_dec (row_user_id r) uid
     && month_first_le (row_start_date r) to
     && match row_end_date r with
        | None => true
        | Some e => month_first_le from e
        end
     && (String.eqb serviceName "" || String.eqb (row_service_name r) serviceName))%bool.
Proof.
  intros Hf Ht [Hs He]. apply monthYearRegex_period_text in Hf, Ht, Hs.
  unfold total_cost_where. rewrite (le_month_first _ _ Hs Ht).
  assert (Hend : match row_end_date r with
                 | Some e => GoString.ge e from
                 | None => true
                 end
                 = match row_end_date r with
                   | Some e => month_first_le from e
                   | None => true
                   end).
  { destruct (row_end_date r) as [e |]; [| reflexivity].
    unfold GoString.ge. change (String.leb from e) with (GoString.le from e).
    apply le_month_first; [assumption |]. apply monthYearRegex_period_text. now apply He. }
  rewrite Hend. now destruct (String.eqb serviceName "").
Qed.

Lemma sum_price_total (l : list Row) :
  sum_price l = fold_right Z.add 0 (map (@row_price UUID) l).
Proof. induction l as [| r l IH]; simpl; [reflexivity | now rewrite IH]. Qed.

Lemma same_year_orders (a b : string) :
  period_text a -> period_text b -> Spec.year_of a = Spec.year_of b ->
  GoString.le a b = Spec.chrono_le a b.
Proof.
  intros Ha Hb Hy. rewrite (le_month_first _ _ Ha Hb).
  apply bool_eq_iff. rewrite month_first_le_spec, chrono_le_spec. lia.
Qed.

(** X6: when the user id parses, the database takes the arguments of the
    query and reads the user id as [uid], and [from], [to] and every period of
    the table match the pattern and lie in one year of [1900,2100], TotalCost
    returns without error the chronological total for [uid]: the sum of the
    prices of the subscriptions of that user (of the given service, if any)
    that started at or before [to] and have no end or an end at or after
    [from]. *)
Theorem TotalCost_within_one_year
    (userID serviceName from to : string) (uid : UUID) (db : Table) (year : Z) :
  (exists u, uuid_Parse userID = inl u) ->
  query_accepted pg userID serviceName from to uid ->
  1900 <= year <= 2100 ->
  MatchString monthYearRegex from = true -> Spec.year_of from = year ->
  MatchString monthYearRegex to = true -> Spec.year_of to = year ->
  (forall r, In r db ->
     row_periods_match r
     /\ Spec.year_of (row_start_date r) = year
     /\ forall e, row_end_date r = Some e -> Spec.year_of e = year) ->
  TotalCost UUID_eq_dec uuid_Parse pg userID serviceName from to db
  = Returns (Spec.total_cost UUID_eq_dec uid serviceName from to db, None).
Proof.
  intros Hu Hq Hy Hf Yf Ht Yt Hdb.
  assert (Vf : isValidMonthYear from = Returns true).
  { rewrite (isValidMonthYear_on_period_text _ (proj1 (monthYearRegex_period_text _) Hf)).
    unfold year_in_range. rewrite Yf.
    destruct (Z.leb_spec 1900 year); [| lia]. destruct (Z.leb_spec year 2100); [| lia].
    reflexivity. }
  assert (Vt : isValidMonthYear to = Returns true).
  { rewrite (isValidMonthYear_on_period_text _ (proj1 (monthYearRegex_period_text _) Ht)).
    unfold year_in_range. rewrite Yt.
    destruct (Z.leb_spec 1900 year); [| lia]. destruct (Z.leb_spec year 2100); [| lia].
    reflexivity. }
  rewrite (TotalCost_valid UUID UUID_eq_dec uuid_Parse pg _ _ _ _ uid db Hu Vf Vt Hq).
  unfold Spec.total_cost. rewrite sum_price_total. do 4 f_equal.
  apply filter_ext_in. intros r Hr. destruct (Hdb r Hr) as ([Hs He] & Ys & Ye).
  apply monthYearRegex_period_text in Hf, Ht, Hs.
  unfold total_cost_where, Spec.counted, Spec.overlaps, uuid_eqb.
  rewrite (same_year_orders _ _ Hs Ht) by congruence.
  assert (Hend : match row_end_date r with
                 | Some e => GoString.ge e from
                 | None => true
                 end
                 = match row_end_date r with
                   | Some e => Spec.chrono_le from e
                   | None => true
                   end).
  { destruct (row_end_date r) as [e |] eqn:E; [| reflexivity].
    unfold GoString.ge. change (String.leb from e) with (GoString.le from e).
    apply same_year_orders; [assumption | |].
    - apply monthYearRegex_period_text. now apply He.
    - rewrite (Ye e eq_refl). assumption. }
  rewrite Hend.
  destruct (UUID_eq_dec (row_user_id r) uid); cbn [andb]; [| reflexivity].
  destruct (Spec.chrono_le (row_start_date r) to); cbn [andb]; [| reflexivity].
  destruct (match row_end_date r with
            | Some e => Spec.chrono_le from e
            | None => true
            end); cbn [andb]; [| reflexivity].
  now destruct (String.eqb serviceName "").
Qed.

Lemma Sorted_month_first (l : list Row) :
  Forall (fun r => period_text (row_start_date r)) l ->
  Sorted (@text_ge UUID) l -> Sorted (@month_first_ge UUID) l.
Proof.
  intros Hall Hs. induction Hs as [| r l Hl IH Hhd]; [constructor |].
  inversion Hall as [| ? ? Hr Hrest]; subst.
  constructor; [now apply IH |].
  destruct Hhd as [| x l' Hx]; constructor.
  inversion Hrest as [| ? ? Hxp _]; subst.
  unfold month_first_ge. rewrite <- (le_month_first _ _ Hxp Hr). exact Hx.
Qed.

(** X7: for a user id that parses and that PostgreSQL reads as the UUID
    [uid], ListByUserID returns, without error, every subscription of [uid]
    and no other (a permutation of the rows of that user), and when the stored
    start dates match the pattern the list is in decreasing order of the
    pairs (month, year): the month decides first. *)
Theorem ListByUserID_month_first (userID : string) (uid : UUID) (db : Table) :
  (exists u, uuid_Parse userID = inl u) ->
  uuid_in pg userID = Some uid ->
  (forall r, In r db -> MatchString monthYearRegex (row_start_date r) = true) ->
  exists rows : list Row,
    ListByUserID UUID_eq_dec uuid_Parse uuid_String pg userID db
    = (map (scan uuid_String) rows, None)
    /\ Permutation rows (filter (fun r => uuid_eqb UUID_eq_dec (row_user_id r) uid) db)
    /\ Sorted (@month_first_ge UUID) rows.
Proof.
  intros Hu Hin Hdb.
  destruct (ListByUserID_rows UUID UUID_eq_dec uuid_Parse uuid_String pg userID uid db Hu Hin)
    as (rows & E & P & S).
  exists rows. split; [exact E |]. split; [exact P |].
  apply Sorted_month_first; [| exact S].
  apply Forall_forall. intros r Hr. apply monthYearRegex_period_text, Hdb.
  apply (Permutation_in _ P) in Hr. now apply filter_In in Hr as [Hr _].
Qed.

End TextOrder.

(** ** The repository: how its operations compose *)

Section RepositoryComposition.

Variable UUID : Type.
Variable UUID_eq_dec : forall a b : UUID, {a = b} + {a <> b}.
Variable uuid_Parse : string -> UUID + string.
Variable uuid_String : UUID -> string.
Variable pg : Postgres UUID.
Variable gen_random_uuid : PostgresSubscriptionRepo.Table UUID -> UUID.

Import PostgresSubscriptionRepo.

Local Notation "'Row'" := (PostgresSubscriptionRepo.Row UUID).
Local Notation "'Table'" := (PostgresSubscriptionRepo.Table UUID).
Local Notation "'hit' id" := (fun r : Row => uuid_eqb UUID_eq_dec (row_id r) id)
  (at level 10, id at level 9).

Lemma find_none_iff (f : Row -> bool) (l : list Row) :
  find f l = None <-> forall r, In r l -> f r = false.
Proof.
  induction l as [| x l IH]; simpl.
  - split; [intros _ r [] | reflexivity].
  - destruct (f x) eqn:E.
    + split; [discriminate |]. intros H. specialize (H x (or_introl eq_refl)). congruence.
    + rewrite IH. split.
      * intros H r [<- | Hr]; auto.
      * intros H r Hr. apply H. now right.
Qed.

Lemma find_app_missing (f : Row -> bool) (l1 l2 : list Row) :
  (forall r, In r l1 -> f r = false) -> find f (l1 ++ l2) = find f l2.
Proof.
  induction l1 as [| x l1 IH]; intros H; simpl; [reflexivity |].
  rewrite (H x (or_introl eq_refl)). apply IH. intros r Hr. apply H. now right.
Qed.

Lemma find_map_hit (f : Row -> bool) (g : Row -> Row) (l : list Row) :
  (forall r, f r = true -> f (g r) = true) ->
  find f (map (fun r => if f r then g r else r) l) = option_map g (find f l).
Proof.
  intros Hg. induction l as [| x l IH]; simpl; [reflexivity |].
  destruct (f x) eqn:E.
  - now rewrite (Hg x E).
  - rewrite E. exact IH.
Qed.

Lemma find_filter_other (f g : Row -> bool) (l : list Row) :
  (forall r, f r = true -> g r = true) -> find f (filter g l) = find f l.
Proof.
  intros H. induction l as [| x l IH]; simpl; [reflexivity |].
  destruct (f x) eqn:E.
  - rewrite (H x E). simpl. now rewrite E.
  - destruct (g x); simpl; [rewrite E |]; exact IH.
Qed.

Lemma find_map_other (f h : Row -> bool) (g : Row -> Row) (l : list Row) :
  (forall r, h r = true -> f r = false /\ f (g r) = false) ->
  find f (map (fun r => if h r then g r else r) l) = find f l.
Proof.
  intros H. induction l as [| x l IH]; simpl; [reflexivity |].
  destruct (h x) eqn:E.
  - destruct (H x E) as [-> ->]. exact IH.
  - destruct (f x); [reflexivity | exact IH].
Qed.

(** X8: GetByID tells the three cases apart.  An id that does not parse
    gives "invalid subscription ID format"; an id that parses gives
    "subscription not found" exactly when no row carries it, and otherwise
    the scan of a stored row that carries it, without error. *)
Theorem GetByID_outcomes (id : string) (db : Table) :
  match uuid_Parse id with
  | inr _ =>
      GetByID UUID_eq_dec uuid_Parse uuid_String id db
      = (None, Some "invalid subscription ID format")
  | inl parsedID =>
      (GetByID UUID_eq_dec uuid_Parse uuid_String id db
       = (None, Some "subscription not found")
       /\ forall r, In r db -> row_id r <> parsedID)
      \/ (exists r, In r db /\ row_id r = parsedID
                    /\ GetByID UUID_eq_dec uuid_Parse uuid_String id db
                       = (Some (scan uuid_String r), None))
  end.
Proof.
  unfold GetByID. destruct (uuid_Parse id) as [parsedID | e]; [| reflexivity].
  destruct (find (hit parsedID) db) as [r |] eqn:F.
  - right. exists r. apply find_some in F as [Hin Hr].
    repeat split; auto. now apply uuid_eqb_eq in Hr.
  - left. split; [reflexivity |]. intros r Hr.
    eapply uuid_eqb_neq. eapply find_none_iff in F; eauto.
Qed.

Lemma Create_cases (sub : Subscription) (db : Table) :
  exists (err : error) (sub' : Subscription) (db' : Table),
    Create uuid_Parse uuid_String pg gen_random_uuid sub db = Returns (err, sub', db')
    /\ (err <> None -> sub' = sub /\ db' = db)
    /\ (err = None ->
        exists uid,
          (exists u, uuid_Parse (UserID sub) = inl u)
          /\ write_accepted pg sub uid
          /\ isValidMonthYear (StartDate sub) = Returns true
          /\ 0 < Price sub
          /\ db' = (db ++ [ {| row_id := gen_random_uuid db;
                               row_service_name := ServiceName sub;
                               row_price := Price sub;
                               row_user_id := uid;
                               row_start_date := StartDate sub;
                               row_end_date := EndDate sub |} ])%list
          /\ sub' = {| ID := uuid_String (gen_random_uuid db);
                       ServiceName := ServiceName sub; Price := Price sub;
                       UserID := UserID sub; StartDate := StartDate sub;
                       EndDate := EndDate sub |}).
Proof.
  unfold Create, exec_insert.
  destruct (uuid_Parse (UserID sub)) as [u | e] eqn:Hu.
  - destruct (isValidMonthYear_returns (StartDate sub)) as [ok Hok]. rewrite Hok. cbn [bind].
    destruct ok; cbn [negb].
    + destruct (bind_row pg (ServiceName sub) (Price sub) (UserID sub) (StartDate sub)
                  (EndDate sub)) as [f | uid] eqn:B.
      * do 3 eexists. split; [reflexivity |]. split; [auto | discriminate].
      * apply bind_row_accepted in B.
        destruct (Z.leb_spec (Price sub) 0) as [L | L].
        -- do 3 eexists. split; [reflexivity |]. split; [auto | discriminate].
        -- do 3 eexists. split; [reflexivity |]. split; [intros H; now destruct H |].
           intros _. exists uid. split; [now exists u |]. split; [exact B |].
           repeat split; auto.
    + do 3 eexists. split; [reflexivity |]. split; [auto | discriminate].
  - do 3 eexists. split; [reflexivity |]. split; [auto | discriminate].
Qed.

(** X9: Create never panics.  When it returns an error the table and the
    subscription are as they were; when it returns nil the user id parses,
    the database took the fields as arguments, isValidMonthYear accepts the
    start date, the price is positive, exactly one row is added at the end of
    the table, with the generated id, the fields of the subscription and the
    UUID that PostgreSQL read in the user id, and the id is written into the
    subscription. *)
Theorem Create_outcome (sub : Subscription) (db : Table) :
  exists (err : error) (sub' : Subscription) (db' : Table),
    Create uuid_Parse uuid_String pg gen_random_uuid sub db = Returns (err, sub', db')
    /\ (err <> None -> sub' = sub /\ db' = db)
    /\ (err = None ->
        exists uid,
          (exists u, uuid_Parse (UserID sub) = inl u)
          /\ write_accepted pg sub uid
          /\ isValidMonthYear (StartDate sub) = Returns true
          /\ 0 < Price sub
          /\ db' = (db ++ [ {| row_id := gen_random_uuid db;
                               row_service_name := ServiceName sub;
                               row_price := Price sub;
                               row_user_id := uid;
                               row_start_date := StartDate sub;
                               row_end_date := EndDate sub |} ])%list
          /\ sub' = {| ID := uuid_String (gen_random_uuid db);
                       ServiceName := ServiceName sub; Price := Price sub;
                       UserID := UserID sub; StartDate := StartDate sub;
                       EndDate := EndDate sub |}).
Proof. exact (Create_cases sub db). Qed.

(** X10: what was created can be read back.  After a Create that returned
    nil, with a generated id that no stored row carried and that parses back
    from its text, GetByID of the id written into the subscription returns,
    without error, the created subscription with its user id in the text
    form of the stored UUID, the one PostgreSQL read in the user id of the
    request. *)
Theorem Create_then_GetByID (sub created : Subscription) (db db' : Table) :
  Create uuid_Parse uuid_String pg gen_random_uuid sub db = Returns (None, created, db') ->
  (forall r, In r db -> row_id r <> gen_random_uuid db) ->
  uuid_Parse (uuid_String (gen_random_uuid db)) = inl (gen_random_uuid db) ->
  exists uid,
    (exists u, uuid_Parse (UserID sub) = inl u)
    /\ uuid_in pg (UserID sub) = Some uid
    /\ GetByID UUID_eq_dec uuid_Parse uuid_String (ID created) db'
       = (Some {| ID := ID created; ServiceName := ServiceName sub; Price := Price sub;
                  UserID := uuid_String uid; StartDate := StartDate sub;
                  EndDate := EndDate sub |}, None).
Proof.
  intros HC Hfresh Hround.
  destruct (Create_cases sub db) as (err & sub' & db'' & E & _ & Hok).
  rewrite HC in E. injection E as <- <- <-.
  destruct (Hok eq_refl) as (uid & Hu & Hacc & _ & _ & -> & ->).
  exists uid. split; [exact Hu |]. split; [apply Hacc |].
  unfold GetByID. cbn [ID]. rewrite Hround.
  rewrite find_app_missing by (intros r Hr; apply uuid_eqb_neq; now apply Hfresh).
  cbn [find row_id]. rewrite (proj2 (uuid_eqb_eq UUID UUID_eq_dec _ _) eq_refl).
  reflexivity.
Qed.

(** X11: what was updated can be read back, and nothing else moved.  After
    an Update that returned nil, GetByID of the same id returns the fields of
    the request (the id and the user id in the text form of the stored
    UUIDs), and GetByID of any other id returns what it returned before. *)
Theorem Update_then_GetByID (id : string) (sub : Subscription) (db db' : Table) :
  Update UUID_eq_dec uuid_Parse pg id sub db = Returns (None, db') ->
  exists parsedID uid,
    uuid_Parse id = inl parsedID
    /\ (exists u, uuid_Parse (UserID sub) = inl u)
    /\ uuid_in pg (UserID sub) = Some uid
    /\ GetByID UUID_eq_dec uuid_Parse uuid_String id db'
       = (Some {| ID := uuid_String parsedID; ServiceName := ServiceName sub;
                  Price := Price sub; UserID := uuid_String uid;
                  StartDate := StartDate sub; EndDate := EndDate sub |}, None)
    /\ forall other otherID,
         uuid_Parse other = inl otherID -> otherID <> parsedID ->
         GetByID UUID_eq_dec uuid_Parse uuid_String other db'
         = GetByID UUID_eq_dec uuid_Parse uuid_String other db.
Proof.
  unfold Update, exec_update.
  destruct (uuid_Parse id) as [parsedID | e] eqn:Hid; [| discriminate].
  destruct (uuid_Parse (UserID sub)) as [u | e] eqn:Hu; [| discriminate].
  destruct (isValidMonthYear_returns (StartDate sub)) as [ok ->]. cbn [bind].
  destruct ok; cbn [negb]; [| discriminate].
  destruct (bind_row pg (ServiceName sub) (Price sub) (UserID sub) (StartDate sub)
              (EndDate sub)) as [f | uid] eqn:B; [discriminate |].
  apply bind_row_accepted in B. destruct B as (_ & _ & Hpg & _).
  destruct (Nat.ltb 0 (List.length (filter (hit parsedID) db)) && (Price sub <=? 0))%bool;
    [discriminate |].
  destruct (Nat.eqb_spec (List.length (filter (hit parsedID) db)) 0) as [E | E];
    [discriminate |].
  intros H. injection H as <-.
  exists parsedID, uid. split; [reflexivity |]. split; [now exists u |].
  split; [exact Hpg |]. split.
  - unfold GetByID. rewrite Hid.
    rewrite (find_map_hit (hit parsedID)) by (intros r Hr; exact Hr).
    destruct (find (hit parsedID) db) as [r |] eqn:F.
    + apply find_some in F as [_ Hr]. apply uuid_eqb_eq in Hr.
      cbn [option_map]. unfold scan, set_row. cbn. now rewrite Hr.
    + exfalso. apply E. rewrite (filter_nothing _ _ db); [reflexivity |].
      now apply find_none_iff.
  - intros other otherID Ho Hne. unfold GetByID. rewrite Ho.
    rewrite (find_map_other (hit otherID) (hit parsedID)); [reflexivity |].
    intros r Hr. apply uuid_eqb_eq in Hr. cbn [set_row row_id].
    split; apply uuid_eqb_neq; congruence.
Qed.

(** X12: Delete removes the rows of the given id and only those.  After a
    Delete that returned nil, the table holds exactly the rows of the other
    ids, GetByID of the deleted id returns "subscription not found", and
    GetByID of any other id returns what it returned before. *)
Theorem Delete_then_GetByID (id : string) (db db1 : Table) :
  Delete UUID_eq_dec uuid_Parse id db = (None, db1) ->
  exists parsedID,
    uuid_Parse id = inl parsedID
    /\ (forall r, In r db1 <-> In r db /\ row_id r <> parsedID)
    /\ GetByID UUID_eq_dec uuid_Parse uuid_String id db1
       = (None, Some "subscription not found")
    /\ forall other otherID,
         uuid_Parse other = inl otherID -> otherID <> parsedID ->
         GetByID UUID_eq_dec uuid_Parse uuid_String other db1
         = GetByID UUID_eq_dec uuid_Parse uuid_String other db.
Proof using Type.
  unfold Delete, exec_delete.
  destruct (uuid_Parse id) as [parsedID | e] eqn:Hid; [| discriminate].
  destruct (Nat.eqb (List.length (filter (hit parsedID) db)) 0); [discriminate |].
  intros H. injection H as <-.
  exists parsedID. split; [reflexivity |]. split; [| split].
  - intros r. rewrite filter_In, negb_true_iff, uuid_eqb_neq. reflexivity.
  - unfold GetByID. rewrite Hid.
    assert (F : find (hit parsedID) (filter (fun r => negb (hit parsedID r)) db) = None).
    { apply find_none_iff. intros r Hr. apply filter_In in Hr as [_ Hr].
      now apply negb_true_iff in Hr. }
    now rewrite F.
  - intros other otherID Ho Hne. unfold GetByID. rewrite Ho.
    rewrite find_filter_other; [reflexivity |].
    intros r Hr. apply uuid_eqb_eq in Hr. apply negb_true_iff, uuid_eqb_neq. congruence.
Qed.

(** X13: a user without subscriptions gets the empty list and no error: the
    user id parses, PostgreSQL reads it as the UUID [uid], and no row of the
    table belongs to [uid]. *)
Theorem ListByUserID_no_subscription (userID : string) (uid : UUID) (db : Table) :
  (exists u, uuid_Parse userID = inl u) ->
  uuid_in pg userID = Some uid ->
  (forall r, In r db -> row_user_id r <> uid) ->
  ListByUserID UUID_eq_dec uuid_Parse uuid_String pg userID db = ([], None).
Proof.
  intros [u Hu] Hin Hnone. unfold ListByUserID. rewrite Hu, Hin.
  rewrite (filter_nothing _ _ db); [reflexivity |].
  intros r Hr. apply uuid_eqb_neq. now apply Hnone.
Qed.

(** X14: TotalCost is additive in the table: with a user id that parses,
    two periods that isValidMonthYear accepts and arguments that the database
    takes, the total over two tables put end to end is the sum of the totals
    over each. *)
Theorem TotalCost_additive
    (userID serviceName from to : string) (uid : UUID) (db1 db2 : Table) :
  (exists u, uuid_Parse userID = inl u) ->
  isValidMonthYear from = Returns true ->
  isValidMonthYear to = Returns true ->
  query_accepted pg userID serviceName from to uid ->
  exists t1 t2,
    TotalCost UUID_eq_dec uuid_Parse pg userID serviceName from to db1 = Returns (t1, None)
    /\ TotalCost UUID_eq_dec uuid_Parse pg userID serviceName from to db2 = Returns (t2, None)
    /\ TotalCost UUID_eq_dec uuid_Parse pg userID serviceName from to (db1 ++ db2)%list
       = Returns (t1 + t2, None).
Proof.
  intros Hu Hf Ht Hq.
  rewrite !(TotalCost_valid UUID UUID_eq_dec uuid_Parse pg _ _ _ _ uid _ Hu Hf Ht Hq).
  do 2 eexists. split; [reflexivity |]. split; [reflexivity |].
  rewrite filter_app. do 2 f_equal.
  induction (filter (total_cost_where UUID_eq_dec uid serviceName from to) db1) as [| r l IH];
    simpl; [reflexivity | rewrite IH; lia].
Qed.

Lemma sum_price_filter_bounds (f g : Row -> bool) (l : list Row) :
  (forall r, In r l -> 0 < row_price r) ->
  (forall r, f r = true -> g r = true) ->
  0 <= sum_price (filter f l) <= sum_price (filter g l).
Proof.
  intros Hpos Hfg. induction l as [| x l IH]; simpl; [lia |].
  assert (Hx : 0 < row_price x) by (apply Hpos; now left).
  assert (IH' : 0 <= sum_price (filter f l) <= sum_price (filter g l))
    by (apply IH; intros r Hr; apply Hpos; now right).
  destruct (f x) eqn:E.
  - rewrite (Hfg x E). simpl. lia.
  - destruct (g x); simpl; lia.
Qed.

(** X15: on a table whose prices are positive (the CHECK constraint of the
    column), with a user id that parses, two periods that isValidMonthYear
    accepts and arguments that the database takes, the total for one service
    is at least 0 and at most the total over all services of the same user
    and window. *)
Theorem TotalCost_service_bounds
    (userID serviceName from to : string) (uid : UUID) (db : Table) :
  (exists u, uuid_Parse userID = inl u) ->
  isValidMonthYear from = Returns true ->
  isValidMonthYear to = Returns true ->
  query_accepted pg userID serviceName from to uid ->
  (forall r, In r db -> 0 < row_price r) ->
  exists t tall,
    TotalCost UUID_eq_dec uuid_Parse pg userID serviceName from to db = Returns (t, None)
    /\ TotalCost UUID_eq_dec uuid_Parse pg userID "" from to db = Returns (tall, None)
    /\ 0 <= t <= tall.
Proof.
  intros Hu Hf Ht Hq Hpos.
  assert (Hq0 : query_accepted pg userID "" from to uid).
  { destruct Hq as (H1 & H2 & H3 & _). repeat split; auto. }
  rewrite (TotalCost_valid UUID UUID_eq_dec uuid_Parse pg _ _ _ _ uid _ Hu Hf Ht Hq).
  rewrite (TotalCost_valid UUID UUID_eq_dec uuid_Parse pg _ _ _ _ uid _ Hu Hf Ht Hq0).
  do 2 eexists. split; [reflexivity |]. split; [reflexivity |].
  apply sum_price_filter_bounds; [exact Hpos |].
  intros r. unfold total_cost_where. cbn [String.eqb negb].
  rewrite !andb_true_iff. intros [[[H1 H2] H3] _]. repeat split; assumption.
Qed.

End RepositoryComposition.

(** ** The handlers that write, on any repository *)

Section WritingHandlers.

Variable UUID : Type.
Variable uuid_Parse : string -> UUID + string.
Variable St : Type.
Variable repo : SubscriptionRepository St.

Lemma end_date_gate (req : Subscription) :
  MatchString monthYearRegex (StartDate req) = true ->
  (end_date_accepted req
   /\ match EndDate req with
      | Some endDate =>
          match ValidatePeriodDate endDate with
          | Some err =>
              Returns (Some (http.Error ("invalid end_date: " ++ err) http.StatusBadRequest))
          | None =>
              ok <- isEndDateAfterOrEqual (StartDate req) endDate ;;
              if negb ok
              then Returns (Some (http.Error "end_date must be >= start_date"
                                             http.StatusBadRequest))
              else Returns None
          end
      | None => Returns None
      end = Returns None)
  \/ (~ end_date_accepted req
      /\ exists resp,
           match EndDate req with
           | Some endDate =>
               match ValidatePeriodDate endDate with
               | Some err =>
                   Returns (Some (http.Error ("invalid end_date: " ++ err) http.StatusBadRequest))
               | None =>
                   ok <- isEndDateAfterOrEqual (StartDate req) endDate ;;
                   if negb ok
                   then Returns (Some (http.Error "end_date must be >= start_date"
                                                  http.StatusBadRequest))
                   else Returns None
               end
           | None => Returns None
           end = Returns (Some resp)
           /\ http.status resp = http.StatusBadRequest).
Proof.
  intros Hstart. unfold end_date_accepted.
  destruct (EndDate req) as [e |].
  - destruct (ValidatePeriodDate e) as [err |] eqn:P.
    + right. split; [| eexists; split; reflexivity].
      intros H. destruct (H e eq_refl) as [Hm _].
      apply ValidatePeriodDate_nil in Hm. congruence.
    + apply ValidatePeriodDate_nil in P.
      rewrite (end_date_gate_returns _ _ Hstart P). cbn [bind].
      destruct (Spec.chrono_le (StartDate req) e) eqn:C; cbn [negb].
      * left. split; [| reflexivity]. intros e' E. injection E as <-. now split.
      * right. split; [| eexists; split; reflexivity].
        intros H. destruct (H e eq_refl) as [_ Hc]. congruence.
  - left. split; [| reflexivity]. discriminate.
Qed.

(** X16: CreateSubscription validates before it stores.  It answers 400 and
    leaves the store as it was unless the body decodes,
    ValidateSubscriptionInput returns nil and the end date, if any, matches
    the pattern and is not before the start date; only then is repo.Create
    called, once, and the answer is 201 with the created subscription when it
    returns nil and 500 when it returns an error. *)
Theorem CreateSubscription_validates_first (decoded : option Subscription) (st : St) :
  (forall sub st0, Create repo sub st0 <> Panics) ->
  (exists resp, CreateSubscription uuid_Parse repo decoded st = Returns (resp, st)
                /\ http.status resp = http.StatusBadRequest
                /\ ~ (exists req, decoded = Some req
                        /\ ValidateSubscriptionInput uuid_Parse (ServiceName req) (Price req)
                             (UserID req) (StartDate req) = None
                        /\ end_date_accepted req))
  \/ (exists req err created st',
         decoded = Some req
         /\ ValidateSubscriptionInput uuid_Parse (ServiceName req) (Price req)
              (UserID req) (StartDate req) = None
         /\ end_date_accepted req
         /\ Create repo req st = Returns (err, created, st')
         /\ CreateSubscription uuid_Parse repo decoded st
            = Returns (match err with
                       | Some _ => http.Error "failed to create subscription"
                                     http.StatusInternalServerError
                       | None => {| http.status := http.StatusCreated;
                                    http.payload := http.JSONSubscription created |}
                       end, st')).
Proof.
  intros Hrepo. unfold CreateSubscription.
  destruct decoded as [req |].
  2:{ left. eexists. split; [reflexivity |]. split; [reflexivity |].
      intros (req & E & _). discriminate. }
  destruct (ValidateSubscriptionInput uuid_Parse (ServiceName req) (Price req)
              (UserID req) (StartDate req)) as [err |] eqn:V.
  { left. eexists. split; [reflexivity |]. split; [reflexivity |].
    intros (req' & E & V' & _). injection E as <-. congruence. }
  pose proof V as V0. apply ValidateSubscriptionInput_nil in V0 as (_ & _ & _ & Hstart).
  destruct (end_date_gate req Hstart) as [[Hacc ->] | (Hrej & resp & -> & Hst)]; cbn [bind].
  - right. destruct (Create repo req st) as [[[err created] st'] |] eqn:C;
      [| now apply Hrepo in C].
    exists req, err, created, st'. cbn [bind].
    split; [reflexivity |]. split; [exact V |]. split; [exact Hacc |].
    split; [exact C |]. now destruct err.
  - left. exists resp. split; [reflexivity |]. split; [exact Hst |].
    intros (req' & E & _ & Hacc). injection E as <-. contradiction.
Qed.

(** X17: an end date before the start date is refused by both writing
    handlers with 400 and "end_date must be >= start_date", the store
    untouched, whatever the repository. *)
Theorem end_date_before_start_refused (id : string) (req : Subscription) (e : string) (st : St) :
  ValidateSubscriptionInput uuid_Parse (ServiceName req) (Price req)
    (UserID req) (StartDate req) = None ->
  EndDate req = Some e ->
  MatchString monthYearRegex e = true ->
  Spec.chrono_le (StartDate req) e = false ->
  id <> "" ->
  CreateSubscription uuid_Parse repo (Some req) st
  = Returns (http.Error "end_date must be >= start_date" http.StatusBadRequest, st)
  /\ UpdateSubscription uuid_Parse repo id (Some req) st
     = Returns (http.Error "end_date must be >= start_date" http.StatusBadRequest, st).
Proof.
  intros V E Hm Hc Hid. apply String.eqb_neq in Hid.
  pose proof V as V0. apply ValidateSubscriptionInput_nil in V0 as (_ & _ & _ & Hstart).
  unfold CreateSubscription, UpdateSubscription. rewrite Hid, V, E.
  rewrite (proj2 (ValidatePeriodDate_nil e) Hm).
  rewrite (end_date_gate_returns _ _ Hstart Hm), Hc. split; reflexivity.
Qed.

End WritingHandlers.

(** ** The handlers on the Postgres repository *)

Section PostgresHandlers.

Variable UUID : Type.
Variable UUID_eq_dec : forall a b : UUID, {a = b} + {a <> b}.
Variable uuid_Parse : string -> UUID + string.
Variable uuid_String : UUID -> string.
Variable pg : Postgres UUID.
Variable gen_random_uuid : PostgresSubscriptionRepo.Table UUID -> UUID.

Local Notation "'Row'" := (PostgresSubscriptionRepo.Row UUID).
Local Notation "'Table'" := (PostgresSubscriptionRepo.Table UUID).
Local Notation "'hit' id" :=
  (fun r : Row => PostgresSubscriptionRepo.uuid_eqb UUID_eq_dec
                    (PostgresSubscriptionRepo.row_id r) id)
  (at level 10, id at level 9).

Lemma no_row_affected (f : Row -> bool) (l : list Row) :
  Nat.eqb (List.length (filter f l)) 0 = negb (existsb f l).
Proof.
  induction l as [| x l IH]; simpl; [reflexivity |].
  destruct (f x); simpl; [reflexivity | exact IH].
Qed.

Lemma existsb_false_all (f : Row -> bool) (l : list Row) :
  existsb f l = false -> forall r, In r l -> f r = false.
Proof.
  intros H r Hr. destruct (f r) eqn:E; [| reflexivity].
  assert (existsb f l = true) by (apply existsb_exists; eauto). congruence.
Qed.

Lemma find_existsb (f : Row -> bool) (l : list Row) :
  existsb f l = true -> exists r, find f l = Some r /\ f r = true.
Proof.
  induction l as [| x l IH]; simpl; [discriminate |].
  destruct (f x) eqn:E; [eauto | exact IH].
Qed.

Lemma validated_request (req : Subscription) :
  ValidateSubscriptionInput uuid_Parse (ServiceName req) (Price req)
    (UserID req) (StartDate req) = None ->
  0 < Price req
  /\ (exists uid, uuid_Parse (UserID req) = inl uid)
  /\ MatchString monthYearRegex (StartDate req) = true
  /\ isValidMonthYear (StartDate req) = Returns (year_in_range (StartDate req)).
Proof.
  intros V. apply ValidateSubscriptionInput_nil in V as (_ & Hp & Hu & Hm).
  repeat split; auto. apply isValidMonthYear_on_period_text.
  now apply monthYearRegex_period_text.
Qed.

Lemma accepted_gate (req : Subscription) :
  MatchString monthYearRegex (StartDate req) = true ->
  end_date_accepted req ->
  match EndDate req with
  | Some endDate =>
      match ValidatePeriodDate endDate with
      | Some err =>
          Returns (Some (http.Error ("invalid end_date: " ++ err) http.StatusBadRequest))
      | None =>
          ok <- isEndDateAfterOrEqual (StartDate req) endDate ;;
          if negb ok
          then Returns (Some (http.Error "end_date must be >= start_date"
                                         http.StatusBadRequest))
          else Returns None
      end
  | None => Returns None
  end = Returns None.
Proof.
  intros Hstart Hacc.
  destruct (end_date_gate req Hstart) as [[_ E] | [Hrej _]]; [exact E | contradiction].
Qed.

(** X18: CreateSubscription on a repository whose Create is that of the
    Postgres repository, unless the statement fails on the connection, when
    it returns "database insert failed: ..." and leaves the subscription and
    the table as they were.  A request that passed the checks of the handler
    is stored and answered 201 when the year of its start date lies in
    [1900,2100] and the database takes its fields as arguments (the price
    fits an INTEGER, the texts are valid TEXT, the user id is a text that
    PostgreSQL reads as a UUID, which is the one stored).  A year outside that
    range, which the pattern of the handler lets through, fields that the
    database refuses and a statement that failed are answered 500 "failed to
    create subscription", not 400, the table unchanged. *)
Theorem CreateSubscription_on_postgres
    (repo : SubscriptionRepository Table) (req : Subscription) (db : Table) :
  (Create repo req db
   = PostgresSubscriptionRepo.Create uuid_Parse uuid_String pg gen_random_uuid req db
   \/ exists e, Create repo req db
                = Returns (Some ("database insert failed: " ++ e)%string, req, db)) ->
  ValidateSubscriptionInput uuid_Parse (ServiceName req) (Price req)
    (UserID req) (StartDate req) = None ->
  end_date_accepted req ->
  (exists u, uuid_Parse (UserID req) = inl u)
  /\ (CreateSubscription uuid_Parse repo (Some req) db
      = (if year_in_range (StartDate req)
         then
           match PostgresSubscriptionRepo.bind_row pg (ServiceName req) (Price req)
                   (UserID req) (StartDate req) (EndDate req) with
           | inr uid =>
               Returns
                 ({| http.status := http.StatusCreated;
                     http.payload :=
                       http.JSONSubscription
                         {| ID := uuid_String (gen_random_uuid db);
                            ServiceName := ServiceName req; Price := Price req;
                            UserID := UserID req; StartDate := StartDate req;
                            EndDate := EndDate req |} |},
                  (db ++ [ {| PostgresSubscriptionRepo.row_id := gen_random_uuid db;
                              PostgresSubscriptionRepo.row_service_name := ServiceName req;
                              PostgresSubscriptionRepo.row_price := Price req;
                              PostgresSubscriptionRepo.row_user_id := uid;
                              PostgresSubscriptionRepo.row_start_date := StartDate req;
                              PostgresSubscriptionRepo.row_end_date := EndDate req |} ])%list)
           | inl _ =>
               Returns (http.Error "failed to create subscription"
                                   http.StatusInternalServerError, db)
           end
         else Returns (http.Error "failed to create subscription"
                                  http.StatusInternalServerError, db))
      \/ ((exists e, Create repo req db
                     = Returns (Some ("database insert failed: " ++ e)%string, req, db))
          /\ CreateSubscription uuid_Parse repo (Some req) db
             = Returns (http.Error "failed to create subscription"
                                   http.StatusInternalServerError, db))).
Proof.
  intros Hrepo V Hacc. destruct (validated_request req V) as (Hp & [u Hu] & Hm & Hv).
  split; [now exists u |].
  unfold CreateSubscription. rewrite V, (accepted_gate req Hm Hacc). cbn [bind].
  destruct Hrepo as [Hrepo | [e Hrepo]]; rewrite Hrepo.
  - left.
    unfold PostgresSubscriptionRepo.Create, PostgresSubscriptionRepo.exec_insert.
    rewrite Hu, Hv. cbn [bind].
    destruct (year_in_range (StartDate req)); cbn [negb bind]; [| reflexivity].
    destruct (PostgresSubscriptionRepo.bind_row pg (ServiceName req) (Price req)
                (UserID req) (StartDate req) (EndDate req)) as [f | uid]; [reflexivity |].
    destruct (Z.leb_spec (Price req) 0); [lia | reflexivity].
  - right. split; [now exists e | reflexivity].
Qed.

Lemma pg_Update (id : string) (req : Subscription) (db : Table) (parsedID uid : UUID) :
  uuid_Parse id = inl parsedID ->
  (exists u, uuid_Parse (UserID req) = inl u) ->
  isValidMonthYear (StartDate req) = Returns true ->
  0 < Price req ->
  PostgresSubscriptionRepo.bind_row pg (ServiceName req) (Price req) (UserID req)
    (StartDate req) (EndDate req) = inr uid ->
  PostgresSubscriptionRepo.Update UUID_eq_dec uuid_Parse pg id req db
  = Returns (if existsb (hit parsedID) db
             then (None,
                   map (fun r => if hit parsedID r
                                 then PostgresSubscriptionRepo.set_row (ServiceName req)
                                        (Price req) uid (StartDate req) (EndDate req) r
                                 else r) db)
             else (Some "subscription not found", db)).
Proof.
  intros Hid [u Hu] Hv Hp Hb.
  unfold PostgresSubscriptionRepo.Update, PostgresSubscriptionRepo.exec_update.
  rewrite Hid, Hu, Hv. cbn [bind negb]. rewrite Hb.
  destruct (Z.leb_spec (Price req) 0); [lia |]. rewrite andb_false_r.
  rewrite no_row_affected.
  destruct (existsb (hit parsedID) db) eqn:E; cbn [negb]; [reflexivity |].
  rewrite map_untouched; [reflexivity |]. now apply existsb_false_all.
Qed.

(** X19: UpdateSubscription on a repository whose Update and GetByID are
    those of the Postgres repository, unless the statement or the query fails
    on the connection, when they return "database update failed: ..." with
    the table as it was, and "database query failed: ...".  The request passed
    the checks of the handler and the path id is not empty.  An id that does
    not parse is answered 500 "failed to update subscription" (the handler
    does not check it), and so are a start year outside [1900,2100] and
    fields that the database does not take as arguments (a price beyond the
    INTEGER column, a user id that PostgreSQL does not read, a text that is
    not valid TEXT); otherwise an id that no row carries is answered 404 with
    the table unchanged, and an id that is stored is answered 200 with the
    fields of the request as they are read back from the table.  A statement
    that failed is answered 500 "failed to update subscription", the table
    unchanged; a query that failed after the update is answered 500
    "subscription updated but retrieval failed", the table updated. *)
Theorem UpdateSubscription_on_postgres
    (repo : SubscriptionRepository Table) (id : string) (req : Subscription) (db : Table) :
  (forall sub,
      Update repo id sub db
      = PostgresSubscriptionRepo.Update UUID_eq_dec uuid_Parse pg id sub db
      \/ exists e, Update repo id sub db
                   = Returns (Some ("database update failed: " ++ e)%string, db)) ->
  (forall db',
      GetByID repo id db'
      = Returns (PostgresSubscriptionRepo.GetByID UUID_eq_dec uuid_Parse uuid_String id db')
      \/ exists e, GetByID repo id db'
                   = Returns (None, Some ("database query failed: " ++ e)%string)) ->
  id <> "" ->
  ValidateSubscriptionInput uuid_Parse (ServiceName req) (Price req)
    (UserID req) (StartDate req) = None ->
  end_date_accepted req ->
  (exists u, uuid_Parse (UserID req) = inl u)
  /\ (UpdateSubscription uuid_Parse repo id (Some req) db
      = match uuid_Parse id with
        | inr _ =>
            Returns (http.Error "failed to update subscription"
                                http.StatusInternalServerError, db)
        | inl parsedID =>
            if negb (year_in_range (StartDate req))
            then Returns (http.Error "failed to update subscription"
                                     http.StatusInternalServerError, db)
            else
              match PostgresSubscriptionRepo.bind_row pg (ServiceName req) (Price req)
                      (UserID req) (StartDate req) (EndDate req) with
              | inl _ =>
                  Returns (http.Error "failed to update subscription"
                                      http.StatusInternalServerError, db)
              | inr uid =>
                  if existsb (hit parsedID) db
                  then Returns
                         ({| http.status := http.StatusOK;
                             http.payload :=
                               http.JSONSubscription
                                 {| ID := uuid_String parsedID;
                                    ServiceName := ServiceName req; Price := Price req;
                                    UserID := uuid_String uid; StartDate := StartDate req;
                                    EndDate := EndDate req |} |},
                          map (fun r => if hit parsedID r
                                        then PostgresSubscriptionRepo.set_row (ServiceName req)
                                               (Price req) uid (StartDate req) (EndDate req) r
                                        else r) db)
                  else Returns (http.Error "subscription not found" http.StatusNotFound, db)
              end
        end
      \/ ((exists sub e, Update repo id sub db
                         = Returns (Some ("database update failed: " ++ e)%string, db))
          /\ UpdateSubscription uuid_Parse repo id (Some req) db
             = Returns (http.Error "failed to update subscription"
                                   http.StatusInternalServerError, db))
      \/ (exists parsedID uid,
             uuid_Parse id = inl parsedID
             /\ PostgresSubscriptionRepo.bind_row pg (ServiceName req) (Price req)
                  (UserID req) (StartDate req) (EndDate req) = inr uid
             /\ existsb (hit parsedID) db = true
             /\ (exists e,
                   GetByID repo id
                     (map (fun r => if hit parsedID r
                                    then PostgresSubscriptionRepo.set_row (ServiceName req)
                                           (Price req) uid (StartDate req) (EndDate req) r
                                    else r) db)
                   = Returns (None, Some ("database query failed: " ++ e)%string))
             /\ UpdateSubscription uuid_Parse repo id (Some req) db
                = Returns
                    (http.Error "subscription updated but retrieval failed"
                                http.StatusInternalServerError,
                     map (fun r => if hit parsedID r
                                   then PostgresSubscriptionRepo.set_row (ServiceName req)
                                          (Price req) uid (StartDate req) (EndDate req) r
                                   else r) db))).
Proof.
  intros HU HG Hid V Hacc. apply String.eqb_neq in Hid.
  destruct (validated_request req V) as (Hp & [u Hu] & Hm & Hv).
  split; [now exists u |].
  unfold UpdateSubscription. rewrite Hid, V, (accepted_gate req Hm Hacc). cbn [bind].
  match goal with
  | |- context [Update repo id ?sub db] =>
      destruct (HU sub) as [HU' | [e HU']]; rewrite HU'
  end.
  2:{ right. left. split; [eauto | reflexivity]. }
  destruct (uuid_Parse id) as [parsedID | e] eqn:Pid.
  - destruct (year_in_range (StartDate req)) eqn:Y; cbn [negb].
    + destruct (PostgresSubscriptionRepo.bind_row pg (ServiceName req) (Price req)
                  (UserID req) (StartDate req) (EndDate req)) as [f | uid] eqn:B.
      * left.
        unfold PostgresSubscriptionRepo.Update, PostgresSubscriptionRepo.exec_update.
        rewrite Pid. cbn [UserID StartDate ServiceName Price EndDate].
        rewrite Hu, Hv. cbn [bind negb]. rewrite B. reflexivity.
      * rewrite (pg_Update id
                   {| ID := id; ServiceName := ServiceName req; Price := Price req;
                      UserID := UserID req; StartDate := StartDate req;
                      EndDate := EndDate req |} db parsedID uid Pid
                   (ex_intro _ u Hu) Hv Hp B).
        cbn [bind].
        destruct (existsb (hit parsedID) db) eqn:E; [| left; reflexivity].
        cbn [bind ServiceName Price StartDate EndDate].
        match goal with
        | |- context [GetByID repo id ?t] =>
            destruct (HG t) as [HG' | [e HG']]; rewrite HG'
        end.
        -- left. cbn [bind].
           unfold PostgresSubscriptionRepo.GetByID. rewrite Pid.
           rewrite (find_map_hit UUID (hit parsedID)) by (intros r Hr; exact Hr).
           destruct (find_existsb _ _ E) as (r & -> & Hr).
           apply uuid_eqb_eq in Hr. cbn [option_map].
           unfold PostgresSubscriptionRepo.scan, PostgresSubscriptionRepo.set_row. cbn.
           now rewrite Hr.
        -- right. right. exists parsedID, uid.
           split; [reflexivity |]. split; [reflexivity |]. split; [exact E |].
           split; [now exists e | reflexivity].
    + left. unfold PostgresSubscriptionRepo.Update. rewrite Pid. cbn [UserID StartDate].
      rewrite Hu, Hv. reflexivity.
  - left. unfold PostgresSubscriptionRepo.Update. rewrite Pid. reflexivity.
Qed.

(** X20: DeleteSubscription on a repository whose Delete is that of the
    Postgres repository, unless the statement fails on the connection, when
    it returns "database delete failed: ..." and leaves the table as it was.
    The handler answers 400 on an empty id and on an id that does not parse,
    404 with the table unchanged when no row carries the id, and 204 with the
    rows of that id removed otherwise; when the statement failed, for an id
    that parses, it answers 500 "failed to delete subscription", the table
    unchanged. *)
Theorem DeleteSubscription_on_postgres
    (repo : SubscriptionRepository Table) (id : string) (db : Table) :
  (Delete repo id db
   = Returns (PostgresSubscriptionRepo.Delete UUID_eq_dec uuid_Parse id db)
   \/ exists e, Delete repo id db
                = Returns (Some ("database delete failed: " ++ e)%string, db)) ->
  DeleteSubscription uuid_Parse repo id db
  = Returns
      (if String.eqb id "" then
         (httpjson.error_ "subscription ID is required" http.StatusBadRequest, db)
       else
         match uuid_Parse id with
         | inr _ =>
             (httpjson.error_ "invalid subscription ID format" http.StatusBadRequest, db)
         | inl parsedID =>
             if existsb (hit parsedID) db
             then ({| httpjson.status := httpjson.StatusNoContent;
                      httpjson.payload := httpjson.NoBody |},
                   filter (fun r => negb (hit parsedID r)) db)
             else (httpjson.error_ "subscription not found" http.StatusNotFound, db)
         end)
  \/ (id <> ""
      /\ (exists parsedID, uuid_Parse id = inl parsedID)
      /\ (exists e, Delete repo id db
                    = Returns (Some ("database delete failed: " ++ e)%string, db))
      /\ DeleteSubscription uuid_Parse repo id db
         = Returns (httpjson.error_ "failed to delete subscription"
                                    http.StatusInternalServerError, db)).
Proof.
  intros Hrepo. unfold DeleteSubscription.
  destruct (String.eqb_spec id "") as [Hid | Hid]; [left; reflexivity |].
  destruct (uuid_Parse id) as [parsedID | e] eqn:Pid; [| left; reflexivity].
  destruct Hrepo as [Hrepo | [e Hrepo]]; rewrite Hrepo; cbn [bind].
  - left.
    unfold PostgresSubscriptionRepo.Delete, PostgresSubscriptionRepo.exec_delete.
    rewrite Pid, no_row_affected.
    destruct (existsb (hit parsedID) db) eqn:E; cbn [negb]; [reflexivity |].
    cbn [String.eqb Ascii.eqb Bool.eqb andb].
    rewrite (forallb_filter_id (fun r => negb (hit parsedID r)) db); [reflexivity |].
    apply forallb_forall. intros r Hr. apply negb_true_iff.
    now apply (existsb_false_all _ _ E).
  - right. split; [exact Hid |]. split; [now exists parsedID |].
    split; [now exists e |]. reflexivity.
Qed.

(** X21: GetSubscription on a repository whose GetByID is that of the
    Postgres repository, unless the query fails on the connection, when it
    returns "database query failed: ...".  The handler answers 400 on an
    empty id and on an id that does not parse, 404 when no row carries the id
    and 200 with the scan of the row otherwise; when the query failed, for an
    id that parses, it answers 500 "internal error". *)
Theorem GetSubscription_on_postgres
    (repo : SubscriptionRepository Table) (id : string) (db : Table) :
  (GetByID repo id db
   = Returns (PostgresSubscriptionRepo.GetByID UUID_eq_dec uuid_Parse uuid_String id db)
   \/ exists e, GetByID repo id db
                = Returns (None, Some ("database query failed: " ++ e)%string)) ->
  GetSubscription uuid_Parse repo id db
  = Returns
      (if String.eqb id "" then
         httpjson.error_ "subscription ID is required" http.StatusBadRequest
       else
         match uuid_Parse id with
         | inr _ => httpjson.error_ "invalid subscription ID format" http.StatusBadRequest
         | inl parsedID =>
             match find (hit parsedID) db with
             | Some r =>
                 {| httpjson.status := http.StatusOK;
                    httpjson.payload :=
                      httpjson.One (Some (PostgresSubscriptionRepo.scan uuid_String r)) |}
             | None => httpjson.error_ "subscription not found" http.StatusNotFound
             end
         end)
  \/ (id <> ""
      /\ (exists parsedID, uuid_Parse id = inl parsedID)
      /\ (exists e, GetByID repo id db
                    = Returns (None, Some ("database query failed: " ++ e)%string))
      /\ GetSubscription uuid_Parse repo id db
         = Returns (httpjson.error_ "internal error" http.StatusInternalServerError)).
Proof.
  intros Hrepo. unfold GetSubscription.
  destruct (String.eqb_spec id "") as [Hid | Hid]; [left; reflexivity |].
  destruct (uuid_Parse id) as [parsedID | e] eqn:Pid; [| left; reflexivity].
  destruct Hrepo as [Hrepo | [e Hrepo]]; rewrite Hrepo; cbn [bind].
  - left. unfold PostgresSubscriptionRepo.GetByID. rewrite Pid.
    destruct (find (hit parsedID) db); reflexivity.
  - right. split; [exact Hid |]. split; [now exists parsedID |].
    split; [now exists e |]. reflexivity.
Qed.

(** X22: GetTotalCost on a repository whose TotalCost is that of the
    Postgres repository, unless the query fails on the connection, when it
    returns "database aggregation failed: ...".  Missing from, to or user_id
    are answered 400; a user id that does not parse is answered 400 with the
    error of the repository; a from or to that isValidMonthYear refuses is
    answered 500 "failed to calculate total cost", because the text of that
    error does not contain "invalid"; when the database refuses an argument
    of the query (a user id that PostgreSQL does not read, a text that is not
    valid TEXT), and when the query failed, the answer is 400 with "database
    aggregation failed: ..." if the message of the database contains
    "invalid" and 500 otherwise; in the remaining case the answer is 200 with
    the total of the user PostgreSQL read. *)
Theorem GetTotalCost_on_postgres
    (repo : SubscriptionRepository Table) (userID serviceName from to : string) (db : Table) :
  (TotalCost repo userID serviceName from to db
   = PostgresSubscriptionRepo.TotalCost UUID_eq_dec uuid_Parse pg userID serviceName from to db
   \/ exists e, TotalCost repo userID serviceName from to db
                = Returns (0, Some ("database aggregation failed: " ++ e)%string)) ->
  GetTotalCost repo userID serviceName from to db
  = Returns
      (if (String.eqb from "" || String.eqb to "")%bool then
         httpjson.error_ "'from' and 'to' query parameters are required"
                         http.StatusBadRequest
       else if String.eqb userID "" then
         httpjson.error_ "'user_id' is required" http.StatusBadRequest
       else
         match uuid_Parse userID with
         | inr e =>
             httpjson.error_ ("invalid user_id UUID: " ++ e) http.StatusBadRequest
         | inl _ =>
             if ((Spec.isValidPeriod from || signed_month_period from)
                 && (Spec.isValidPeriod to || signed_month_period to))%bool
             then
               match PostgresSubscriptionRepo.bind_total_cost pg userID serviceName
                       from to with
               | inr uid =>
                   {| httpjson.status := http.StatusOK;
                      httpjson.payload :=
                        httpjson.Total
                          (PostgresSubscriptionRepo.sum_price
                             (filter (PostgresSubscriptionRepo.total_cost_where
                                        UUID_eq_dec uid serviceName from to) db)) |}
               | inl f =>
                   if strings.Contains
                        ("database aggregation failed: " ++ error_text pg f) "invalid"
                   then httpjson.error_ ("database aggregation failed: " ++ error_text pg f)
                                        http.StatusBadRequest
                   else httpjson.error_ "failed to calculate total cost"
                                        http.StatusInternalServerError
               end
             else httpjson.error_ "failed to calculate total cost"
                                  http.StatusInternalServerError
         end)
  \/ (exists e,
        TotalCost repo userID serviceName from to db
        = Returns (0, Some ("database aggregation failed: " ++ e)%string)
        /\ GetTotalCost repo userID serviceName from to db
           = Returns
               (if strings.Contains ("database aggregation failed: " ++ e) "invalid"
                then httpjson.error_ ("database aggregation failed: " ++ e)
                                     http.StatusBadRequest
                else httpjson.error_ "failed to calculate total cost"
                                     http.StatusInternalServerError)).
Proof.
  intros Hrepo. unfold GetTotalCost.
  destruct (String.eqb from "" || String.eqb to "")%bool; [left; reflexivity |].
  destruct (String.eqb userID ""); [left; reflexivity |].
  destruct Hrepo as [Hrepo | [e Hrepo]]; rewrite Hrepo.
  2:{ right. exists e. split; [reflexivity |]. cbn [bind].
      destruct (strings.Contains ("database aggregation failed: " ++ e) "invalid");
        reflexivity. }
  left. unfold PostgresSubscriptionRepo.TotalCost.
  destruct (uuid_Parse userID) as [u | e]; [| reflexivity].
  destruct (isValidMonthYear_returns from) as [bf Hf].
  destruct (isValidMonthYear_returns to) as [bt Ht].
  pose proof (isValidMonthYear_exact from) as Ef. pose proof (isValidMonthYear_exact to) as Et.
  rewrite <- orb_true_iff in Ef, Et.
  rewrite Hf. cbn [bind]. destruct bf; cbn [negb bind].
  - rewrite (proj1 Ef Hf). rewrite Ht. cbn [bind andb]. destruct bt; cbn [negb].
    + rewrite (proj1 Et Ht).
      destruct (PostgresSubscriptionRepo.bind_total_cost pg userID serviceName from to)
        as [f | uid]; cbn [bind]; [| reflexivity].
      destruct (strings.Contains ("database aggregation failed: " ++ error_text pg f)
                  "invalid"); reflexivity.
    + destruct (Spec.isValidPeriod to || signed_month_period to)%bool;
        [destruct Et as [_ Et]; specialize (Et eq_refl); congruence | reflexivity].
  - destruct (Spec.isValidPeriod from || signed_month_period from)%bool;
      [destruct Ef as [_ Ef]; specialize (Ef eq_refl); congruence | reflexivity].
Qed.

End PostgresHandlers.

(** ** The repository: safety and invariants *)

Section RepositoryInvariants.

Variable UUID : Type.
Variable UUID_eq_dec : forall a b : UUID, {a = b} + {a <> b}.
Variable uuid_Parse : string -> UUID + string.
Variable uuid_String : UUID -> string.
Variable pg : Postgres UUID.
Variable gen_random_uuid : PostgresSubscriptionRepo.Table UUID -> UUID.

Import PostgresSubscriptionRepo.

Local Notation "'Row'" := (PostgresSubscriptionRepo.Row UUID).
Local Notation "'Table'" := (PostgresSubscriptionRepo.Table UUID).
Local Notation "'postgres'" :=
  (NewPostgresSubscriptionRepo UUID_eq_dec uuid_Parse uuid_String pg gen_random_uuid).
Local Notation "'hit' id" := (fun r : Row => uuid_eqb UUID_eq_dec (row_id r) id)
  (at level 10, id at level 9).

Lemma Create_returns (sub : Subscription) (db : Table) :
  exists res, Create uuid_Parse uuid_String pg gen_random_uuid sub db = Returns res.
Proof.
  unfold Create. destruct (uuid_Parse (UserID sub)); [| eauto].
  destruct (isValidMonthYear_returns (StartDate sub)) as [ok ->]. cbn [bind].
  destruct ok; cbn [negb]; [| eauto].
  destruct (exec_insert _ _ _ _ _ _ _ _) as [f | [id db']]; eauto.
Qed.




(** X24: a write that fails writes nothing: when Update or Delete returns
    an error, whichever it is, the table it returns is the table it was
    given. *)
Theorem failed_write_keeps_table
    (id : string) (sub : Subscription) (db db' : Table) (e : string) :
  (Update UUID_eq_dec uuid_Parse pg id sub db = Returns (Some e, db') -> db' = db)
  /\ (Delete UUID_eq_dec uuid_Parse id db = (Some e, db') -> db' = db).
Proof.
  split.
  - unfold Update, exec_update.
    destruct (uuid_Parse id) as [parsedID | m]; [| intros H; now injection H].
    destruct (uuid_Parse (UserID sub)) as [u | m]; [| intros H; now injection H].
    destruct (isValidMonthYear_returns (StartDate sub)) as [ok ->]. cbn [bind].
    destruct ok; cbn [negb]; [| intros H; now injection H].
    destruct (bind_row pg (ServiceName sub) (Price sub) (UserID sub) (StartDate sub)
                (EndDate sub)) as [f | uid]; [intros H; now injection H |].
    destruct (Nat.ltb 0 (List.length (filter (hit parsedID) db)) && (Price sub <=? 0))%bool;
      [intros H; now injection H |].
    destruct (List.length (filter (hit parsedID) db)) eqn:L; cbn [Nat.eqb]; [| discriminate].
    intros H. injection H as _ <-. apply map_untouched.
    intros r Hr. destruct (hit parsedID r) eqn:E; [| reflexivity].
    assert (Hin : In r (filter (hit parsedID) db)) by (apply filter_In; now split).
    destruct (filter (hit parsedID) db); [contradiction | discriminate].
  - unfold Delete, exec_delete.
    destruct (uuid_Parse id) as [parsedID | m]; [| intros H; now injection H].
    destruct (List.length (filter (hit parsedID) db)) eqn:L; cbn [Nat.eqb]; [| discriminate].
    intros H. injection H as _ <-. apply forallb_filter_id, forallb_forall.
    intros r Hr. destruct (hit parsedID r) eqn:E; [| reflexivity].
    assert (Hin : In r (filter (hit parsedID) db)) by (apply filter_In; now split).
    destruct (filter (hit parsedID) db); [contradiction | discriminate].
Qed.

Lemma NoDup_map_filter (f : Row -> bool) (l : list Row) :
  NoDup (map (@row_id UUID) l) -> NoDup (map (@row_id UUID) (filter f l)).
Proof.
  induction l as [| x l IH]; simpl; intros H; [constructor |].
  inversion H as [| ? ? Hx Hl]; subst. destruct (f x); [| now apply IH].
  simpl. constructor; [| now apply IH].
  intros Hin. apply Hx. apply in_map_iff in Hin as (r & Er & Hr).
  apply in_map_iff. exists r. split; [exact Er |]. now apply filter_In in Hr as [Hr _].
Qed.

(** X25: the three writing operations keep the constraints of the table,
    whatever they return: Update and Delete always, Create as soon as the
    generated id is not already in the table.  On such a table a successful
    Delete removes exactly one row. *)
Theorem table_constraints_kept (db : Table) :
  table_ok db ->
  (forall id sub e db',
      Update UUID_eq_dec uuid_Parse pg id sub db = Returns (e, db') -> table_ok db')
  /\ (forall id e db',
         Delete UUID_eq_dec uuid_Parse id db = (e, db') -> table_ok db')
  /\ (forall sub e sub' db',
         (forall r, In r db -> row_id r <> gen_random_uuid db) ->
         Create uuid_Parse uuid_String pg gen_random_uuid sub db = Returns (e, sub', db') ->
         table_ok db')
  /\ (forall id db',
         Delete UUID_eq_dec uuid_Parse id db = (None, db') ->
         S (List.length db') = List.length db).
Proof.
  intros [Hids Hprices]. split; [| split; [| split]].
  - intros id sub e db'. unfold Update, exec_update.
    destruct (uuid_Parse id) as [parsedID | m];
      [| intros H; injection H as _ <-; now split].
    destruct (uuid_Parse (UserID sub)) as [u | m];
      [| intros H; injection H as _ <-; now split].
    destruct (isValidMonthYear_returns (StartDate sub)) as [ok ->]. cbn [bind].
    destruct ok; cbn [negb]; [| intros H; injection H as _ <-; now split].
    destruct (bind_row pg (ServiceName sub) (Price sub) (UserID sub) (StartDate sub)
                (EndDate sub)) as [f | uid]; [intros H; injection H as _ <-; now split |].
    destruct (Nat.ltb 0 (List.length (filter (hit parsedID) db)) && (Price sub <=? 0))%bool
      eqn:C; [intros H; injection H as _ <-; now split |].
    assert (Hnew : table_ok
              (map (fun r => if hit parsedID r
                             then set_row (ServiceName sub) (Price sub) uid
                                    (StartDate sub) (EndDate sub) r
                             else r) db)).
    { split.
      - rewrite map_map.
        rewrite (map_ext _ (@row_id UUID)); [exact Hids |].
        intros r. now destruct (hit parsedID r).
      - intros r' Hr'. apply in_map_iff in Hr' as (r & <- & Hr).
        destruct (hit parsedID r) eqn:E; [| now apply Hprices].
        cbn [set_row row_price].
        assert (Hin : In r (filter (hit parsedID) db)) by (apply filter_In; now split).
        destruct (filter (hit parsedID) db) as [| x l]; [contradiction |].
        cbn [List.length Nat.ltb Nat.leb andb] in C. apply Z.leb_gt in C. exact C. }
    destruct (Nat.eqb (List.length (filter (hit parsedID) db)) 0);
      intros H; injection H as _ <-; exact Hnew.
  - intros id e db'. unfold Delete, exec_delete.
    destruct (uuid_Parse id) as [parsedID | m];
      [| intros H; injection H as _ <-; now split].
    assert (Hnew : table_ok (filter (fun r => negb (hit parsedID r)) db)).
    { split; [now apply NoDup_map_filter |].
      intros r Hr. apply filter_In in Hr as [Hr _]. now apply Hprices. }
    destruct (Nat.eqb (List.length (filter (hit parsedID) db)) 0);
      intros H; injection H as _ <-; exact Hnew.
  - intros sub e sub' db' Hfresh. unfold Create, exec_insert.
    destruct (uuid_Parse (UserID sub)) as [u | m];
      [| intros H; injection H as _ _ <-; now split].
    destruct (isValidMonthYear_returns (StartDate sub)) as [ok ->]. cbn [bind].
    destruct ok; cbn [negb]; [| intros H; injection H as _ _ <-; now split].
    destruct (bind_row pg (ServiceName sub) (Price sub) (UserID sub) (StartDate sub)
                (EndDate sub)) as [f | uid]; [intros H; injection H as _ _ <-; now split |].
    destruct (Z.leb_spec (Price sub) 0) as [L | L];
      [intros H; injection H as _ _ <-; now split |].
    intros H. injection H as _ _ <-. split.
    + rewrite map_app. apply NoDup_app; [exact Hids | repeat constructor; intros [] |].
      intros a Ha [<- | []]. apply in_map_iff in Ha as (r & Er & Hr).
      now apply (Hfresh r Hr).
    + intros r Hr. apply in_app_iff in Hr as [Hr | [<- | []]]; [now apply Hprices | exact L].
  - intros id db'. unfold Delete, exec_delete.
    destruct (uuid_Parse id) as [parsedID | m]; [| discriminate].
    destruct (Nat.eqb_spec (List.length (filter (hit parsedID) db)) 0) as [E | E];
      [discriminate |].
    intros H. injection H as <-.
    clear Hprices. revert Hids E. induction db as [| x l IH]; intros Hnd E.
    + now destruct E.
    + simpl in *. inversion Hnd as [| ? ? Hx Hl]; subst.
      destruct (uuid_eqb UUID_eq_dec (row_id x) parsedID) eqn:Ex; cbn [negb].
      * do 2 f_equal. apply forallb_filter_id, forallb_forall.
        intros r Hr. apply negb_true_iff, uuid_eqb_neq. intros Er.
        apply Hx. apply uuid_eqb_eq in Ex. rewrite Ex, <- Er. now apply in_map.
      * simpl. f_equal. now apply IH.
Qed.

End RepositoryInvariants.

(** ** The further properties on sample data *)

Lemma total_cost_where_month_first_witness :
  PostgresSubscriptionRepo.total_cost_where uuid.UUID_eq_dec (uuid.MustParse Sample.user)
    "" "01-2025" "12-2025" Sample.ended_2024 = true.
Proof.
  rewrite (total_cost_where_month_first uuid.UUID uuid.UUID_eq_dec
             (uuid.MustParse Sample.user) "" "01-2025" "12-2025" Sample.ended_2024).
  - reflexivity.
  - reflexivity.
  - reflexivity.
  - split; [reflexivity |]. intros e E. injection E as <-. reflexivity.
Defined.

Lemma TotalCost_within_one_year_witness :
  PostgresSubscriptionRepo.TotalCost uuid.UUID_eq_dec uuid.ParseCanonical sample_db.pg
    Sample.user "" "01-2024" "12-2024" MoreSamples.two_rows
  = Returns (Spec.total_cost uuid.UUID_eq_dec (uuid.MustParse Sample.user)
               "" "01-2024" "12-2024" MoreSamples.two_rows, None).
Proof.
  apply (TotalCost_within_one_year uuid.UUID uuid.UUID_eq_dec uuid.ParseCanonical
           sample_db.pg Sample.user "" "01-2024" "12-2024" (uuid.MustParse Sample.user)
           MoreSamples.two_rows 2024).
  - eexists. reflexivity.
  - split; [reflexivity | split; [reflexivity | split; [reflexivity | left; reflexivity]]].
  - lia.
  - reflexivity.
  - reflexivity.
  - reflexivity.
  - reflexivity.
  - intros r [<- | [<- | []]].
    + split; [split; [reflexivity | discriminate] |]. split; [reflexivity | discriminate].
    + split; [split; [reflexivity | intros e E; injection E as <-; reflexivity] |].
      split; [reflexivity | intros e E; injection E as <-; reflexivity].
Defined.

Lemma ListByUserID_month_first_witness :
  exists rows,
    PostgresSubscriptionRepo.ListByUserID uuid.UUID_eq_dec uuid.ParseCanonical uuid.String_
      sample_db.pg
      Sample.user [Sample.since_jan_2024; Sample.since_dec_2023]
    = (map (PostgresSubscriptionRepo.scan uuid.String_) rows, None)
    /\ Permutation rows
         (filter (fun r => PostgresSubscriptionRepo.uuid_eqb uuid.UUID_eq_dec
                             (PostgresSubscriptionRepo.row_user_id r)
                             (uuid.MustParse Sample.user))
                 [Sample.since_jan_2024; Sample.since_dec_2023])
    /\ Sorted (@month_first_ge uuid.UUID) rows.
Proof.
  apply (ListByUserID_month_first uuid.UUID uuid.UUID_eq_dec uuid.ParseCanonical uuid.String_
           sample_db.pg Sample.user (uuid.MustParse Sample.user)
           [Sample.since_jan_2024; Sample.since_dec_2023]).
  - eexists. reflexivity.
  - reflexivity.
  - intros r [<- | [<- | []]]; reflexivity.
Defined.

Lemma Create_then_GetByID_witness :
  exists created db' uid,
    PostgresSubscriptionRepo.Create uuid.ParseCanonical uuid.String_ sample_db.pg
      uuid.gen_random_uuid
      Sample.request [Sample.open_ended] = Returns (None, created, db')
    /\ uuid_in sample_db.pg (UserID Sample.request) = Some uid
    /\ PostgresSubscriptionRepo.GetByID uuid.UUID_eq_dec uuid.ParseCanonical uuid.String_
         (ID created) db'
       = (Some {| ID := ID created; ServiceName := "Kinopoisk"; Price := 299;
                  UserID := uuid.String_ uid; StartDate := "07-2025";
                  EndDate := Some "07-2025" |}, None).
Proof.
  assert (C : exists created db',
             PostgresSubscriptionRepo.Create uuid.ParseCanonical uuid.String_ sample_db.pg
      uuid.gen_random_uuid
               Sample.request [Sample.open_ended] = Returns (None, created, db'))
    by (do 2 eexists; lazy; reflexivity).
  destruct C as (created & db' & C).
  destruct (Create_then_GetByID uuid.UUID uuid.UUID_eq_dec uuid.ParseCanonical uuid.String_
              sample_db.pg uuid.gen_random_uuid Sample.request created [Sample.open_ended]
              db' C)
    as (uid & _ & Hu & G).
  - intros r [<- | []]. vm_compute. discriminate.
  - reflexivity.
  - exists created, db', uid. split; [exact C |]. split; [exact Hu | exact G].
Defined.

Lemma Update_then_GetByID_witness :
  exists db',
    PostgresSubscriptionRepo.Update uuid.UUID_eq_dec uuid.ParseCanonical sample_db.pg Sample.id2 Sample.request
      MoreSamples.two_rows = Returns (None, db')
    /\ PostgresSubscriptionRepo.GetByID uuid.UUID_eq_dec uuid.ParseCanonical uuid.String_
         Sample.id1 db'
       = PostgresSubscriptionRepo.GetByID uuid.UUID_eq_dec uuid.ParseCanonical uuid.String_
           Sample.id1 MoreSamples.two_rows.
Proof.
  assert (U : exists db',
             PostgresSubscriptionRepo.Update uuid.UUID_eq_dec uuid.ParseCanonical sample_db.pg Sample.id2
               Sample.request MoreSamples.two_rows = Returns (None, db'))
    by (eexists; lazy; reflexivity).
  destruct U as (db' & U).
  destruct (Update_then_GetByID uuid.UUID uuid.UUID_eq_dec uuid.ParseCanonical uuid.String_
              sample_db.pg Sample.id2 Sample.request MoreSamples.two_rows db' U)
    as (parsedID & uid & Hid & _ & _ & _ & Hother).
  exists db'. split; [exact U |].
  apply (Hother Sample.id1 (uuid.MustParse Sample.id1)); [reflexivity |].
  intros E. rewrite <- E in Hid. vm_compute in Hid. discriminate.
Defined.

Lemma Delete_then_GetByID_witness :
  PostgresSubscriptionRepo.GetByID uuid.UUID_eq_dec uuid.ParseCanonical uuid.String_
    Sample.id2 [Sample.open_ended] = (None, Some "subscription not found").
Proof.
  destruct (Delete_then_GetByID uuid.UUID uuid.UUID_eq_dec uuid.ParseCanonical uuid.String_
              Sample.id2 MoreSamples.two_rows [Sample.open_ended] eq_refl)
    as (parsedID & _ & _ & G & _).
  exact G.
Defined.

Lemma ListByUserID_no_subscription_witness :
  PostgresSubscriptionRepo.ListByUserID uuid.UUID_eq_dec uuid.ParseCanonical uuid.String_
      sample_db.pg
    Sample.id3 MoreSamples.two_rows = ([], None).
Proof.
  apply (ListByUserID_no_subscription uuid.UUID uuid.UUID_eq_dec uuid.ParseCanonical uuid.String_
           sample_db.pg Sample.id3 (uuid.MustParse Sample.id3) MoreSamples.two_rows).
  - eexists. reflexivity.
  - reflexivity.
  - intros r [<- | [<- | []]]; vm_compute; discriminate.
Defined.

Lemma TotalCost_additive_witness :
  exists t1 t2,
    PostgresSubscriptionRepo.TotalCost uuid.UUID_eq_dec uuid.ParseCanonical sample_db.pg
      Sample.user "" "01-2025" "12-2025" [Sample.open_ended] = Returns (t1, None)
    /\ PostgresSubscriptionRepo.TotalCost uuid.UUID_eq_dec uuid.ParseCanonical sample_db.pg
         Sample.user "" "01-2025" "12-2025" [Sample.ended_2024] = Returns (t2, None)
    /\ PostgresSubscriptionRepo.TotalCost uuid.UUID_eq_dec uuid.ParseCanonical sample_db.pg
         Sample.user "" "01-2025" "12-2025" ([Sample.open_ended] ++ [Sample.ended_2024])%list
       = Returns (t1 + t2, None).
Proof.
  apply (TotalCost_additive uuid.UUID uuid.UUID_eq_dec uuid.ParseCanonical sample_db.pg
           Sample.user "" "01-2025" "12-2025" (uuid.MustParse Sample.user)
           [Sample.open_ended] [Sample.ended_2024]).
  - eexists. reflexivity.
  - reflexivity.
  - reflexivity.
  - split; [reflexivity | split; [reflexivity | split; [reflexivity | left; reflexivity]]].
Defined.

Lemma TotalCost_service_bounds_witness :
  exists t tall,
    PostgresSubscriptionRepo.TotalCost uuid.UUID_eq_dec uuid.ParseCanonical sample_db.pg
      Sample.user "Netflix" "01-2025" "12-2025" MoreSamples.two_rows = Returns (t, None)
    /\ PostgresSubscriptionRepo.TotalCost uuid.UUID_eq_dec uuid.ParseCanonical sample_db.pg
         Sample.user "" "01-2025" "12-2025" MoreSamples.two_rows = Returns (tall, None)
    /\ 0 <= t <= tall.
Proof.
  apply (TotalCost_service_bounds uuid.UUID uuid.UUID_eq_dec uuid.ParseCanonical sample_db.pg
           Sample.user "Netflix" "01-2025" "12-2025" (uuid.MustParse Sample.user)
           MoreSamples.two_rows).
  - eexists. reflexivity.
  - reflexivity.
  - reflexivity.
  - split; [reflexivity | split; [reflexivity | split; [reflexivity | right; reflexivity]]].
  - intros r [<- | [<- | []]]; reflexivity.
Defined.

Lemma CreateSubscription_validates_first_witness :
  exists resp,
    CreateSubscription uuid.ParseCanonical
      (NewPostgresSubscriptionRepo uuid.UUID_eq_dec uuid.ParseCanonical uuid.String_
         sample_db.pg uuid.gen_random_uuid)
      (Some MoreSamples.ends_before_start) MoreSamples.two_rows
    = Returns (resp, MoreSamples.two_rows)
    /\ http.status resp = http.StatusBadRequest.
Proof.
  destruct (CreateSubscription_validates_first uuid.UUID uuid.ParseCanonical _
              (NewPostgresSubscriptionRepo uuid.UUID_eq_dec uuid.ParseCanonical uuid.String_
                 sample_db.pg uuid.gen_random_uuid)
              (Some MoreSamples.ends_before_start) MoreSamples.two_rows)
    as [(resp & E & Hs & _) | (req & err & created & st' & D & _ & Hacc & _)].
  - intros sub st0 H.
    destruct (Create_returns uuid.UUID uuid.ParseCanonical uuid.String_ sample_db.pg
                uuid.gen_random_uuid sub st0)
      as [res R].
    change (PostgresSubscriptionRepo.Create uuid.ParseCanonical uuid.String_ sample_db.pg
      uuid.gen_random_uuid
              sub st0 = Panics) in H.
    rewrite R in H. discriminate.
  - exists resp. split; assumption.
  - exfalso. injection D as <-.
    destruct (Hacc "06-2025" eq_refl) as [_ Hc]. vm_compute in Hc. discriminate.
Defined.

Lemma end_date_before_start_refused_witness :
  CreateSubscription uuid.ParseCanonical
    (NewPostgresSubscriptionRepo uuid.UUID_eq_dec uuid.ParseCanonical uuid.String_
       sample_db.pg uuid.gen_random_uuid)
    (Some MoreSamples.ends_before_start) MoreSamples.two_rows
  = Returns (http.Error "end_date must be >= start_date" http.StatusBadRequest,
             MoreSamples.two_rows).
Proof.
  apply (end_date_before_start_refused uuid.UUID uuid.ParseCanonical _
           (NewPostgresSubscriptionRepo uuid.UUID_eq_dec uuid.ParseCanonical uuid.String_
              sample_db.pg uuid.gen_random_uuid)
           Sample.id1 MoreSamples.ends_before_start "06-2025" MoreSamples.two_rows);
    try reflexivity.
  discriminate.
Defined.

Lemma CreateSubscription_on_postgres_witness :
  CreateSubscription uuid.ParseCanonical
    (NewPostgresSubscriptionRepo uuid.UUID_eq_dec uuid.ParseCanonical uuid.String_
       sample_db.pg uuid.gen_random_uuid)
    (Some MoreSamples.starts_in_2101) MoreSamples.two_rows
  = Returns (http.Error "failed to create subscription" http.StatusInternalServerError,
             MoreSamples.two_rows).
Proof.
  destruct (CreateSubscription_on_postgres uuid.UUID uuid.ParseCanonical
              uuid.String_ sample_db.pg uuid.gen_random_uuid
              (NewPostgresSubscriptionRepo uuid.UUID_eq_dec uuid.ParseCanonical uuid.String_
                 sample_db.pg uuid.gen_random_uuid)
              MoreSamples.starts_in_2101 MoreSamples.two_rows)
    as (_ & [E | [_ E]]).
  - left. reflexivity.
  - reflexivity.
  - intros e E. discriminate.
  - exact E.
  - exact E.
Defined.

Lemma UpdateSubscription_on_postgres_witness :
  UpdateSubscription uuid.ParseCanonical
    (NewPostgresSubscriptionRepo uuid.UUID_eq_dec uuid.ParseCanonical uuid.String_
       sample_db.pg uuid.gen_random_uuid)
    "42" (Some Sample.request) MoreSamples.two_rows
  = Returns (http.Error "failed to update subscription" http.StatusInternalServerError,
             MoreSamples.two_rows).
Proof.
  destruct (UpdateSubscription_on_postgres uuid.UUID uuid.UUID_eq_dec uuid.ParseCanonical
              uuid.String_ sample_db.pg
              (NewPostgresSubscriptionRepo uuid.UUID_eq_dec uuid.ParseCanonical uuid.String_
                 sample_db.pg uuid.gen_random_uuid)
              "42" Sample.request MoreSamples.two_rows)
    as (_ & [E | [[_ E] | (parsedID & _ & Hid & _)]]).
  - intros sub. left. reflexivity.
  - intros db'. left. reflexivity.
  - discriminate.
  - reflexivity.
  - intros e E. injection E as <-. split; reflexivity.
  - exact E.
  - exact E.
  - exfalso. cbv in Hid. discriminate.
Defined.

Lemma DeleteSubscription_on_postgres_witness :
  DeleteSubscription uuid.ParseCanonical
    (NewPostgresSubscriptionRepo uuid.UUID_eq_dec uuid.ParseCanonical uuid.String_
       sample_db.pg uuid.gen_random_uuid)
    Sample.id2 MoreSamples.two_rows
  = Returns ({| httpjson.status := httpjson.StatusNoContent;
                httpjson.payload := httpjson.NoBody |}, [Sample.open_ended]).
Proof.
  destruct (DeleteSubscription_on_postgres uuid.UUID uuid.UUID_eq_dec uuid.ParseCanonical
              (NewPostgresSubscriptionRepo uuid.UUID_eq_dec uuid.ParseCanonical uuid.String_
                 sample_db.pg uuid.gen_random_uuid)
              Sample.id2 MoreSamples.two_rows) as [E | (_ & _ & [e He] & _)].
  - left. reflexivity.
  - exact E.
  - exfalso. cbv in He. discriminate.
Defined.

Lemma GetSubscription_on_postgres_witness :
  GetSubscription uuid.ParseCanonical
    (NewPostgresSubscriptionRepo uuid.UUID_eq_dec uuid.ParseCanonical uuid.String_
       sample_db.pg uuid.gen_random_uuid)
    Sample.id2 MoreSamples.two_rows
  = Returns {| httpjson.status := http.StatusOK;
               httpjson.payload :=
                 httpjson.One (Some (PostgresSubscriptionRepo.scan uuid.String_
                                       Sample.ended_2024)) |}.
Proof.
  destruct (GetSubscription_on_postgres uuid.UUID uuid.UUID_eq_dec uuid.ParseCanonical
              uuid.String_
              (NewPostgresSubscriptionRepo uuid.UUID_eq_dec uuid.ParseCanonical uuid.String_
                 sample_db.pg uuid.gen_random_uuid)
              Sample.id2 MoreSamples.two_rows) as [E | (_ & _ & [e He] & _)].
  - left. reflexivity.
  - exact E.
  - exfalso. cbv in He. discriminate.
Defined.

Lemma GetTotalCost_on_postgres_witness :
  GetTotalCost
    (NewPostgresSubscriptionRepo uuid.UUID_eq_dec uuid.ParseCanonical uuid.String_
       sample_db.pg uuid.gen_random_uuid)
    Sample.user "" "01-2025" "1-2025" MoreSamples.two_rows
  = Returns (httpjson.error_ "failed to calculate total cost"
                             http.StatusInternalServerError).
Proof.
  destruct (GetTotalCost_on_postgres uuid.UUID uuid.UUID_eq_dec uuid.ParseCanonical
              sample_db.pg
              (NewPostgresSubscriptionRepo uuid.UUID_eq_dec uuid.ParseCanonical uuid.String_
                 sample_db.pg uuid.gen_random_uuid)
              Sample.user "" "01-2025" "1-2025" MoreSamples.two_rows)
    as [E | (e & He & _)].
  - left. reflexivity.
  - exact E.
  - exfalso. cbv in He. discriminate.
Defined.

Lemma failed_write_keeps_table_witness :
  [Sample.open_ended] = [Sample.open_ended].
Proof.
  apply (proj2 (failed_write_keeps_table uuid.UUID uuid.UUID_eq_dec uuid.ParseCanonical
                  sample_db.pg Sample.id2 Sample.request [Sample.open_ended] [Sample.open_ended]
                  "subscription not found")).
  reflexivity.
Defined.

Lemma table_constraints_kept_witness :
  table_ok [Sample.open_ended].
Proof.
  assert (Hok : table_ok MoreSamples.two_rows).
  { split.
    - repeat constructor; simpl; [intros [H | []]; vm_compute in H; discriminate | tauto].
    - intros r [<- | [<- | []]]; reflexivity. }
  destruct (table_constraints_kept uuid.UUID uuid.UUID_eq_dec uuid.ParseCanonical uuid.String_
              sample_db.pg uuid.gen_random_uuid MoreSamples.two_rows Hok) as (_ & HD & _).
  apply (HD Sample.id2 None [Sample.open_ended]). reflexivity.
Defined.
